(** * Xcel My Energy usage scrapers: capture, replay and normalisation

    A shallow embedding of the five downloader scripts
    ([xcel_download_elec_daily.py], [xcel_download_elec_monthly.py],
    [xcel_download_gas_monthly.py], [xcel_download_bill_history.py],
    [xcel_download_ondemand.py]) and the properties of their request
    capture, URL rewriting, HTTP replay and CSV normalisation code.

    Conventions.
    - A Python [str] is a [string]; a non-ASCII character is the run of
      bytes of its UTF-8 encoding.
    - A Python dict whose order matters is an association list; the files
      written by the scripts live in a [gmap] from path to content.
    - A raised exception is the [Raise] branch of [result]. *)

From Stdlib Require Import ZArith QArith Qround Lia Ascii String List DecimalString.
From stdpp Require Import base option list sorting gmap strings.

Import ListNotations.
Local Open Scope string_scope.
Local Open Scope list_scope.

(* ===================================================================== *)
(** * Part I: the programs                                                 *)
(* ===================================================================== *)

(** ** Python strings *)

Module Str.

(** [hay.startswith(needle)]. *)
Fixpoint starts_with (needle hay : string) : bool :=
  match needle, hay with
  | EmptyString, _ => true
  | String _ _, EmptyString => false
  | String a n', String b h' => Ascii.eqb a b && starts_with n' h'
  end.

(** [needle in hay]. *)
Fixpoint contains (needle hay : string) : bool :=
  starts_with needle hay ||
  match hay with
  | EmptyString => false
  | String _ h' => contains needle h'
  end.

(** Truth value of a string: the empty string is falsy. *)
Definition truthy (s : string) : bool :=
  match s with EmptyString => false | String _ _ => true end.

(** [s.split(sep, 1)] for a one-character separator: [None] when [sep]
    does not occur, else the text before and after its first occurrence. *)
Fixpoint cut (sep : ascii) (s : string) : option (string * string) :=
  match s with
  | EmptyString => None
  | String c s' =>
      if Ascii.eqb c sep then Some (EmptyString, s')
      else match cut sep s' with
           | Some (a, b) => Some (String c a, b)
           | None => None
           end
  end.

(** [s.split(sep)] for a one-character separator; never the empty list. *)
Fixpoint split (sep : ascii) (s : string) : list string :=
  match s with
  | EmptyString => [EmptyString]
  | String c s' =>
      if Ascii.eqb c sep then EmptyString :: split sep s'
      else match split sep s' with
           | piece :: pieces => String c piece :: pieces
           | [] => [String c EmptyString]
           end
  end.

(** [sep.join(pieces)]. *)
Fixpoint join (sep : string) (pieces : list string) : string :=
  match pieces with
  | [] => EmptyString
  | [p] => p
  | p :: ps => p ++ sep ++ join sep ps
  end.

(** [s.replace(a, b)] for single characters. *)
Fixpoint replace (a b : ascii) (s : string) : string :=
  match s with
  | EmptyString => EmptyString
  | String c s' => String (if Ascii.eqb c a then b else c) (replace a b s')
  end.

(** [s.replace(a, empty)]: every occurrence of a character removed. *)
Fixpoint remove (a : ascii) (s : string) : string :=
  match s with
  | EmptyString => EmptyString
  | String c s' => if Ascii.eqb c a then remove a s' else String c (remove a s')
  end.

(** Keep the characters that satisfy [keep]. *)
Fixpoint filter (keep : ascii -> bool) (s : string) : string :=
  match s with
  | EmptyString => EmptyString
  | String c s' => if keep c then String c (filter keep s') else filter keep s'
  end.

Definition code (c : ascii) : N := N_of_ascii c.
Definition chr (n : N) : ascii := ascii_of_N n.

Definition between (lo hi : N) (c : ascii) : bool :=
  ((lo <=? code c) && (code c <=? hi))%N.

Definition is_digit : ascii -> bool := between 48 57.
Definition is_upper : ascii -> bool := between 65 90.
Definition is_lower : ascii -> bool := between 97 122.

End Str.

(** ** Python dicts

    Keys in insertion order, each once. *)

Module Dict.
Section Dict.
Context {V : Type}.

Definition t := list (string * V).

(** [d.get(key)]. *)
Fixpoint get (d : t) (key : string) : option V :=
  match d with
  | [] => None
  | (k, v) :: d' => if String.eqb k key then Some v else get d' key
  end.

(** [d[key] = v]: in place when the key exists, at the end otherwise. *)
Fixpoint set (d : t) (key : string) (v : V) : t :=
  match d with
  | [] => [(key, v)]
  | (k, old) :: d' =>
      if String.eqb k key then (k, v) :: d'
      else (k, old) :: set d' key v
  end.

Definition keys (d : t) : list string := map fst d.
End Dict.
Arguments t V : clear implicits.
End Dict.

(** ** [urllib.parse] as the scripts use it

    [swap_usage_type] is four library calls.  The library functions are
    written out here following CPython's [Lib/urllib/parse.py], with the
    arguments the script passes: [parse_qs(..., keep_blank_values=True)],
    [urlencode(..., doseq=True)]. *)

Module Urllib.

Import Str.

Definition is_hex (c : ascii) : bool :=
  is_digit c || between 65 70 c || between 97 102 c.

Definition hex_value (c : ascii) : N :=
  if is_digit c then code c - 48
  else if between 65 70 c then code c - 55
  else code c - 87.

Definition hex_digit (n : N) : ascii :=
  if (n <? 10)%N then chr (48 + n) else chr (55 + n).

(** [unquote_to_bytes]: [%XY] with two hex digits becomes one byte, any
    other [%] stays. *)
Fixpoint unquote_to_bytes (s : string) : string :=
  match s with
  | EmptyString => EmptyString
  | String c s1 =>
      if Ascii.eqb c "%" then
        match s1 with
        | String h (String l s3) =>
            if is_hex h && is_hex l
            then String (chr (16 * hex_value h + hex_value l))
                        (unquote_to_bytes s3)
            else String c (unquote_to_bytes s1)
        | _ => String c (unquote_to_bytes s1)
        end
      else String c (unquote_to_bytes s1)
  end.

(** [bytes.decode("utf-8", "replace")], read back as UTF-8: well-formed
    sequences are kept, every ill-formed run becomes U+FFFD. *)
Definition is_cont (c : ascii) : bool := between 128 191 c.

Definition fffd : string :=
  String (chr 239) (String (chr 191) (String (chr 189) EmptyString)).

Definition second_ok3 (lead : N) (c2 : ascii) : bool :=
  is_cont c2
  && negb (if (code c2 <? 160)%N then (lead =? 224)%N else (lead =? 237)%N).

Definition second_ok4 (lead : N) (c2 : ascii) : bool :=
  is_cont c2
  && negb (if (code c2 <? 144)%N then (lead =? 240)%N else (lead =? 244)%N).

Fixpoint utf8_replace (s : string) : string :=
  match s with
  | EmptyString => EmptyString
  | String c1 r1 =>
      let n1 := code c1 in
      if (n1 <? 128)%N then String c1 (utf8_replace r1)
      else if ((n1 <? 194) || (244 <? n1))%N then fffd ++ utf8_replace r1
      else if (n1 <? 224)%N then
        match r1 with
        | EmptyString => fffd
        | String c2 r2 =>
            if is_cont c2 then String c1 (String c2 (utf8_replace r2))
            else fffd ++ utf8_replace r1
        end
      else if (n1 <? 240)%N then
        match r1 with
        | EmptyString => fffd
        | String c2 r2 =>
            if second_ok3 n1 c2 then
              match r2 with
              | EmptyString => fffd
              | String c3 r3 =>
                  if is_cont c3
                  then String c1 (String c2 (String c3 (utf8_replace r3)))
                  else fffd ++ utf8_replace r2
              end
            else fffd ++ utf8_replace r1
        end
      else
        match r1 with
        | EmptyString => fffd
        | String c2 r2 =>
            if second_ok4 n1 c2 then
              match r2 with
              | EmptyString => fffd
              | String c3 r3 =>
                  if is_cont c3 then
                    match r3 with
                    | EmptyString => fffd
                    | String c4 r4 =>
                        if is_cont c4
                        then String c1 (String c2 (String c3
                               (String c4 (utf8_replace r4))))
                        else fffd ++ utf8_replace r3
                    end
                  else fffd ++ utf8_replace r2
              end
            else fffd ++ utf8_replace r1
        end
  end.

(** [unquote]: untouched without a [%]; otherwise every maximal run of
    ASCII characters is unquoted to bytes and decoded, and the characters
    between the runs are kept. [run] is the ASCII run read so far. *)
Fixpoint unquote_runs (s run : string) : string :=
  match s with
  | EmptyString => utf8_replace (unquote_to_bytes run)
  | String c s' =>
      if (code c <? 128)%N then unquote_runs s' (run ++ String c EmptyString)
      else utf8_replace (unquote_to_bytes run)
           ++ String c (unquote_runs s' EmptyString)
  end.

Definition unquote (s : string) : string :=
  if contains "%" s then unquote_runs s EmptyString else s.

(** [quote_plus] with no character declared safe, as [urlencode] calls
    it. *)
Definition always_safe (c : ascii) : bool :=
  is_upper c || is_lower c || is_digit c
  || Ascii.eqb c "_" || Ascii.eqb c "." || Ascii.eqb c "-" || Ascii.eqb c "~".

Fixpoint quote_plus (s : string) : string :=
  match s with
  | EmptyString => EmptyString
  | String c s' =>
      if always_safe c then String c (quote_plus s')
      else if Ascii.eqb c " " then String "+" (quote_plus s')
      else String "%" (String (hex_digit (code c / 16))
             (String (hex_digit (code c mod 16)) (quote_plus s')))
  end.

(** [parse_qsl(qs, keep_blank_values=True)]: one pair per non-empty
    [&]-separated field, a field without [=] has the empty value. *)
Definition parse_field (name_value : string) : list (string * string) :=
  if truthy name_value then
    let nv := match cut "=" name_value with
              | Some nv => nv
              | None => (name_value, EmptyString)
              end in
    [(unquote (replace "+" " " (fst nv)), unquote (replace "+" " " (snd nv)))]
  else [].

Definition parse_qsl (qs : string) : list (string * string) :=
  flat_map parse_field (split "&" qs).

(** One round of the loop of [parse_qs]: append to the list of an existing
    name, or start a new one. *)
Definition dict_add (d : Dict.t (list string)) (pair : string * string)
    : Dict.t (list string) :=
  match Dict.get d (fst pair) with
  | Some vs => Dict.set d (fst pair) (vs ++ [snd pair])
  | None => Dict.set d (fst pair) [snd pair]
  end.

Definition parse_qs (qs : string) : Dict.t (list string) :=
  foldl dict_add [] (parse_qsl qs).

(** [urlencode(d, doseq=True)]. *)
Definition encode_item (item : string * list string) : list string :=
  map (fun v => (quote_plus (fst item) ++ "=" ++ quote_plus v)%string)
      (snd item).

Definition urlencode (d : Dict.t (list string)) : string :=
  join "&" (flat_map encode_item d).

(** [urlparse]: tab, CR and LF are dropped, the fragment starts at the
    first [#], the query at the first [?] before it.  The library further
    splits the text before the query into scheme, netloc, path and params,
    and [urlunparse] joins them again, which can normalise that text (the
    case of the scheme, an empty params part); the scripts replace the
    query only, and here that text is carried as it is in the one field
    [before_query].  What is modelled in full is the query. *)
Record ParseResult := mkParseResult {
  before_query : string;
  query : string;
  fragment : string
}.

Definition urlparse (url : string) : ParseResult :=
  let url := remove (chr 9) (remove (chr 13) (remove (chr 10) url)) in
  let (url, frag) := match cut "#" url with
                     | Some p => p
                     | None => (url, EmptyString)
                     end in
  let (url, q) := match cut "?" url with
                  | Some p => p
                  | None => (url, EmptyString)
                  end in
  mkParseResult url q frag.

(** [parsed._replace(query=q)]. *)
Definition replace_query (p : ParseResult) (q : string) : ParseResult :=
  mkParseResult (before_query p) q (fragment p).

Definition urlunparse (p : ParseResult) : string :=
  before_query p
  ++ (if truthy (query p) then "?" ++ query p else EmptyString)
  ++ (if truthy (fragment p) then "#" ++ fragment p else EmptyString).

End Urllib.

(** [swap_usage_type], the same in the electric and the gas scripts. *)
Definition swap_usage_type (url usage_type : string) : string :=
  let parsed := Urllib.urlparse url in
  let params := Urllib.parse_qs (Urllib.query parsed) in
  let params := Dict.set params "usageType" [usage_type] in
  Urllib.urlunparse (Urllib.replace_query parsed (Urllib.urlencode params)).

(** ** Exceptions and results *)

Inductive exn :=
  | HttpFailed (what : string) (status : Z)
      (** [RuntimeError(f"{what} failed: HTTP {status}")] *)
  | JSONDecodeError   (** raised by [r.json()] on a body that is not JSON *)
  | ValueError.       (** raised by [float] on a malformed literal *)

Inductive result (A : Type) :=
  | Return (a : A)
  | Raise (e : exn).
Arguments Return {A} a.
Arguments Raise {A} e.

(** ** Python numbers

    The normalisers add, round and test JSON numbers, which Python reads as
    [int] or [float].  They are written over any type with these
    operations; the laws are the few facts about zero they rely on, which
    hold of Python's numbers. *)

Class Number (R : Type) := {
  int0 : R;                          (** [0] *)
  float0 : R;                        (** [0.0] *)
  add : R -> R -> R;                 (** [x + y] *)
  round_nd : R -> nat -> R;          (** [round(x, ndigits)] *)
  nonzero : R -> bool;               (** [bool(x)] *)
  nonzero_int0 : nonzero int0 = false;
  nonzero_float0 : nonzero float0 = false;
  add_int0_float0 : add int0 float0 = float0;
  add_float0_float0 : add float0 float0 = float0;
  round_float0 : forall n, round_nd float0 n = float0
}.

(** Exact numbers: an [int] is an integer, a [float] is the rational it
    denotes, kept in lowest terms.  Sums are exact and [round] rounds half
    to even, so the results are Python's wherever binary floating point
    introduces no error of its own. *)
Inductive num :=
  | Int (z : Z)
  | Float (q : Q).

Definition to_Q (x : num) : Q :=
  match x with Int z => inject_Z z | Float q => q end.

Definition num_add (x y : num) : num :=
  match x, y with
  | Int a, Int b => Int (a + b)
  | _, _ => Float (Qred (to_Q x + to_Q y)%Q)
  end.

(** Nearest integer, ties to the even one. *)
Definition round_half_even (q : Q) : Z :=
  let f := Qfloor q in
  match ((q - inject_Z f) ?= (1 # 2))%Q with
  | Lt => f
  | Gt => (f + 1)%Z
  | Eq => if Z.even f then f else (f + 1)%Z
  end.

Definition num_round (x : num) (ndigits : nat) : num :=
  match x with
  | Int z => Int z
  | Float q =>
      let scale := inject_Z (10 ^ Z.of_nat ndigits) in
      Float (Qred (inject_Z (round_half_even (q * scale)%Q) / scale)%Q)
  end.

Definition num_nonzero (x : num) : bool :=
  match x with
  | Int z => negb (z =? 0)%Z
  | Float q => negb (Qnum q =? 0)%Z
  end.

#[export] Instance num_Number : Number num := {|
  int0 := Int 0;
  float0 := Float 0;
  add := num_add;
  round_nd := num_round;
  nonzero := num_nonzero;
  nonzero_int0 := eq_refl;
  nonzero_float0 := eq_refl;
  add_int0_float0 := eq_refl;
  add_float0_float0 := eq_refl;
  round_float0 := fun n => eq_refl
|}.

(** ** CSV files

    A file is the list of rows handed to the [csv] writer, header first;
    the store maps a path to the file written there. *)

Inductive cell (R : Type) :=
  | Text (s : string)
  | Num (x : R)
  | Integer (z : Z)
  | Blank.            (** [None], written as the empty field *)
Arguments Text {R} s.
Arguments Num {R} x.
Arguments Integer {R} z.
Arguments Blank {R}.

Definition csv_file (R : Type) := list (list (cell R)).

(** ** Series-shape payloads *)

Record series (R : Type) := Series {
  name : string;
  data : list (option R)      (** [number | null] at each category index *)
}.
Arguments Series {R} name data.
Arguments name {R} s.
Arguments data {R} s.

Section Values.
Context {R : Type} `{Number R}.

(** [v or 0.0] and [v or 0], for a number or [None]. *)
Definition or_float0 (v : option R) : R :=
  match v with
  | Some x => if nonzero x then x else float0
  | None => float0
  end.

Definition or_int0 (v : option R) : R :=
  match v with
  | Some x => if nonzero x then x else int0
  | None => int0
  end.

(** [bool(v)]. *)
Definition truth (v : option R) : bool :=
  match v with
  | Some x => nonzero x
  | None => false
  end.

(** [sum(xs)], which starts from the integer [0]. *)
Definition py_sum (xs : list R) : R := foldl add int0 xs.

(** [vals[i] if i < len(vals) else 0.0]. *)
Definition at_or_float0 (vals : list (option R)) (i : nat) : option R :=
  match vals !! i with
  | Some v => v
  | None => Some float0
  end.

Definition cell_of (v : option R) : cell R :=
  match v with
  | Some x => Num x
  | None => Blank
  end.

End Values.

(** ** [json_to_csv], the same in the electric and the gas chart scripts *)

Module Chart.
Section Chart.
Context {R : Type} `{Number R}.

(** The chart response; a field is [None] when the key is absent. *)
Record chart := Chart {
  column_fulldates : option (list string);
  series_data : option (list (series R))
}.

(** [d.split(" ")[0]]. *)
Definition first_word (d : string) : string :=
  match Str.split " " d with
  | w :: _ => w
  | [] => d
  end.

Definition chart_vals (ss : list (series R)) (i : nat) : list (option R) :=
  map (fun s => at_or_float0 (data s) i) ss.

Definition chart_total (vals : list (option R)) : R :=
  round_nd (py_sum (map or_float0 vals)) 3.

Definition chart_row (ss : list (series R)) (i : nat) (date : string)
    : list (cell R) :=
  let vals := chart_vals ss i in
  let total := chart_total vals in
  [Text date] ++ map cell_of vals ++ [Num total].

(** The loop [for i, date in enumerate(dates)], from index [i] on. *)
Fixpoint chart_rows (ss : list (series R)) (i : nat) (dates : list string)
    : csv_file R :=
  match dates with
  | [] => []
  | date :: rest => chart_row ss i date :: chart_rows ss (S i) rest
  end.

Definition chart_header (ss : list (series R)) : list (cell R) :=
  [Text "Date"] ++ map (fun s => Text (name s)) ss ++ [Text "Total"].

Definition json_to_csv (d : chart) (output_path : string)
    (fs : gmap string (csv_file R)) : nat * gmap string (csv_file R) :=
  let dates := map first_word (default [] (column_fulldates d)) in
  let ss := default [] (series_data d) in
  if bool_decide (dates = []) || bool_decide (ss = []) then (0, fs)
  else
    let f := chart_header ss :: chart_rows ss 0 dates in
    (length dates, <[output_path := f]> fs).

End Chart.
Arguments chart R : clear implicits.
End Chart.


(** ** [datetime.strptime] and [strftime] for the two formats in use

    [strptime] turns a format into a regular expression, for ["%m/%d/%Y"]
    [(1[0-2]|0[1-9]|[1-9])/(3[0-1]|[1-2]\d|0[1-9]|[1-9]| [1-9])/(\d\d\d\d)],
    takes its first match at the start of the text and fails when text
    remains or the date does not exist.  A matcher returns the ways it can
    match, in the order the regular expression tries them.  The texts
    covered are ASCII: the digits are [0] to [9], white space is the ASCII
    white space, the day period is [AM] or [PM] in either case.  [strftime]
    prints the year as glibc does, without padding.  The normalisers take
    the conversion as an argument; these are the ones used to evaluate
    them on examples. *)

Module Datetime.

Import Str.

Definition matcher (A : Type) := string -> list (A * string).

Definition digit_in (lo hi : N) : matcher Z :=
  fun s =>
    match s with
    | String c r =>
        if is_digit c && between (48 + lo) (48 + hi) c
        then [(Z.of_N (code c - 48), r)]
        else []
    | EmptyString => []
    end.

Definition lit (a : ascii) : matcher unit :=
  fun s =>
    match s with
    | String c r => if Ascii.eqb c a then [(tt, r)] else []
    | EmptyString => []
    end.

Definition alt {A} (p q : matcher A) : matcher A :=
  fun s => p s ++ q s.

Definition andthen {A B} (p : matcher A) (f : A -> matcher B) : matcher B :=
  fun s => flat_map (fun ar => f (fst ar) (snd ar)) (p s).

Definition yield {A} (a : A) : matcher A := fun s => [(a, s)].

Definition two_digits (lo1 hi1 lo2 hi2 : N) : matcher Z :=
  andthen (digit_in lo1 hi1) (fun a =>
  andthen (digit_in lo2 hi2) (fun b => yield (10 * a + b)%Z)).

(** [%m]: [1[0-2]|0[1-9]|[1-9]]. *)
Definition month_re : matcher Z :=
  alt (two_digits 1 1 0 2) (alt (two_digits 0 0 1 9) (digit_in 1 9)).

(** [%d]: [3[0-1]|[1-2]\d|0[1-9]|[1-9]| [1-9]]. *)
Definition day_re : matcher Z :=
  alt (two_digits 3 3 0 1)
    (alt (two_digits 1 2 0 9)
      (alt (two_digits 0 0 1 9)
        (alt (digit_in 1 9)
          (andthen (lit " ") (fun _ => digit_in 1 9))))).

(** [%Y]: [\d\d\d\d]. *)
Definition year_re : matcher Z :=
  andthen (digit_in 0 9) (fun a =>
  andthen (digit_in 0 9) (fun b =>
  andthen (digit_in 0 9) (fun c =>
  andthen (digit_in 0 9) (fun d =>
    yield (1000 * a + 100 * b + 10 * c + d)%Z)))).

Record date := Date { year : Z; month : Z; day : Z }.

Definition mdY_re : matcher date :=
  andthen month_re (fun m =>
  andthen (lit "/") (fun _ =>
  andthen day_re (fun d =>
  andthen (lit "/") (fun _ =>
  andthen year_re (fun y => yield (Date y m d)))))).

Definition is_leap (y : Z) : bool :=
  ((y mod 4 =? 0) && (negb (y mod 100 =? 0) || (y mod 400 =? 0)))%Z.

Definition days_in_month (y m : Z) : Z :=
  if (m =? 2)%Z then (if is_leap y then 29 else 28)%Z
  else if ((m =? 4) || (m =? 6) || (m =? 9) || (m =? 11))%Z then 30%Z
  else 31%Z.

(** The checks of the [date] constructor. *)
Definition valid (d : date) : bool :=
  ((1 <=? year d) && (1 <=? month d) && (month d <=? 12)
   && (1 <=? day d) && (day d <=? days_in_month (year d) (month d)))%Z.

(** [None] is [ValueError]. *)
Definition strptime_mdY (s : string) : option date :=
  match mdY_re s with
  | (d, rest) :: _ =>
      if truthy rest then None
      else if valid d then Some d else None
  | [] => None
  end.

Definition decimal (n : Z) : string :=
  NilZero.string_of_uint (N.to_uint (Z.to_N n)).

Definition two (n : Z) : string :=
  if (n <? 10)%Z then "0" ++ decimal n else decimal n.

(** [d.strftime("%Y-%m-%d")]. *)
Definition strftime_Ymd (d : date) : string :=
  decimal (year d) ++ "-" ++ two (month d) ++ "-" ++ two (day d).

Definition mdY_to_iso (s : string) : option string :=
  match strptime_mdY s with
  | Some d => Some (strftime_Ymd d)
  | None => None
  end.

(** [%M]: [[0-5]\d|\d]. *)
Definition minute_re : matcher Z :=
  alt (two_digits 0 5 0 9) (digit_in 0 9).

(** [\s+]: the longest run first. *)
Definition is_space (c : ascii) : bool :=
  between 9 13 c || between 28 32 c.

Fixpoint spaces_re (s : string) : list (unit * string) :=
  match s with
  | String c r => if is_space c then spaces_re r ++ [(tt, r)] else []
  | EmptyString => []
  end.

(** [%p]: [am|pm], letter case ignored; [true] is PM. *)
Definition letter (lower upper : ascii) : matcher unit :=
  alt (lit lower) (lit upper).

Definition period_re : matcher bool :=
  alt (andthen (letter "a" "A") (fun _ =>
       andthen (letter "m" "M") (fun _ => yield false)))
      (andthen (letter "p" "P") (fun _ =>
       andthen (letter "m" "M") (fun _ => yield true))).

Record datetime := Datetime { on : date; hour : Z; minute : Z }.

(** The hour on the 24-hour clock from [%I] and [%p]. *)
Definition hour24 (h : Z) (pm : bool) : Z :=
  if pm then (if (h =? 12)%Z then 12 else h + 12)%Z
  else (if (h =? 12)%Z then 0 else h)%Z.

Definition mdY_IMp_re : matcher datetime :=
  andthen mdY_re (fun d =>
  andthen spaces_re (fun _ =>
  andthen month_re (fun h =>
  andthen (lit ":") (fun _ =>
  andthen minute_re (fun m =>
  andthen spaces_re (fun _ =>
  andthen period_re (fun pm => yield (Datetime d (hour24 h pm) m)))))))).

Definition strptime_mdY_IMp (s : string) : option datetime :=
  match mdY_IMp_re s with
  | (t, rest) :: _ =>
      if truthy rest then None
      else if valid (on t) then Some t else None
  | [] => None
  end.

(** [t.strftime("%Y-%m-%d %H:%M")]. *)
Definition strftime_YmdHM (t : datetime) : string :=
  strftime_Ymd (on t) ++ " " ++ two (hour t) ++ ":" ++ two (minute t).

Definition mdY_IMp_to_iso (s : string) : option string :=
  match strptime_mdY_IMp s with
  | Some t => Some (strftime_YmdHM t)
  | None => None
  end.

End Datetime.

(** ** [float(text)]

    The literal grammar as far as [parse_money] can reach it: after its
    filter the text holds digits, dots and minus signs only, and of those
    [float] accepts an optional minus sign followed by digits with at most
    one dot and at least one digit.  The value is the decimal the literal
    denotes, in lowest terms.  [float] rounds that decimal to the nearest
    binary64, and gives infinity from 2^1024 on; the value here is the
    decimal before this rounding.  The two are the same whenever the
    decimal is a binary64 itself, as every whole number up to 2^53 is;
    whether [float] raises does not depend on the rounding. *)

Module Float.

Import Str.

Fixpoint span_digits (s : string) : string * string :=
  match s with
  | String c r =>
      if is_digit c
      then let (ds, rest) := span_digits r in (String c ds, rest)
      else (EmptyString, s)
  | EmptyString => (EmptyString, EmptyString)
  end.

Fixpoint digits_value (acc : Z) (ds : string) : Z :=
  match ds with
  | String c r => digits_value (10 * acc + Z.of_N (code c - 48)) r
  | EmptyString => acc
  end.

Definition unsigned_literal (s : string) : option Q :=
  let (whole, rest) := span_digits s in
  let (frac, rest) :=
    match rest with
    | String c r => if Ascii.eqb c "." then span_digits r
                    else (EmptyString, rest)
    | EmptyString => (EmptyString, rest)
    end in
  if truthy rest then None
  else if truthy (whole ++ frac)
  then Some (Qred (Qmake (digits_value 0 (whole ++ frac))
                         (Z.to_pos (10 ^ Z.of_nat (String.length frac)))))
  else None.

(** [None] is [ValueError]. *)
Definition of_str (s : string) : option Q :=
  match s with
  | String c r =>
      if Ascii.eqb c "-"
      then match unsigned_literal r with
           | Some q => Some (Qred (- q))
           | None => None
           end
      else unsigned_literal s
  | EmptyString => None
  end.

End Float.

(** ** Replaying requests

    A run sends GET requests and writes files.  The world records the URLs
    requested so far and the file store; [server n url] is the response to
    the request for [url] sent after [n] earlier ones, with [json] the
    result of [r.json()], [None] when the body does not parse. *)

Record response (P : Type) := Response {
  status_code : Z;
  json : option P
}.
Arguments Response {P} status_code json.
Arguments status_code {P} r.
Arguments json {P} r.

Record world (R : Type) := World {
  sent : list string;
  files : gmap string (csv_file R)
}.
Arguments World {R} sent files.
Arguments sent {R} w.
Arguments files {R} w.

Section Run.
Context {R P : Type}.

Definition run (A : Type) := world R -> result A * world R.

Definition ret {A} (a : A) : run A := fun w => (Return a, w).

Definition raise {A} (e : exn) : run A := fun w => (Raise e, w).

Definition bind {A B} (m : run A) (f : A -> run B) : run B :=
  fun w =>
    match m w with
    | (Return a, w') => f a w'
    | (Raise e, w') => (Raise e, w')
    end.

(** [_req.get(url, ...)]. *)
Definition get (server : nat -> string -> response P) (url : string)
    : run (response P) :=
  fun w =>
    (Return (server (length (sent w)) url),
     World (sent w ++ [url]) (files w)).

(** A function that writes a file and returns a row count. *)
Definition write
    (f : gmap string (csv_file R) -> nat * gmap string (csv_file R))
    : run nat :=
  fun w => let (n, fs) := f (files w) in (Return n, World (sent w) fs).

(** The three lines each download step repeats:
    [r = _req.get(url, ...)],
    [if r.status_code != 200: raise RuntimeError(...)],
    and the later [r.json()]. *)
Definition fetch (server : nat -> string -> response P)
    (what url : string) : run P :=
  bind (get server url) (fun r =>
    if negb (status_code r =? 200)%Z
    then raise (HttpFailed what (status_code r))
    else match json r with
         | Some d => ret d
         | None => raise JSONDecodeError
         end).
End Run.

Notation "'let*' x := m 'in' k" := (bind m (fun x => k))
  (at level 10, x name, m at level 100, k at level 200).

(** ** Request capture *)

(** The dict [captured = {"ajax_url": None}] closed over by the observer. *)
Record captured := Captured { ajax_url : option string }.

Definition captured_init : captured := Captured None.

(** [captured["ajax_url"] = None]. *)
Definition reset (c : captured) : captured := Captured None.

(** Python's [a or b] on values that are a string or [None]. *)
Definition or_else (a b : option string) : option string :=
  match a with
  | Some s => if Str.truthy s then a else b
  | None => b
  end.

(** The request observers differ only in the substrings they look for:
    each is [first_match] at its own predicate. *)
Definition first_match (qualifies : string -> bool)
    (c : captured) (url : string) : captured :=
  if qualifies url && bool_decide (ajax_url c = None)
  then Captured (Some url)
  else c.

(** The observer called on each request, in the order they are sent. *)
Definition observe (on_request : captured -> string -> captured)
    (events : list string) (c : captured) : captured :=
  foldl on_request c events.

(** ** [xcel_download_elec_daily.py] *)

Module ElecDaily.

Definition swap_usage_type := swap_usage_type.

Definition json_to_csv {R} `{Number R} := @Chart.json_to_csv R _.

Definition qualifies (url : string) : bool :=
  Str.contains "usage-history-ajax/format/json" url
  && Str.contains "timePeriod=DAILY" url.

Definition on_request (c : captured) (url : string) : captured :=
  if qualifies url && bool_decide (ajax_url c = None)
  then Captured (Some url)
  else c.

(** The output files; [today] is [today.strftime("%Y-%m-%d")]. *)
Definition kwh_file (today : string) : string :=
  "xcel_data/byday_kwh_" ++ today ++ ".csv".

Definition cost_file (today : string) : string :=
  "xcel_data/byday_cost_" ++ today ++ ".csv".

(** Steps 5 and 6 of [main]: the kWh chart, then the cost chart obtained
    by swapping [usageType], each written with [json_to_csv]. *)
Definition download {R} `{Number R}
    (server : nat -> string -> response (Chart.chart R))
    (ajax_url today : string) : run (R := R) (nat * nat) :=
  let kwh_url := ajax_url in
  let cost_url := swap_usage_type ajax_url "C" in
  let* r := fetch server "kWh ajax request" kwh_url in
  let* rows_kwh := write (json_to_csv r (kwh_file today)) in
  let* r := fetch server "Cost ajax request" cost_url in
  let* rows_cost := write (json_to_csv r (cost_file today)) in
  ret (rows_kwh, rows_cost).

End ElecDaily.

(** ** [xcel_download_elec_monthly.py] *)

Module ElecMonthly.

Definition swap_usage_type := swap_usage_type.

Definition json_to_csv {R} `{Number R} := @Chart.json_to_csv R _.

Definition qualifies (url : string) : bool :=
  Str.contains "usage-history-ajax/format/json" url
  && Str.contains "timePeriod=MONTHLY" url.

Definition on_request (c : captured) (url : string) : captured :=
  if qualifies url && bool_decide (ajax_url c = None)
  then Captured (Some url)
  else c.

End ElecMonthly.

(** ** [xcel_download_gas_monthly.py] *)

Module GasMonthly.

Definition swap_usage_type := swap_usage_type.

Definition json_to_csv {R} `{Number R} := @Chart.json_to_csv R _.

Definition qualifies (url : string) : bool :=
  Str.contains "usage-history-ajax/format/json" url.

Definition on_request (c : captured) (url : string) : captured :=
  if qualifies url && bool_decide (ajax_url c = None)
  then Captured (Some url)
  else c.

(** Steps 1 to 6 of [main] as far as the capture slot is concerned.  The
    requests the page sends are the input: [before] up to the end of step
    4, [meter] between the reset of step 5 and the read of
    [ajax_url_from_meter], [monthly] between the reset of step 6 and the
    final read.  The result is [ajax_url]; when it is [None], [main]
    raises. *)
Definition capture_ajax_url (before meter monthly : list string)
    : option string :=
  let c := observe on_request before captured_init in
  let c := reset c in
  let c := observe on_request meter c in
  let ajax_url_from_meter := ajax_url c in
  let c := reset c in
  let c := observe on_request monthly c in
  or_else (ajax_url c) ajax_url_from_meter.

End GasMonthly.

(** ** [xcel_download_bill_history.py] *)

Module BillHistory.

Definition qualifies (url : string) : bool :=
  Str.contains "bill-presentment-account-summary-ajax" url.

Definition on_request (c : captured) (url : string) : captured :=
  if qualifies url && bool_decide (ajax_url c = None)
  then Captured (Some url)
  else c.

(** The characters kept by [re.sub], which deletes what matches
    [[^0-9.\-]]. *)
Definition money_char (c : ascii) : bool :=
  Str.is_digit c || Ascii.eqb c "." || Ascii.eqb c "-".

Definition parse_money (s : string) : result Q :=
  let kept := Str.filter money_char s in
  match Float.of_str (if Str.truthy kept then kept else "0") with
  | Some q => Return q
  | None => Raise ValueError
  end.

Section Bill.
Context {R : Type} `{Number R}.

(** [datetime.strptime(raw, "%m/%d/%Y").strftime("%Y-%m-%d")], [None]
    when it raises [ValueError]. *)
Variable to_iso : string -> option string.

(** The bill response; a field is [None] when the key is absent. *)
Record barchart := Barchart {
  categories : option (list string);
  series_data : option (list (series R))
}.

Record bill := Bill { cost_barchart : option barchart }.

(** [{s["name"]: s["data"] for s in series}]. *)
Definition by_name_of (ss : list (series R)) : Dict.t (list (option R)) :=
  foldl (fun d s => Dict.set d (name s) (data s)) [] ss.

Definition bill_header : list (cell R) :=
  [Text "Date"; Text "Electric Charges"; Text "Gas Charges"; Text "Total"].

(** The body of the loop [for i, raw_date in enumerate(cats)]: the rows
    written for category [i]. *)
Definition bill_row (elec_vals gas_vals : list (option R)) (i : nat)
    (raw_date : string) : csv_file R :=
  let date := default raw_date (to_iso raw_date) in
  let elec := at_or_float0 elec_vals i in
  let gas := at_or_float0 gas_vals i in
  let total := round_nd (add (or_int0 elec) (or_int0 gas)) 2 in
  if truth elec || truth gas
  then [[Text date; Num (or_float0 elec);
         Num (or_float0 gas); Num total]]
  else [].

(** The loop, from index [i] on. *)
Fixpoint bill_rows (elec_vals gas_vals : list (option R)) (i : nat)
    (cats : list string) : csv_file R :=
  match cats with
  | [] => []
  | raw_date :: rest =>
      bill_row elec_vals gas_vals i raw_date
      ++ bill_rows elec_vals gas_vals (S i) rest
  end.

(** [by_name.get(key, [0.0] * len(cats))]. *)
Definition get_or_zeros (by_name : Dict.t (list (option R))) (key : string)
    (cats : list string) : list (option R) :=
  default (replicate (length cats) (Some float0)) (Dict.get by_name key).

Definition bill_json_to_csv (d : bill) (output_path : string)
    (fs : gmap string (csv_file R)) : nat * gmap string (csv_file R) :=
  let chart := default (Barchart None None) (cost_barchart d) in
  let cats := default [] (categories chart) in
  let ss := default [] (series_data chart) in
  if bool_decide (cats = []) || bool_decide (ss = []) then (0, fs)
  else
    let by_name := by_name_of ss in
    let elec_vals := get_or_zeros by_name "Electric Charges" cats in
    let gas_vals := get_or_zeros by_name "Gas Charges" cats in
    let rows := bill_rows elec_vals gas_vals 0 cats in
    (length rows, <[output_path := bill_header :: rows]> fs).

(** Step 5 of [main]. *)
Definition download (server : nat -> string -> response bill)
    (fetch_url bill_file : string) : run (R := R) nat :=
  let* r := fetch server "Bill history AJAX request" fetch_url in
  write (bill_json_to_csv r bill_file).

End Bill.
Arguments barchart R : clear implicits.
Arguments bill R : clear implicits.

End BillHistory.

(** ** [xcel_download_ondemand.py] *)

Module OnDemand.

(** A key of a JSON object: absent, [null], or a value. *)
Inductive field (A : Type) :=
  | Absent
  | Null
  | Value (a : A).
Arguments Absent {A}.
Arguments Null {A}.
Arguments Value {A} a.

(** [iv.get(key)], and [iv.get(key, default)] with the empty string for
    default. *)
Definition get_or_none {A} (f : field A) : option A :=
  match f with Value a => Some a | _ => None end.

Definition get_or_empty (f : field string) : option string :=
  match f with
  | Absent => Some EmptyString
  | Null => None
  | Value s => Some s
  end.

Section Intervals.
Context {R : Type}.

(** [datetime.strptime(ts, "%m/%d/%Y %I:%M %p").strftime("%Y-%m-%d %H:%M")],
    [None] when it raises [ValueError]. *)
Variable reformat : string -> option string.

Definition parse_interval_datetime (ts : string) : string :=
  default ts (reformat ts).

(** One reading of the [odr-ajax] response: a timestamp text, the epoch
    in whole seconds, the amount and the rate tag. *)
Record interval := Interval {
  last_request_timestamp : field string;
  last_request_unix_timestamp : field Z;
  odr_amt : field R;
  rate_level : field string
}.

(** The dict appended to [rows]. *)
Record row := Row {
  DateTime : string;
  kWh : R;
  rate : option string;
  unix_ms : Z
}.

(** The body of the loop: the rows one interval contributes. *)
Definition interval_rows (iv : interval) : list row :=
  let ts_str := get_or_empty (last_request_timestamp iv) in
  let unix_s := get_or_none (last_request_unix_timestamp iv) in
  let kwh := get_or_none (odr_amt iv) in
  let rate := get_or_empty (rate_level iv) in
  match ts_str, unix_s, kwh with
  | Some ts, Some u, Some k =>
      if Str.truthy ts
      then [Row (parse_interval_datetime ts) k rate (u * 1000)]
      else []
  | _, _, _ => []
  end.

(** [rows.sort(key=...)]: the stable sort, by insertion. *)
Fixpoint insert_row (x : row) (l : list row) : list row :=
  match l with
  | [] => [x]
  | y :: l' =>
      if (unix_ms x <=? unix_ms y)%Z then x :: l
      else y :: insert_row x l'
  end.

Definition sort_rows (l : list row) : list row := foldr insert_row [] l.

Definition interval_header : list (cell R) :=
  [Text "DateTime"; Text "kWh"; Text "rate_level"; Text "unix_ms"].

Definition row_cells (r : row) : list (cell R) :=
  [Text (DateTime r); Num (kWh r);
   match rate r with Some t => Text t | None => Blank end;
   Integer (unix_ms r)].

(** The rows after the loop and the sort. *)
Definition sorted_rows (intervals : list interval) : list row :=
  sort_rows (flat_map interval_rows intervals).

Definition intervals_to_csv (intervals : list interval)
    (output_path : string) (fs : gmap string (csv_file R))
    : nat * gmap string (csv_file R) :=
  let rows := sorted_rows intervals in
  (length rows,
   <[output_path := interval_header :: map row_cells rows]> fs).

End Intervals.
Arguments interval R : clear implicits.
Arguments row R : clear implicits.

End OnDemand.


(** ** Vocabulary of the specification *)

(** The earliest and the latest event of a sequence that satisfy a capture
    predicate. *)
Definition earliest_match (qualifies : string -> bool)
    (events : list string) : option string :=
  List.find qualifies events.

Definition latest_match (qualifies : string -> bool)
    (events : list string) : option string :=
  List.find qualifies (rev events).

(** [r] is the first element of [events] that qualifies: nothing before it
    does; [None] when nothing qualifies at all. *)
Definition is_earliest (qualifies : string -> bool)
    (events : list string) (r : option string) : Prop :=
  match r with
  | Some u =>
      exists before after : list string,
        events = before ++ u :: after
        /\ qualifies u = true
        /\ Forall (fun x => qualifies x = false) before
  | None => Forall (fun x => qualifies x = false) events
  end.

(** A series entry at a category index, [None] when the series is shorter
    than the index and [Some None] when it holds [null]: the value it
    contributes to a total, with [zero] for a missing, null or zero
    entry. *)
Definition value_or {R} `{Number R} (zero : R) (entry : option (option R))
    : R :=
  match entry with
  | Some (Some x) => if nonzero x then x else zero
  | _ => zero
  end.

(** The entry is missing, [null] or a zero. *)
Definition zero_or_absent {R} `{Number R} (entry : option (option R))
    : Prop :=
  match entry with
  | Some (Some x) => nonzero x = false
  | _ => True
  end.

(** The first and the last cell of a row. *)
Definition date_cell {R} (r : list (cell R)) : option (cell R) := head r.
Definition total_cell {R} (r : list (cell R)) : option (cell R) := last r.

(** An interval item lacks a required field: its timestamp text is absent,
    [null] or empty, or its epoch or its amount is absent or [null]. *)
Definition lacks_field {R} (iv : OnDemand.interval R) : Prop :=
  (forall ts, OnDemand.last_request_timestamp iv = OnDemand.Value ts ->
              ts = EmptyString)
  \/ (forall u, OnDemand.last_request_unix_timestamp iv <> OnDemand.Value u)
  \/ (forall k, OnDemand.odr_amt iv <> OnDemand.Value k).

(** The record of a well-formed interval item. *)
Definition row_of {R} (reformat : string -> option string)
    (iv : OnDemand.interval R) : option (OnDemand.row R) :=
  match OnDemand.last_request_timestamp iv,
        OnDemand.last_request_unix_timestamp iv,
        OnDemand.odr_amt iv with
  | OnDemand.Value ts, OnDemand.Value u, OnDemand.Value k =>
      if Str.truthy ts
      then Some (OnDemand.Row (default ts (reformat ts)) k
                   (OnDemand.get_or_empty (OnDemand.rate_level iv))
                   (u * 1000))
      else None
  | _, _, _ => None
  end.

(** Ascending by epoch, and strictly so. *)
Definition ascending {R} (rows : list (OnDemand.row R)) : Prop :=
  StronglySorted (fun a b => (OnDemand.unix_ms a <= OnDemand.unix_ms b)%Z) rows.

Definition strictly_ascending {R} (rows : list (OnDemand.row R)) : Prop :=
  StronglySorted (fun a b => (OnDemand.unix_ms a < OnDemand.unix_ms b)%Z) rows.

(** Every character of a text satisfies [p]. *)
Fixpoint all_chars (p : ascii -> bool) (s : string) : bool :=
  match s with
  | EmptyString => true
  | String c s' => p c && all_chars p s'
  end.

Definition is_not (a : ascii) (c : ascii) : bool := negb (Ascii.eqb c a).

(** The raw fields of a query string other than those of one parameter,
    as they stand and in their order. *)
Definition field_name (name_value : string) : string :=
  match Str.cut "=" name_value with
  | Some (n, _) => n
  | None => name_value
  end.

Definition other_fields (name qs : string) : list string :=
  List.filter (fun f => negb (String.eqb (field_name f) name))
              (Str.split "&" qs).

(** A text is well-formed UTF-8: decoding it loses nothing.  Every Python
    [str] is. *)
Definition well_formed_text (s : string) : Prop := Urllib.utf8_replace s = s.

Definition well_formed_params (d : Dict.t (list string)) : Prop :=
  Forall (fun item => well_formed_text (fst item)
                      /\ Forall well_formed_text (snd item)) d.

(** The characters [quote_plus] produces. *)
Definition quoted_char (c : ascii) : bool :=
  Urllib.always_safe c || Ascii.eqb c "+" || Ascii.eqb c "%".

(** The characters of an encoded query: those of [quote_plus], and the
    [=] and [&] between them; none of them ends the query or is dropped
    by [urlparse]. *)
Definition query_char (c : ascii) : bool :=
  quoted_char c || Ascii.eqb c "=" || Ascii.eqb c "&".

(** The pairs of a dict of lists, name by name. *)
Definition pairs_of (d : Dict.t (list string)) : list (string * string) :=
  flat_map (fun item => map (fun v => (fst item, v)) (snd item)) d.

(** The characters [urlparse] does not drop: all but tab, LF and CR. *)
Definition kept_char (c : ascii) : bool :=
  is_not (Str.chr 9) c && is_not (Str.chr 10) c && is_not (Str.chr 13) c.

(** The ASCII characters; a URL as a browser reports it has no other. *)
Definition ascii7 (c : ascii) : bool := (Str.code c <? 128)%N.

(** The test [if elec or gas] of the bill loop at category [i]. *)
Definition charged {R} `{Number R} (elec_vals gas_vals : list (option R))
    (i : nat) : bool :=
  truth (at_or_float0 elec_vals i) || truth (at_or_float0 gas_vals i).

(** The labels of the categories that pass this test, each taken at its
    own index, in their order. *)
Definition charged_labels {R} `{Number R}
    (elec_vals gas_vals : list (option R)) (cats : list string)
    : list string :=
  map snd (List.filter (fun p => charged elec_vals gas_vals (fst p))
             (combine (seq 0 (length cats)) cats)).

(** ** [xcel_download_bill_history.py]: from the captured URL to the
    fetch URL *)

Module BillMain.

Import Str.

(** [parse_qsl(qs)] as [main] calls it, with [keep_blank_values] left at
    its default: a field without [=] or with nothing after it is
    skipped. *)
Definition parse_field (name_value : string) : list (string * string) :=
  if truthy name_value then
    match cut "=" name_value with
    | Some (n, v) =>
        if truthy v
        then [(Urllib.unquote (replace "+" " " n),
               Urllib.unquote (replace "+" " " v))]
        else []
    | None => []
    end
  else [].

Definition parse_qsl (qs : string) : list (string * string) :=
  flat_map parse_field (split "&" qs).

Definition parse_qs (qs : string) : Dict.t (list string) :=
  foldl Urllib.dict_add [] (parse_qsl qs).

(** [urlencode(params)] on a dict of texts: without [doseq] each value is
    quoted as the one text it is. *)
Definition urlencode (params : Dict.t string) : string :=
  Urllib.urlencode (map (fun item => (fst item, [snd item])) params).

(** [str(n)] of an [int]. *)
Definition str_of_int (n : Z) : string :=
  NilZero.string_of_int (Z.to_int n).

Definition BILL_AJAX_ENDPOINT : string :=
  "https://myenergy.xcelenergy.com/myenergy/bill-presentment-account-summary-ajax".

(** [start] and [end_] are [int(start.timestamp())] and
    [int(end.timestamp())], [now_ms] is
    [int(datetime.now().timestamp() * 1000)]. *)
Definition build_bill_ajax_url (custid : string) (start end_ now_ms : Z)
    : string :=
  let params :=
    [("custid", custid);
     ("page", "false");
     ("widget_id", "4907");
     ("start_date", str_of_int start);
     ("end_date", str_of_int end_);
     ("_", str_of_int now_ms)] in
  (BILL_AJAX_ENDPOINT ++ "?" ++ urlencode params)%string.

(** Step 4 of [main] after the capture:
    [params.get("custid", [None])[0]], [None] when the result is falsy
    and [main] raises.  The lists of [parse_qs] are never empty, so the
    index 0 is always there. *)
Definition custid_of (ajax_url : string) : option string :=
  let parsed := Urllib.urlparse ajax_url in
  let params := parse_qs (Urllib.query parsed) in
  match default [None] (map Some <$> Dict.get params "custid") with
  | Some custid :: _ => if truthy custid then Some custid else None
  | _ => None
  end.

End BillMain.

(** ** [xcel_download_ondemand.py]: the response observer and the end of
    step 4 *)

Module OnDemandMain.

Import Str OnDemand.

Section Capture.
Context {R : Type}.

(** The object of an [odr-ajax] response as far as [main] reads it: the
    [error] text, the [intervals] list, and whether it has any other
    key. *)
Record odr_object := OdrObject {
  error : field string;
  intervals : field (list (interval R));
  other_keys : bool
}.

(** What [resp.json()] returns: [null], an object, or a value of another
    kind, of which only the truth value matters. *)
Inductive body :=
  | JsonNull
  | JsonObject (o : odr_object)
  | JsonOther (truth_value : bool).

(** A response: its URL, and the result of [resp.json()], [None] when it
    raises. *)
Record odr_response := OdrResponse {
  url : string;
  json_of : option body
}.

(** [captured["odr_data"]]; [None] is Python's [None]. *)
Definition slot := option body.

(** [captured["odr_data"] is None]. *)
Definition is_none (c : slot) : bool :=
  match c with None => true | Some _ => false end.

Definition on_response (c : slot) (resp : odr_response) : slot :=
  if contains "odr-ajax" (url resp) && is_none c
  then match json_of resp with
       | Some JsonNull => None
       | Some j => Some j
       | None => c
       end
  else c.

Definition present {A} (f : field A) : bool :=
  match f with Absent => false | _ => true end.

(** Truth value of the captured data; an object is falsy when it has no
    key. *)
Definition body_truthy (j : body) : bool :=
  match j with
  | JsonNull => false
  | JsonObject o => other_keys o || present (error o) || present (intervals o)
  | JsonOther t => t
  end.

(** The ways the end of step 4 raises: the two [RuntimeError]s, and the
    errors of calling [.get] on a value that is not an object and [len] on
    [null]. *)
Inductive failure :=
  | NotCaptured
  | OdrError (error : string)
  | AttributeError
  | TypeError.

(** From [odr_data = captured["odr_data"]] to the [intervals] handed to
    [intervals_to_csv]. *)
Definition read_intervals (c : slot) : failure + list (interval R) :=
  match c with
  | None => inl NotCaptured
  | Some j =>
      if negb (body_truthy j) then inl NotCaptured
      else match j with
      | JsonObject o =>
          let error_text := match error o with
                            | Value e => if truthy e then Some e else None
                            | _ => None
                            end in
          match error_text with
          | Some e => inl (OdrError e)
          | None =>
              match intervals o with
              | Absent => inr []
              | Null => inl TypeError
              | Value ivs => inr ivs
              end
          end
      | _ => inl AttributeError
      end
  end.

Variable reformat : string -> option string.

Definition csv_file_of (today : string) : string :=
  ("xcel_data/ondemand_" ++ today ++ ".csv")%string.

(** A run that stops: the error raised, and the screenshot [main] takes
    before it raises, if it takes one.  It takes one,
    [page.screenshot(path=OUTPUT_DIR / "ondemand_error.png")], before the
    not-captured error and before no other.  A screenshot is no CSV file
    and is not kept in the CSV store. *)
Record stopped := Stopped {
  why : failure;
  screenshot : option string
}.

Definition error_screenshot (f : failure) : option string :=
  match f with
  | NotCaptured => Some "xcel_data/ondemand_error.png"
  | _ => None
  end.

(** Steps 4 and 5 of [main] on the responses the page receives. *)
Definition capture_and_write (responses : list odr_response)
    (today : string) (fs : gmap string (csv_file R))
    : (stopped + nat) * gmap string (csv_file R) :=
  match read_intervals (foldl on_response None responses) with
  | inl f => (inl (Stopped f (error_screenshot f)), fs)
  | inr ivs =>
      let (rows, fs') := intervals_to_csv reformat ivs (csv_file_of today) fs in
      (inr rows, fs')
  end.

End Capture.
Arguments odr_object R : clear implicits.
Arguments body R : clear implicits.
Arguments odr_response R : clear implicits.
Arguments slot R : clear implicits.

End OnDemandMain.

(** ** Further vocabulary *)

(** The series names [bill_json_to_csv] reads. *)
Definition configured (n : string) : bool :=
  String.eqb n "Electric Charges" || String.eqb n "Gas Charges".

(** A series cut to its first [n] entries. *)
Definition clip {R} (n : nat) (s : series R) : series R :=
  Series (name s) (take n (data s)).

(** A query field [name=value] whose name and value need no quoting. *)
Definition plain_field (f : string) : bool :=
  match Str.cut "=" f with
  | Some (n, v) =>
      all_chars Urllib.always_safe n && all_chars Urllib.always_safe v
  | None => false
  end.

(** The dict item [parse_qs] makes of a field that stands alone. *)
Definition field_item (f : string) : string * list string :=
  match Str.cut "=" f with
  | Some (n, v) => (n, [v])
  | None => (f, [EmptyString])
  end.

Definition names_usage_type (f : string) : bool :=
  String.eqb (field_name f) "usageType".

(** The field [urlencode] writes for the new usage type, and a field of
    the query with the [usageType] one replaced by it. *)
Definition usage_type_field (usage_type : string) : string :=
  "usageType=" ++ Urllib.quote_plus usage_type.

Definition swap_field (usage_type f : string) : string :=
  if names_usage_type f then usage_type_field usage_type else f.

(** The values of the pairs of one name, in their order. *)
Definition values_of (name : string) (pairs : list (string * string))
    : list string :=
  map snd (List.filter (fun p => String.eqb (fst p) name) pairs).

(** The data an [odr-ajax] response offers to the capture: none when the
    URL is another, when the body does not parse, or when it is
    [null]. *)
Definition usable_body {R} (resp : OnDemandMain.odr_response R)
    : option (OnDemandMain.body R) :=
  if Str.contains "odr-ajax" (OnDemandMain.url resp)
  then match OnDemandMain.json_of resp with
       | Some OnDemandMain.JsonNull => None
       | Some j => Some j
       | None => None
       end
  else None.

(** A matcher hands on a part of its input: what holds of every
    character of the text holds of every character of the rest. *)
Definition hands_on_rest {A} (p : ascii -> bool) (m : Datetime.matcher A)
    : Prop :=
  forall (s : string) (a : A) (r : string),
    all_chars p s = true -> In (a, r) (m s) -> all_chars p r = true.

(* ===================================================================== *)
(** * Part II: properties                                                  *)
(* ===================================================================== *)

(** ** Strings *)

Lemma contains_nonempty needle hay :
  Str.truthy needle = true -> Str.contains needle hay = true ->
  Str.truthy hay = true.
Proof.
  intros Hn Hc. destruct hay as [|b h]; [|reflexivity].
  destruct needle; discriminate.
Qed.

(** ** First-match capture *)

Section FirstMatch.
Variable qualifies : string -> bool.

Lemma first_match_full u url :
  first_match qualifies (Captured (Some u)) url = Captured (Some u).
Proof.
  unfold first_match. now destruct (qualifies url).
Qed.

Lemma observe_full u events :
  observe (first_match qualifies) events (Captured (Some u))
  = Captured (Some u).
Proof.
  induction events as [|e events IH]; [reflexivity|].
  unfold observe in *. simpl. now rewrite first_match_full.
Qed.

Lemma observe_empty events :
  ajax_url (observe (first_match qualifies) events (Captured None))
  = earliest_match qualifies events.
Proof.
  induction events as [|e events IH]; [reflexivity|].
  unfold observe, earliest_match in *. simpl.
  unfold first_match at 2. simpl.
  destruct (qualifies e); simpl.
  - fold (observe (first_match qualifies) events (Captured (Some e))).
    now rewrite observe_full.
  - exact IH.
Qed.

Lemma earliest_match_is_earliest events :
  is_earliest qualifies events (earliest_match qualifies events).
Proof.
  unfold earliest_match.
  induction events as [|e events IH]; simpl; [constructor|].
  destruct (qualifies e) eqn:He.
  - exists [], events. repeat split; [exact He | constructor].
  - destruct (List.find qualifies events) as [u|]; simpl in *.
    + destruct IH as (pre & post & -> & Hu & Hpre).
      exists (e :: pre), post. repeat split; [exact Hu|].
      now constructor.
    + now constructor.
Qed.

Lemma earliest_match_qualifies events u :
  earliest_match qualifies events = Some u -> qualifies u = true.
Proof.
  intros Hf. pose proof (earliest_match_is_earliest events) as He.
  rewrite Hf in He. now destruct He as (? & ? & _ & Hq & _).
Qed.
End FirstMatch.

(** C2: processed in order by the request observer of the daily electric
    script or of the bill history script, a slot that starts empty ends up
    holding the earliest event that satisfies the capture predicate (none
    when no event does), and a slot that holds an event is left as it is
    by every later sequence of events. *)
Theorem first_match_retains_earliest :
  (forall events : list string,
     is_earliest ElecDaily.qualifies events
       (ajax_url (observe ElecDaily.on_request events captured_init)))
  /\ (forall events : list string,
     is_earliest BillHistory.qualifies events
       (ajax_url (observe BillHistory.on_request events captured_init)))
  /\ (forall (u : string) (events : list string),
     observe ElecDaily.on_request events (Captured (Some u))
     = Captured (Some u))
  /\ (forall (u : string) (events : list string),
     observe BillHistory.on_request events (Captured (Some u))
     = Captured (Some u)).
Proof.
  repeat split; intros.
  - change ElecDaily.on_request with (first_match ElecDaily.qualifies).
    unfold captured_init. rewrite observe_empty.
    apply earliest_match_is_earliest.
  - change BillHistory.on_request with (first_match BillHistory.qualifies).
    unfold captured_init. rewrite observe_empty.
    apply earliest_match_is_earliest.
  - apply (observe_full ElecDaily.qualifies).
  - apply (observe_full BillHistory.qualifies).
Qed.

(** ** The two-phase capture of the gas script *)

Lemma gas_qualifies_truthy u :
  GasMonthly.qualifies u = true -> Str.truthy u = true.
Proof.
  unfold GasMonthly.qualifies. apply contains_nonempty. reflexivity.
Qed.

(** C1, as stated, fails: when the later phase sends two qualifying
    requests the script keeps the first of them, not the latest. *)
Lemma supersede_keeps_first_not_latest :
  let daily :=
    "https://myenergy.xcelenergy.com/myenergy/usage-history-ajax/format/json?timePeriod=DAILY" in
  let monthly :=
    "https://myenergy.xcelenergy.com/myenergy/usage-history-ajax/format/json?timePeriod=MONTHLY" in
  latest_match GasMonthly.qualifies [daily; monthly] = Some monthly
  /\ GasMonthly.capture_ajax_url [] [] [daily; monthly] = Some daily
  /\ GasMonthly.capture_ajax_url [] [] [daily; monthly]
     <> latest_match GasMonthly.qualifies [daily; monthly].
Proof.
  repeat split; vm_compute; congruence.
Qed.

(** C1, amended: the retained event is the earliest qualifying event sent
    after the later phase was activated if there is one, and otherwise the
    event retained from the earlier phase, which is the earliest qualifying
    event of that phase; events sent before the earlier phase play no
    part. *)
Theorem supersede_prefers_later_phase :
  forall before meter monthly : list string,
    GasMonthly.capture_ajax_url before meter monthly
    = match earliest_match GasMonthly.qualifies monthly with
      | Some u => Some u
      | None => earliest_match GasMonthly.qualifies meter
      end.
Proof.
  intros before meter monthly. unfold GasMonthly.capture_ajax_url, reset.
  change GasMonthly.on_request with (first_match GasMonthly.qualifies).
  rewrite !observe_empty.
  destruct (earliest_match GasMonthly.qualifies monthly) as [u|] eqn:Hm;
    simpl; [|reflexivity].
  apply earliest_match_qualifies, gas_qualifies_truthy in Hm.
  now rewrite Hm.
Qed.

(** ** Dicts *)

Section DictProofs.
Context {V : Type}.
Implicit Types (d : Dict.t V) (k : string) (v : V).

Lemma dict_get_set d k v k' :
  Dict.get (Dict.set d k v) k'
  = if String.eqb k k' then Some v else Dict.get d k'.
Proof.
  induction d as [|[k0 v0] d IH]; simpl.
  - reflexivity.
  - destruct (String.eqb_spec k0 k) as [->|Hk0]; simpl.
    + destruct (String.eqb k k'); reflexivity.
    + destruct (String.eqb_spec k0 k') as [->|Hk0'].
      * destruct (String.eqb_spec k k') as [->|_]; [congruence|reflexivity].
      * exact IH.
Qed.

Lemma dict_get_set_eq d k v : Dict.get (Dict.set d k v) k = Some v.
Proof. now rewrite dict_get_set, String.eqb_refl. Qed.

Lemma dict_get_set_ne d k v k' :
  k <> k' -> Dict.get (Dict.set d k v) k' = Dict.get d k'.
Proof.
  intros Hne. rewrite dict_get_set.
  now destruct (String.eqb_spec k k').
Qed.

Lemma dict_keys_set d k v :
  Dict.keys (Dict.set d k v)
  = match Dict.get d k with
    | Some _ => Dict.keys d
    | None => Dict.keys d ++ [k]
    end.
Proof.
  unfold Dict.keys. induction d as [|[k0 v0] d IH]; simpl; [reflexivity|].
  destruct (String.eqb_spec k0 k) as [->|Hk0]; simpl; [reflexivity|].
  rewrite IH. now destruct (Dict.get d k).
Qed.

Lemma dict_get_None d k : Dict.get d k = None <-> k ∉ Dict.keys d.
Proof.
  unfold Dict.keys. induction d as [|[k0 v0] d IH]; simpl.
  - split; [intros _; apply not_elem_of_nil | reflexivity].
  - rewrite not_elem_of_cons.
    destruct (String.eqb_spec k0 k) as [->|Hk0]; split.
    + discriminate.
    + intros [? _]; congruence.
    + intros Hg. split; [congruence | now apply IH].
    + intros [_ Hn]. now apply IH.
Qed.

Lemma dict_set_NoDup d k v :
  NoDup (Dict.keys d) -> NoDup (Dict.keys (Dict.set d k v)).
Proof.
  intros Hnd. rewrite dict_keys_set.
  destruct (Dict.get d k) eqn:Hg; [exact Hnd|].
  apply NoDup_app. split; [exact Hnd|]. split.
  - intros x Hx Hx'. apply list_elem_of_singleton in Hx'. subst x.
    now apply dict_get_None in Hg.
  - apply NoDup_singleton.
Qed.
End DictProofs.

(** ** Interval normalisation *)

Section IntervalProofs.
Context {R : Type}.
Variable reformat : string -> option string.

Abbreviation row := (OnDemand.row R).
Abbreviation unix_ms := (@OnDemand.unix_ms R).
Abbreviation insert_row := (@OnDemand.insert_row R).
Abbreviation sort_rows := (@OnDemand.sort_rows R).

Lemma insert_row_perm (x : row) l : insert_row x l ≡ₚ x :: l.
Proof.
  induction l as [|y l IH]; simpl; [reflexivity|].
  destruct (unix_ms x <=? unix_ms y)%Z; [reflexivity|].
  rewrite IH. apply Permutation_swap.
Qed.

Lemma sort_rows_perm (l : list row) : sort_rows l ≡ₚ l.
Proof.
  induction l as [|x l IH]; simpl; [reflexivity|].
  rewrite insert_row_perm. now rewrite IH.
Qed.

Lemma insert_row_ascending (x : row) l :
  ascending l -> ascending (insert_row x l).
Proof.
  unfold ascending. induction 1 as [|y l Hl IH Hy]; simpl.
  - repeat constructor.
  - destruct (unix_ms x <=? unix_ms y)%Z eqn:Hxy.
    + apply Z.leb_le in Hxy. constructor; [now constructor|].
      constructor; [exact Hxy|].
      eapply Forall_impl; [exact Hy|]. simpl. intros; lia.
    + apply Z.leb_gt in Hxy. constructor; [exact IH|].
      rewrite insert_row_perm. constructor; [lia | exact Hy].
Qed.

Lemma sort_rows_ascending (l : list row) : ascending (sort_rows l).
Proof.
  induction l as [|x l IH]; simpl; [constructor|].
  now apply insert_row_ascending.
Qed.

(** Rows of equal epoch keep the order they had. *)
Lemma insert_row_stable (x : row) l k :
  List.filter (fun r => unix_ms r =? k)%Z (insert_row x l)
  = List.filter (fun r => unix_ms r =? k)%Z (x :: l).
Proof.
  induction l as [|y l IH]; [reflexivity|].
  cbn [OnDemand.insert_row].
  destruct (unix_ms x <=? unix_ms y)%Z eqn:Hxy; [reflexivity|].
  apply Z.leb_gt in Hxy.
  cbn [List.filter] in *. rewrite IH.
  destruct (unix_ms x =? k)%Z eqn:Hx; [|reflexivity].
  apply Z.eqb_eq in Hx.
  destruct (unix_ms y =? k)%Z eqn:Hy; [|reflexivity].
  apply Z.eqb_eq in Hy. lia.
Qed.

Lemma sort_rows_stable (l : list row) k :
  List.filter (fun r => unix_ms r =? k)%Z (sort_rows l)
  = List.filter (fun r => unix_ms r =? k)%Z l.
Proof.
  induction l as [|x l IH]; [reflexivity|].
  cbn [OnDemand.sort_rows foldr]. rewrite insert_row_stable.
  cbn [List.filter]. fold (sort_rows l). now rewrite IH.
Qed.

Lemma interval_rows_row_of (iv : OnDemand.interval R) :
  OnDemand.interval_rows reformat iv = option_list (row_of reformat iv).
Proof.
  unfold OnDemand.interval_rows, row_of, OnDemand.parse_interval_datetime.
  destruct iv as [[| |ts] [| |u] [| |k] rl]; simpl; try reflexivity.
  all: try (destruct rl; reflexivity).
  destruct (Str.truthy ts); reflexivity.
Qed.

Lemma loop_rows_omap (ivs : list (OnDemand.interval R)) :
  flat_map (OnDemand.interval_rows reformat) ivs
  = omap (row_of reformat) ivs.
Proof.
  induction ivs as [|iv ivs IH]; [reflexivity|].
  simpl. rewrite IH, interval_rows_row_of.
  now destruct (row_of reformat iv).
Qed.

Lemma row_of_None (iv : OnDemand.interval R) :
  row_of reformat iv = None <-> lacks_field iv.
Proof.
  unfold row_of, lacks_field.
  destruct iv as [ts u k rl]; simpl. split.
  - destruct ts as [| |ts]; [left; discriminate | left; discriminate |].
    destruct u as [| |u];
      [right; left; discriminate | right; left; discriminate |].
    destruct k as [| |k];
      [right; right; discriminate | right; right; discriminate |].
    destruct ts; [|discriminate].
    intros _. left. now intros ? [= <-].
  - intros [Hts | [Hu | Hk]].
    + destruct ts as [| |ts]; try reflexivity.
      rewrite (Hts ts eq_refl). now destruct u, k.
    + destruct ts, u as [| |u]; try reflexivity. now destruct (Hu u).
    + destruct ts, u, k as [| |k]; try reflexivity. now destruct (Hk k).
Qed.
End IntervalProofs.

(** C4, as stated, fails: two well-formed readings with the same epoch
    are both retained, so the output is not strictly ascending. *)
Lemma equal_epochs_not_strictly_ascending :
  let reading (ts : string) : OnDemand.interval num :=
    OnDemand.Interval (OnDemand.Value ts) (OnDemand.Value 1772119800%Z)
      (OnDemand.Value (Float (1 # 4))) (OnDemand.Value "off-peak") in
  let rows :=
    OnDemand.sorted_rows Datetime.mdY_IMp_to_iso
      [reading "2/26/2026 8:30 AM"; reading "2/26/2026 8:30 AM"] in
  length rows = 2 /\ ~ strictly_ascending rows.
Proof.
  split; [reflexivity|].
  intros Hs. unfold strictly_ascending in Hs.
  apply StronglySorted_inv in Hs as [_ Hall].
  apply Forall_inv in Hall. vm_compute in Hall. discriminate.
Qed.

(** C4, amended: for every list of interval items in any order, the
    records of [intervals_to_csv] are in ascending order of epoch, records
    of equal epoch in the order of their items; they are the records of
    the items that have a non-empty timestamp text, an epoch and an amount,
    each of them once, and an item is excluded exactly when it lacks one of
    the three; the file holds the header and these records, and their
    number is returned. *)
Theorem intervals_sorted_and_complete :
  forall (R : Type) (reformat : string -> option string)
         (intervals : list (OnDemand.interval R)),
    let rows := OnDemand.sorted_rows reformat intervals in
    ascending rows
    /\ rows ≡ₚ omap (row_of reformat) intervals
    /\ (forall k : Z,
          List.filter (fun r => OnDemand.unix_ms r =? k)%Z rows
          = List.filter (fun r => OnDemand.unix_ms r =? k)%Z
              (omap (row_of reformat) intervals))
    /\ (forall iv : OnDemand.interval R,
          row_of reformat iv = None <-> lacks_field iv)
    /\ (forall (output_path : string) (fs : gmap string (csv_file R)),
          OnDemand.intervals_to_csv reformat intervals output_path fs
          = (length rows,
             <[output_path := OnDemand.interval_header
                              :: map OnDemand.row_cells rows]> fs)).
Proof.
  intros R reformat intervals rows. subst rows.
  unfold OnDemand.sorted_rows. rewrite loop_rows_omap.
  split; [apply sort_rows_ascending|].
  split; [apply sort_rows_perm|].
  split; [intros k; apply sort_rows_stable|].
  split; [apply row_of_None|].
  intros output_path fs. unfold OnDemand.intervals_to_csv, OnDemand.sorted_rows.
  now rewrite loop_rows_omap.
Qed.

(** ** Series normalisation *)

Section SeriesProofs.
Context {R : Type} `{Number R}.

Lemma or_float0_at (vals : list (option R)) i :
  or_float0 (at_or_float0 vals i) = value_or float0 (vals !! i).
Proof.
  unfold or_float0, at_or_float0, value_or.
  destruct (vals !! i) as [[x|]|]; try reflexivity.
  now destruct (nonzero float0).
Qed.

Lemma or_int0_at (vals : list (option R)) i :
  or_int0 (at_or_float0 vals i) = value_or int0 (vals !! i).
Proof.
  unfold or_int0, at_or_float0, value_or.
  destruct (vals !! i) as [[x|]|]; try reflexivity.
  now rewrite nonzero_float0.
Qed.

Lemma truth_at_false (vals : list (option R)) i :
  truth (at_or_float0 vals i) = false <-> zero_or_absent (vals !! i).
Proof.
  unfold truth, at_or_float0, zero_or_absent.
  destruct (vals !! i) as [[x|]|]; simpl; try tauto.
  split; [tauto | intros _; apply nonzero_float0].
Qed.

Lemma value_or_zero (zero : R) entry :
  zero_or_absent entry -> value_or zero entry = zero.
Proof.
  unfold zero_or_absent, value_or.
  destruct entry as [[x|]|]; try reflexivity. now intros ->.
Qed.

(** A sum of one or more [0.0] is [0.0]. *)
Lemma py_sum_float0 (xs : list R) :
  xs <> [] -> Forall (fun x => x = float0) xs -> py_sum xs = float0.
Proof.
  unfold py_sum. destruct xs as [|x xs]; [congruence|].
  intros _ Hall. apply Forall_cons in Hall as [-> Hall]. simpl.
  rewrite add_int0_float0.
  induction Hall as [|y ys -> _ IH]; simpl; [reflexivity|].
  now rewrite add_float0_float0.
Qed.

(** *** The chart loop *)

Lemma chart_rows_app (ss : list (series R)) i a b :
  Chart.chart_rows ss i (a ++ b)
  = Chart.chart_rows ss i a ++ Chart.chart_rows ss (i + length a) b.
Proof.
  revert i. induction a as [|x a IH]; intros i; simpl.
  - now rewrite Nat.add_0_r.
  - rewrite IH. do 3 f_equal. lia.
Qed.


Lemma chart_rows_lookup (ss : list (series R)) i dates k :
  Chart.chart_rows ss i dates !! k
  = Chart.chart_row ss (i + k) <$> dates !! k.
Proof.
  revert i k. induction dates as [|x a IH]; intros i [|k]; simpl;
    try reflexivity.
  - now rewrite Nat.add_0_r.
  - rewrite IH. do 2 f_equal. lia.
Qed.

Lemma chart_total_spec (ss : list (series R)) i :
  Chart.chart_total (Chart.chart_vals ss i)
  = round_nd (py_sum (map (fun s => value_or float0 (data s !! i)) ss)) 3.
Proof.
  unfold Chart.chart_total, Chart.chart_vals. rewrite map_map.
  do 2 f_equal. apply map_ext. intros s. apply or_float0_at.
Qed.

Lemma chart_total_zero (ss : list (series R)) i :
  ss <> [] ->
  Forall (fun s => zero_or_absent (data s !! i)) ss ->
  Chart.chart_total (Chart.chart_vals ss i) = float0.
Proof.
  intros Hne Hall. rewrite chart_total_spec, py_sum_float0.
  - apply round_float0.
  - now destruct ss.
  - apply Forall_map. eapply Forall_impl; [exact Hall|].
    intros s. apply value_or_zero.
Qed.

Lemma json_to_csv_writes (dates : list string) (ss : list (series R))
    output_path fs :
  dates <> [] -> ss <> [] ->
  Chart.json_to_csv (Chart.Chart (Some dates) (Some ss)) output_path fs
  = (length dates,
     <[output_path := Chart.chart_header ss
         :: Chart.chart_rows ss 0 (map Chart.first_word dates)]> fs).
Proof.
  intros Hd Hs. unfold Chart.json_to_csv. simpl.
  rewrite !bool_decide_eq_false_2; simpl.
  - now rewrite length_map.
  - exact Hs.
  - now destruct dates.
Qed.

(** *** The bill loop *)

Section Bill.
Variable to_iso : string -> option string.
Variables elec_vals gas_vals : list (option R).

Abbreviation bill_row := (BillHistory.bill_row to_iso elec_vals gas_vals).
Abbreviation bill_rows := (BillHistory.bill_rows to_iso elec_vals gas_vals).

Lemma bill_rows_app i a b :
  bill_rows i (a ++ b) = bill_rows i a ++ bill_rows (i + length a) b.
Proof.
  revert i. induction a as [|x a IH]; intros i; simpl.
  - now rewrite Nat.add_0_r.
  - rewrite IH, <- app_assoc. do 3 f_equal. lia.
Qed.

Lemma bill_row_spec i raw_date :
  bill_row i raw_date
  = if truth (at_or_float0 elec_vals i) || truth (at_or_float0 gas_vals i)
    then [[Text (default raw_date (to_iso raw_date));
           Num (value_or float0 (elec_vals !! i));
           Num (value_or float0 (gas_vals !! i));
           Num (round_nd (add (value_or int0 (elec_vals !! i))
                                  (value_or int0 (gas_vals !! i))) 2)]]
    else [].
Proof.
  unfold BillHistory.bill_row. now rewrite !or_float0_at, !or_int0_at.
Qed.

Lemma bill_row_dropped i raw_date :
  zero_or_absent (elec_vals !! i) -> zero_or_absent (gas_vals !! i) ->
  bill_row i raw_date = [].
Proof.
  intros He Hg. rewrite bill_row_spec.
  apply truth_at_false in He, Hg. now rewrite He, Hg.
Qed.

Lemma bill_rows_elem i cats row :
  row ∈ bill_rows i cats ->
  exists k raw_date,
    cats !! k = Some raw_date /\ row ∈ bill_row (i + k) raw_date.
Proof.
  revert i. induction cats as [|c cats IH]; intros i; simpl.
  - intros Hin. now apply elem_of_nil in Hin.
  - intros Hin. apply elem_of_app in Hin as [Hin|Hin].
    + exists 0, c. now rewrite Nat.add_0_r.
    + apply IH in Hin as (k & raw & Hk & Hrow).
      exists (S k), raw. split; [exact Hk|].
      now replace (i + S k) with (S i + k) by lia.
Qed.
End Bill.

Lemma bill_rows_length_labels to_iso to_iso'
    (elec_vals gas_vals : list (option R)) i cats cats' :
  length cats = length cats' ->
  length (BillHistory.bill_rows to_iso elec_vals gas_vals i cats)
  = length (BillHistory.bill_rows to_iso' elec_vals gas_vals i cats').
Proof.
  revert i cats'. induction cats as [|c cats IH]; intros i [|c' cats'];
    simpl; try discriminate; [reflexivity|].
  intros [= Hlen]. rewrite !length_app, (IH (S i) cats' Hlen).
  f_equal. rewrite !bill_row_spec.
  now destruct (truth _ || truth _).
Qed.

Lemma by_name_of_get (ss : list (series R)) n vals :
  Dict.get (BillHistory.by_name_of ss) n = Some vals ->
  exists s, s ∈ ss /\ name s = n /\ data s = vals.
Proof.
  unfold BillHistory.by_name_of.
  assert (Hgen : forall d,
    Dict.get (foldl (fun d s => Dict.set d (name s) (data s)) d ss) n
      = Some vals ->
    Dict.get d n = Some vals
    \/ exists s, s ∈ ss /\ name s = n /\ data s = vals).
  { induction ss as [|s ss IH]; intros d; simpl; [now left|].
    intros Hget. apply IH in Hget as [Hget|(s' & Hin & Hn & Hd)].
    - rewrite dict_get_set in Hget.
      destruct (String.eqb_spec (name s) n) as [Hn|_].
      + right. exists s. split; [left|]. split; congruence.
      + now left.
    - right. exists s'. split; [now right|]. now split. }
  intros Hget. apply Hgen in Hget as [Hget|Hget]; [discriminate|exact Hget].
Qed.

Lemma bill_json_to_csv_writes to_iso (cats : list string)
    (ss : list (series R)) output_path fs :
  cats <> [] -> ss <> [] ->
  let by_name := BillHistory.by_name_of ss in
  let rows :=
    BillHistory.bill_rows to_iso
      (BillHistory.get_or_zeros by_name "Electric Charges" cats)
      (BillHistory.get_or_zeros by_name "Gas Charges" cats) 0 cats in
  BillHistory.bill_json_to_csv to_iso
    (BillHistory.Bill (Some (BillHistory.Barchart (Some cats) (Some ss))))
    output_path fs
  = (length rows, <[output_path := BillHistory.bill_header :: rows]> fs).
Proof.
  intros Hc Hs. unfold BillHistory.bill_json_to_csv. simpl.
  rewrite !bool_decide_eq_false_2; [reflexivity | exact Hs | exact Hc].
Qed.

(** The values the bill loop reads for a series name are zero or absent
    at an index when every series of that name is. *)
Lemma get_or_zeros_zero_or_absent (ss : list (series R)) n cats i :
  Forall (fun s => name s = n -> zero_or_absent (data s !! i)) ss ->
  zero_or_absent
    (BillHistory.get_or_zeros (BillHistory.by_name_of ss) n cats !! i).
Proof.
  intros Hall. unfold BillHistory.get_or_zeros.
  destruct (Dict.get (BillHistory.by_name_of ss) n) as [vals|] eqn:Hget;
    simpl.
  - apply by_name_of_get in Hget as (s & Hin & Hn & <-).
    rewrite Forall_forall in Hall. now apply Hall.
  - destruct (replicate (length cats) (Some float0) !! i) as [v|] eqn:Hr;
      [|exact I].
    apply lookup_replicate in Hr as [-> _]. apply nonzero_float0.
Qed.
End SeriesProofs.

(** ** Totals *)

(** C5, as stated, fails: the cost chart is currency data, and the chart
    scripts round its totals to three decimals, not two.  A day that cost
    1.234 is written with the total 1.234, where two decimals give 1.23. *)
Lemma cost_chart_total_has_three_decimals :
  let day := "2024-01-02 00:00:00" in
  let kwh := Chart.Chart (Some [day])
               (Some [Series "On Peak" [Some (Float (5 # 2))]]) in
  let cost := Chart.Chart (Some [day])
                (Some [Series "On Peak" [Some (Float (617 # 500))]]) in
  let server (n : nat) (url : string) :=
    Response 200 (Some (if Nat.eqb n 0 then kwh else cost)) in
  let url :=
    "https://myenergy.xcelenergy.com/myenergy/usage-history-ajax/format/json?usageType=Q&timePeriod=DAILY" in
  let end_world := snd (ElecDaily.download server url "2024-01-03" (World [] ∅)) in
  files end_world !! ElecDaily.cost_file "2024-01-03"
  = Some [[Text "Date"; Text "On Peak"; Text "Total"];
          [Text "2024-01-02"; Num (Float (617 # 500));
           Num (Float (617 # 500))]]
  /\ round_nd (py_sum [Float (617 # 500)]) 2 = Float (123 # 100)
  /\ Float (617 # 500) <> Float (123 # 100).
Proof.
  split; [vm_compute; reflexivity|].
  split; [vm_compute; reflexivity | discriminate].
Qed.

(** C5, amended: the total of every record is the sum of its series
    values, a missing, null or zero entry counting as zero, rounded to
    three decimals by the chart normaliser [json_to_csv], which writes
    the energy and the cost charts alike, and to two decimals by the bill
    normaliser [bill_json_to_csv], which adds the electric and the gas
    charge. *)
Theorem totals_are_rounded_sums :
  forall (R : Type) (HR : Number R),
    (forall (ss : list (series R)) (dates : list string) (k : nat)
            (record : list (cell R)),
       Chart.chart_rows ss 0 dates !! k = Some record ->
       total_cell record
       = Some (Num
           (round_nd
              (py_sum (map (fun s => value_or float0 (data s !! k)) ss)) 3)))
    /\ (forall (to_iso : string -> option string)
               (elec_vals gas_vals : list (option R)) (cats : list string)
               (record : list (cell R)),
       record ∈ BillHistory.bill_rows to_iso elec_vals gas_vals 0 cats ->
       exists (k : nat) (raw_date : string),
         cats !! k = Some raw_date
         /\ record
            = [Text (default raw_date (to_iso raw_date));
               Num (value_or float0 (elec_vals !! k));
               Num (value_or float0 (gas_vals !! k));
               Num (round_nd (add (value_or int0 (elec_vals !! k))
                                      (value_or int0 (gas_vals !! k))) 2)]).
Proof.
  intros R HR. split.
  - intros ss dates k record Hk.
    rewrite chart_rows_lookup in Hk. simpl in Hk.
    destruct (dates !! k) as [date|]; [|discriminate].
    injection Hk as <-. unfold total_cell, Chart.chart_row.
    rewrite app_assoc, last_snoc. now rewrite chart_total_spec.
  - intros to_iso elec_vals gas_vals cats record Hin.
    apply bill_rows_elem in Hin as (k & raw & Hk & Hin). simpl in Hin.
    exists k, raw. split; [exact Hk|].
    rewrite bill_row_spec in Hin.
    destruct (truth _ || truth _).
    + now apply list_elem_of_singleton in Hin.
    + now apply elem_of_nil in Hin.
Qed.

Lemma totals_are_rounded_sums_witness :
  let ss := [Series "On Peak" [Some (Float (5 # 2)); None];
             Series "Off Peak" [Some (Float (1 # 4))]] in
  let record := [Text "2024-01-03"; Blank; Num (Float 0);
                 Num (Float 0)] in
  let bill_record := [Text "2024-01-02"; Num (Float (5 # 2));
                      Num (Float 0); Num (Float (5 # 2))] in
  (Chart.chart_rows ss 0 ["2024-01-02"; "2024-01-03"] !! 1 = Some record
   /\ total_cell record = Some (Num (Float 0)))
  /\ (bill_record
        ∈ BillHistory.bill_rows Datetime.mdY_to_iso
            [Some (Float (5 # 2))] [None] 0 ["01/02/2024"]
      /\ exists (k : nat) (raw_date : string),
           ["01/02/2024"] !! k = Some raw_date
           /\ bill_record
              = [Text (default raw_date (Datetime.mdY_to_iso raw_date));
                 Num (value_or float0 ([Some (Float (5 # 2))] !! k));
                 Num (value_or float0 ([@None num] !! k));
                 Num (round_nd
                   (add (value_or int0 ([Some (Float (5 # 2))] !! k))
                        (value_or int0 ([@None num] !! k))) 2)]).
Proof.
  intros ss record bill_record.
  assert (Hchart :
    Chart.chart_rows ss 0 ["2024-01-02"; "2024-01-03"] !! 1 = Some record)
    by reflexivity.
  assert (Hbill : bill_record
        ∈ BillHistory.bill_rows Datetime.mdY_to_iso
            [Some (Float (5 # 2))] [None] 0 ["01/02/2024"])
    by (vm_compute; left).
  split; split; [exact Hchart | | exact Hbill |].
  - exact (proj1 (totals_are_rounded_sums num num_Number)
             ss ["2024-01-02"; "2024-01-03"] 1 record Hchart).
  - exact (proj2 (totals_are_rounded_sums num num_Number)
             Datetime.mdY_to_iso [Some (Float (5 # 2))] [None]
             ["01/02/2024"] bill_record Hbill).
Defined.

(** ** The drop policy *)

(** C6: take a category at which every configured series value is zero,
    null or absent.  The bill normaliser, which drops such records, writes
    exactly the records of the categories before it followed by those of
    the categories after it; the chart normaliser, which does not, writes
    between the two the record of that category, with the total 0.0. *)
Theorem zero_record_dropped_by_bill_kept_by_chart :
  forall (R : Type) (HR : Number R),
    (forall (to_iso : string -> option string)
            (before : list string) (raw_date : string) (after : list string)
            (ss : list (series R)) (output_path : string)
            (fs : gmap string (csv_file R)),
       ss <> [] ->
       Forall (fun s => name s = "Electric Charges" \/ name s = "Gas Charges"
                        -> zero_or_absent (data s !! length before)) ss ->
       let cats := before ++ raw_date :: after in
       let by_name := BillHistory.by_name_of ss in
       let elec_vals :=
         BillHistory.get_or_zeros by_name "Electric Charges" cats in
       let gas_vals := BillHistory.get_or_zeros by_name "Gas Charges" cats in
       let rows :=
         BillHistory.bill_rows to_iso elec_vals gas_vals 0 before
         ++ BillHistory.bill_rows to_iso elec_vals gas_vals
              (S (length before)) after in
       BillHistory.bill_json_to_csv to_iso
         (BillHistory.Bill
            (Some (BillHistory.Barchart (Some cats) (Some ss))))
         output_path fs
       = (length rows, <[output_path := BillHistory.bill_header :: rows]> fs))
    /\ (forall (before : list string) (date : string) (after : list string)
               (ss : list (series R)) (output_path : string)
               (fs : gmap string (csv_file R)),
       ss <> [] ->
       Forall (fun s => zero_or_absent (data s !! length before)) ss ->
       let kept :=
         [Text (Chart.first_word date)]
         ++ map cell_of (Chart.chart_vals ss (length before))
         ++ [Num float0] in
       Chart.json_to_csv
         (Chart.Chart (Some (before ++ date :: after)) (Some ss))
         output_path fs
       = (S (length before + length after),
          <[output_path :=
              Chart.chart_header ss
              :: Chart.chart_rows ss 0 (map Chart.first_word before)
              ++ [kept]
              ++ Chart.chart_rows ss (S (length before))
                   (map Chart.first_word after)]> fs)).
Proof.
  intros R HR. split.
  - intros to_iso before raw_date after ss output_path fs Hss Hzero
      cats by_name elec_vals gas_vals rows.
    unfold cats. rewrite bill_json_to_csv_writes;
      [|now destruct before | exact Hss].
    fold cats by_name elec_vals gas_vals.
    assert (Hrows :
      BillHistory.bill_rows to_iso elec_vals gas_vals 0 cats = rows).
    { unfold cats, rows. rewrite bill_rows_app. simpl.
      rewrite bill_row_dropped; [reflexivity | |].
      - apply get_or_zeros_zero_or_absent.
        eapply Forall_impl; [exact Hzero|]. simpl. intros s Hs Hn.
        apply Hs. now left.
      - apply get_or_zeros_zero_or_absent.
        eapply Forall_impl; [exact Hzero|]. simpl. intros s Hs Hn.
        apply Hs. now right. }
    now rewrite Hrows.
  - intros before date after ss output_path fs Hss Hzero kept.
    rewrite json_to_csv_writes; [|now destruct before | exact Hss].
    rewrite length_app. simpl. rewrite Nat.add_succ_r.
    do 3 f_equal. rewrite map_app, chart_rows_app. simpl.
    rewrite length_map. f_equal. f_equal.
    unfold Chart.chart_row, kept.
    now rewrite chart_total_zero.
Qed.

Lemma zero_record_dropped_by_bill_kept_by_chart_witness :
  let elec := Series "Electric Charges"
                [Some (Float (5 # 2)); Some (Int 0); Some (Float (7 # 2))] in
  let gas := Series "Gas Charges" [None; None] in
  let other := Series "On Peak" [Some (Float 0); Some (Int 0); None] in
  BillHistory.bill_json_to_csv Datetime.mdY_to_iso
    (BillHistory.Bill (Some (BillHistory.Barchart
       (Some (["01/02/2024"] ++ "01/03/2024" :: ["01/04/2024"]))
       (Some [elec; gas]))))
    "bill.csv" ∅
  = (2, <["bill.csv" :=
          [BillHistory.bill_header;
           [Text "2024-01-02"; Num (Float (5 # 2)); Num (Float 0);
            Num (Float (5 # 2))];
           [Text "2024-01-04"; Num (Float (7 # 2)); Num (Float 0);
            Num (Float (7 # 2))]]]> ∅)
  /\ Chart.json_to_csv
       (Chart.Chart (Some (["2024-01-02 00:00:00"] ++ "2024-01-03 00:00:00"
                           :: ["2024-01-04 00:00:00"]))
                    (Some [elec; other]))
       "chart.csv" ∅
     = (3, <["chart.csv" :=
             [[Text "Date"; Text "Electric Charges"; Text "On Peak";
               Text "Total"];
              [Text "2024-01-02"; Num (Float (5 # 2)); Num (Float 0);
               Num (Float (5 # 2))];
              [Text "2024-01-03"; Num (Int 0); Num (Int 0);
               Num (Float 0)];
              [Text "2024-01-04"; Num (Float (7 # 2)); Blank;
               Num (Float (7 # 2))]]]> ∅).
Proof.
  intros elec gas other. split.
  - apply (proj1 (zero_record_dropped_by_bill_kept_by_chart num num_Number)
             Datetime.mdY_to_iso ["01/02/2024"] "01/03/2024" ["01/04/2024"]
             [elec; gas] "bill.csv" ∅).
    + discriminate.
    + repeat constructor; simpl; intros [?|?]; try reflexivity;
        try discriminate; exact I.
  - apply (proj2 (zero_record_dropped_by_bill_kept_by_chart num num_Number)
             ["2024-01-02 00:00:00"] "2024-01-03 00:00:00"
             ["2024-01-04 00:00:00"] [elec; other] "chart.csv" ∅).
    + discriminate.
    + repeat constructor.
Defined.

(** ** Dates *)

(** C7, as stated, fails on its example.  With the series named [A] the
    bill normaliser, the only one that converts dates, reads no charge at
    all and writes no record; the chart normaliser writes two records but
    leaves the labels as they are. *)
Lemma series_A_yields_no_iso_dates :
  let cats := ["01/02/2024"; "01/03/2024"] in
  let ss := [Series "A" [Some (Int 1); Some (Int 2)]] in
  BillHistory.bill_json_to_csv Datetime.mdY_to_iso
    (BillHistory.Bill (Some (BillHistory.Barchart (Some cats) (Some ss))))
    "out.csv" ∅
  = (0, <["out.csv" := [BillHistory.bill_header]]> ∅)
  /\ Chart.json_to_csv (Chart.Chart (Some cats) (Some ss)) "out.csv" ∅
     = (2, <["out.csv" :=
             [[Text "Date"; Text "A"; Text "Total"];
              [Text "01/02/2024"; Num (Int 1); Num (Int 1)];
              [Text "01/03/2024"; Num (Int 2); Num (Int 2)]]]> ∅).
Proof.
  split; reflexivity.
Qed.

(** ** The output file *)



(** ** Replay *)

(** C8, as stated, fails: 204 lies in the 2xx range, and the download
    step raises on it as on any status other than 200. *)
Lemma fetch_raises_on_204 :
  let payload : Chart.chart num :=
    Chart.Chart (Some ["2024-01-02 00:00:00"])
      (Some [Series "On Peak" [Some (Float (5 # 2))]]) in
  let server (n : nat) (url : string) := Response 204 (Some payload) in
  let url :=
    "https://myenergy.xcelenergy.com/myenergy/usage-history-ajax/format/json?usageType=Q&timePeriod=DAILY" in
  (200 <= 204 < 300)%Z
  /\ fst (fetch (R := num) server "kWh ajax request" url (World [] ∅))
     = Raise (HttpFailed "kWh ajax request" 204).
Proof.
  split; [lia | reflexivity].
Qed.

(** C8, amended: a download step raises the HTTP failure carrying the
    status code exactly when the status is not 200; with status 200 it
    returns the decoded payload, or raises the decoding error when the
    body does not parse; whatever the outcome it sends one request and
    writes no file.  The daily electric script stops at the first failure:
    when its first response is not a 200, the run ends with that failure
    after this one request. *)
Theorem fetch_fails_unless_200 :
  forall (R P : Type) (server : nat -> string -> response P)
         (what url : string) (w : world R),
    let r := server (length (sent w)) url in
    let outcome := fetch server what url w in
    (fst outcome = Raise (HttpFailed what (status_code r))
     <-> status_code r <> 200%Z)
    /\ (status_code r = 200%Z ->
        fst outcome = match json r with
                      | Some d => Return d
                      | None => Raise JSONDecodeError
                      end)
    /\ sent (snd outcome) = sent w ++ [url]
    /\ files (snd outcome) = files w
    /\ (forall (HR : Number R)
               (chart_server : nat -> string -> response (Chart.chart R))
               (today : string) (fs : gmap string (csv_file R)),
        status_code (chart_server 0 url) <> 200%Z ->
        ElecDaily.download chart_server url today (World [] fs)
        = (Raise (HttpFailed "kWh ajax request"
                    (status_code (chart_server 0 url))),
           World [url] fs)).
Proof.
  intros R P server what url w r outcome.
  assert (Hout : outcome
    = if negb (status_code r =? 200)%Z
      then (Raise (HttpFailed what (status_code r)),
            World (sent w ++ [url]) (files w))
      else (match json r with
            | Some d => Return d
            | None => Raise JSONDecodeError
            end, World (sent w ++ [url]) (files w))).
  { unfold outcome, fetch, bind, get. fold r.
    destruct (status_code r =? 200)%Z; simpl; [|reflexivity].
    now destruct (json r). }
  assert (Hrun : forall (HR : Number R)
             (chart_server : nat -> string -> response (Chart.chart R))
             (today : string) (fs : gmap string (csv_file R)),
      status_code (chart_server 0 url) <> 200%Z ->
      ElecDaily.download chart_server url today (World [] fs)
      = (Raise (HttpFailed "kWh ajax request"
                  (status_code (chart_server 0 url))),
         World [url] fs)).
  { intros HR chart_server today fs Hbad.
    unfold ElecDaily.download, fetch, bind, get. simpl.
    apply Z.eqb_neq in Hbad. now rewrite Hbad. }
  rewrite Hout.
  destruct (Z.eqb_spec (status_code r) 200) as [H200|H200]; simpl.
  - split; [|repeat split; auto].
    split; [|tauto]. destruct (json r); discriminate.
  - split; [|repeat split; auto; tauto]. tauto.
Qed.

Lemma fetch_fails_unless_200_witness :
  let payload : Chart.chart num :=
    Chart.Chart (Some ["2024-01-02 00:00:00"])
      (Some [Series "On Peak" [Some (Float (5 # 2))]]) in
  let ok (n : nat) (url : string) := Response 200 (Some payload) in
  let down (n : nat) (url : string) := Response 503 (@None (Chart.chart num)) in
  let url := "https://myenergy.xcelenergy.com/myenergy/usage-history-ajax/format/json?usageType=Q" in
  fst (fetch (R := num) ok "kWh ajax request" url (World [] ∅))
  = Return payload
  /\ ElecDaily.download down url "2024-01-03" (World [] ∅)
     = (Raise (HttpFailed "kWh ajax request" 503), World [url] ∅).
Proof.
  intros payload ok down url. split.
  - apply (proj1 (proj2 (fetch_fails_unless_200 num (Chart.chart num) ok
                           "kWh ajax request" url (World [] ∅)))).
    reflexivity.
  - apply (proj2 (proj2 (proj2 (proj2
             (fetch_fails_unless_200 num (Chart.chart num) down
                "kWh ajax request" url (World [] ∅)))))
             num_Number down "2024-01-03" ∅).
    discriminate.
Defined.

(** ** Money *)

Lemma parse_money_without_money_chars (s : string) :
  Str.filter BillHistory.money_char s = EmptyString ->
  BillHistory.parse_money s = Return 0%Q.
Proof.
  intros Hs. unfold BillHistory.parse_money. now rewrite Hs.
Qed.

(** C9: [parse_money] maps "$1,234.56" to 1234.56, "-12.50" to -12.5 and
    the empty string and "N/A" to 0; but on "-", a text that is not a
    number, it raises [ValueError] where the specification promises 0.0,
    and so it does on "1.2.3". *)
Theorem parse_money_raises_on_lone_minus :
  BillHistory.parse_money "$1,234.56" = Return (Qred 1234.56)
  /\ BillHistory.parse_money "-12.50" = Return (Qred (-12.5))
  /\ BillHistory.parse_money EmptyString = Return 0%Q
  /\ BillHistory.parse_money "N/A" = Return 0%Q
  /\ BillHistory.parse_money "-" = Raise ValueError
  /\ BillHistory.parse_money "1.2.3" = Raise ValueError.
Proof.
  repeat split; vm_compute; reflexivity.
Qed.

(** ** Texts *)

#[local] Arguments String.append _ _ : simpl nomatch.

Section Texts.
Import Str.
Local Open Scope string_scope.

Lemma append_nil_r s : s ++ EmptyString = s.
Proof. induction s as [|c s IH]; simpl; [reflexivity | now rewrite IH]. Qed.

Lemma append_assoc a b c : (a ++ b) ++ c = a ++ b ++ c.
Proof. induction a as [|x a IH]; simpl; [reflexivity | now rewrite IH]. Qed.

Lemma all_chars_app p a b :
  all_chars p (a ++ b) = all_chars p a && all_chars p b.
Proof.
  induction a as [|c a IH]; simpl; [reflexivity|].
  now rewrite IH, andb_assoc.
Qed.

Lemma all_chars_impl (p q : ascii -> bool) s :
  (forall c, p c = true -> q c = true) ->
  all_chars p s = true -> all_chars q s = true.
Proof.
  intros Hpq. induction s as [|c s IH]; simpl; [reflexivity|].
  intros [Hc Hs]%andb_prop. now rewrite (Hpq c Hc), IH.
Qed.

Lemma cut_None sep s : cut sep s = None <-> all_chars (is_not sep) s = true.
Proof.
  unfold is_not. induction s as [|c s IH]; simpl; [tauto|].
  destruct (Ascii.eqb c sep); simpl.
  - split; discriminate.
  - destruct (cut sep s) as [[a b]|]; split; try discriminate.
    + intros Hs. apply IH in Hs. discriminate.
    + intros _. now apply IH.
    + reflexivity.
Qed.

Lemma cut_Some sep s a b :
  cut sep s = Some (a, b) ->
  s = a ++ String sep b /\ all_chars (is_not sep) a = true.
Proof.
  unfold is_not. revert a. induction s as [|c s IH]; intros a; simpl;
    [discriminate|].
  destruct (Ascii.eqb_spec c sep) as [->|Hc].
  - intros [= <- <-]. now split.
  - destruct (cut sep s) as [[a' b']|]; [|discriminate].
    intros [= <- <-]. destruct (IH a' eq_refl) as [-> Ha]. simpl.
    split; [reflexivity|]. rewrite Ha.
    now destruct (Ascii.eqb_spec c sep).
Qed.

Lemma cut_app sep a b :
  all_chars (is_not sep) a = true ->
  cut sep (a ++ String sep b) = Some (a, b).
Proof.
  unfold is_not. induction a as [|c a IH]; simpl.
  - now rewrite Ascii.eqb_refl.
  - intros [Hc Ha]%andb_prop. apply negb_true_iff in Hc.
    now rewrite Hc, IH.
Qed.

Lemma cut_app_None sep a b :
  all_chars (is_not sep) a = true ->
  cut sep (a ++ b) = match cut sep b with
                     | Some (x, y) => Some (a ++ x, y)
                     | None => None
                     end.
Proof.
  unfold is_not. induction a as [|c a IH]; simpl.
  - now destruct (cut sep b) as [[x y]|].
  - intros [Hc Ha]%andb_prop. apply negb_true_iff in Hc.
    rewrite Hc, IH by exact Ha. now destruct (cut sep b) as [[x y]|].
Qed.

Lemma remove_absent a s : all_chars (is_not a) s = true -> remove a s = s.
Proof.
  unfold is_not. induction s as [|c s IH]; simpl; [reflexivity|].
  intros [Hc Hs]%andb_prop. apply negb_true_iff in Hc.
  now rewrite Hc, IH.
Qed.

Lemma all_chars_remove p a s :
  all_chars p s = true -> all_chars p (remove a s) = true.
Proof.
  induction s as [|c s IH]; simpl; [reflexivity|].
  intros [Hc Hs]%andb_prop.
  destruct (Ascii.eqb c a); simpl; [now apply IH|].
  now rewrite Hc, IH.
Qed.

Lemma remove_removes a s : all_chars (is_not a) (remove a s) = true.
Proof.
  unfold is_not. induction s as [|c s IH]; simpl; [reflexivity|].
  destruct (Ascii.eqb c a) eqn:Hc; simpl; [exact IH|].
  now rewrite Hc, IH.
Qed.

Lemma split_absent sep s :
  all_chars (is_not sep) s = true -> split sep s = [s].
Proof.
  unfold is_not. induction s as [|c s IH]; simpl; [reflexivity|].
  intros [Hc Hs]%andb_prop. apply negb_true_iff in Hc.
  now rewrite Hc, IH.
Qed.

Lemma split_app sep a b :
  all_chars (is_not sep) a = true ->
  split sep (a ++ String sep b) = a :: split sep b.
Proof.
  unfold is_not. induction a as [|c a IH]; simpl.
  - now rewrite Ascii.eqb_refl.
  - intros [Hc Ha]%andb_prop. apply negb_true_iff in Hc.
    now rewrite Hc, IH.
Qed.

Lemma split_join sep fields :
  fields <> [] ->
  Forall (fun f => all_chars (is_not sep) f = true) fields ->
  split sep (join (String sep EmptyString) fields) = fields.
Proof.
  intros Hne Hall. induction Hall as [|f fs Hf Hfs IH]; [congruence|].
  destruct fs as [|g fs].
  - simpl. now apply split_absent.
  - change (join (String sep EmptyString) (f :: g :: fs))
      with (f ++ String sep (join (String sep EmptyString) (g :: fs))).
    rewrite split_app by exact Hf. f_equal. now apply IH.
Qed.

Lemma all_chars_join p sep fields :
  all_chars p sep = true ->
  Forall (fun f => all_chars p f = true) fields ->
  all_chars p (join sep fields) = true.
Proof.
  intros Hsep Hall. induction Hall as [|f fs Hf Hfs IH]; [reflexivity|].
  destruct fs as [|g fs]; [exact Hf|].
  change (join sep (f :: g :: fs)) with (f ++ sep ++ join sep (g :: fs)).
  now rewrite !all_chars_app, Hf, Hsep, IH.
Qed.
End Texts.

(** ** Quoting and unquoting *)

Section Quoting.
Import Str Urllib.
Local Open Scope string_scope.

Lemma quoted_char_facts c :
  quoted_char c = true ->
  is_not "=" c = true /\ is_not "&" c = true /\ ascii7 c = true.
Proof.
  destruct c as [[] [] [] [] [] [] [] []]; vm_compute; intros Hc;
    try discriminate; repeat split.
Qed.

Lemma query_char_facts c :
  query_char c = true ->
  is_not "#" c = true /\ is_not "?" c = true
  /\ is_not (chr 9) c = true /\ is_not (chr 10) c = true
  /\ is_not (chr 13) c = true.
Proof.
  destruct c as [[] [] [] [] [] [] [] []]; vm_compute; intros Hc;
    try discriminate; repeat split.
Qed.

Lemma quote_plus_cons c s :
  quote_plus (String c s) = quote_plus (String c EmptyString) ++ quote_plus s.
Proof.
  cbn [quote_plus]. destruct (always_safe c); [reflexivity|].
  destruct (Ascii.eqb c " "); reflexivity.
Qed.

Lemma quote_plus_chars s : all_chars quoted_char (quote_plus s) = true.
Proof.
  induction s as [|c s IH]; [reflexivity|].
  rewrite quote_plus_cons, all_chars_app, IH, andb_true_r.
  destruct c as [[] [] [] [] [] [] [] []]; vm_compute; reflexivity.
Qed.

Lemma replace_app a b x y :
  replace a b (x ++ y) = replace a b x ++ replace a b y.
Proof.
  induction x as [|c x IH]; [reflexivity|]. cbn. now rewrite IH.
Qed.

(** One character, quoted and with [+] read as a space, is the character
    itself or its escape. *)
Lemma quote_plus_char c :
  (replace "+" " " (quote_plus (String c EmptyString)) = String c EmptyString
   /\ Ascii.eqb c "%" = false)
  \/ (exists h l : ascii,
        replace "+" " " (quote_plus (String c EmptyString))
        = String "%" (String h (String l EmptyString))
        /\ is_hex h && is_hex l = true
        /\ chr (16 * hex_value h + hex_value l) = c).
Proof.
  destruct c as [[] [] [] [] [] [] [] []];
    first [ left; split; vm_compute; reflexivity
          | right; eexists _, _; split; [vm_compute; reflexivity|];
            split; vm_compute; reflexivity ].
Qed.

Lemma unquote_to_bytes_quote_plus s :
  unquote_to_bytes (replace "+" " " (quote_plus s)) = s.
Proof.
  induction s as [|c s IH]; [reflexivity|].
  rewrite quote_plus_cons, replace_app.
  destruct (quote_plus_char c) as [[-> Hc] | (h & l & -> & Hhex & Hval)].
  - cbn [String.append unquote_to_bytes]. now rewrite Hc, IH.
  - cbn [String.append unquote_to_bytes]. cbn [Ascii.eqb Bool.eqb].
    now rewrite Hhex, Hval, IH.
Qed.

Lemma unquote_to_bytes_plain s :
  contains "%" s = false -> unquote_to_bytes s = s.
Proof.
  induction s as [|c s IH]; [reflexivity|].
  cbn [contains starts_with]. intros [Hc Hs]%orb_false_elim.
  rewrite andb_true_r, Ascii.eqb_sym in Hc.
  cbn [unquote_to_bytes]. rewrite Hc. now rewrite IH.
Qed.

Lemma unquote_runs_ascii s run :
  all_chars ascii7 s = true ->
  unquote_runs s run = utf8_replace (unquote_to_bytes (run ++ s)).
Proof.
  unfold ascii7.
  revert run. induction s as [|c s IH]; intros run; cbn [all_chars].
  - intros _. cbn [unquote_runs]. now rewrite append_nil_r.
  - intros [Hc Hs]%andb_prop. cbn [unquote_runs]. rewrite Hc.
    rewrite IH by exact Hs. now rewrite append_assoc.
Qed.

Lemma all_chars_replace p a b s :
  p b = true -> all_chars p s = true -> all_chars p (replace a b s) = true.
Proof.
  intros Hb. induction s as [|c s IH]; [reflexivity|]. cbn.
  intros [Hc Hs]%andb_prop. rewrite (IH Hs).
  destruct (Ascii.eqb c a); now rewrite ?Hb, ?Hc.
Qed.

(** What [parse_qsl] does to a name or a value after [quote_plus] gives
    the text back, when the text is well formed. *)
Lemma unquote_quote_plus s :
  well_formed_text s -> unquote (replace "+" " " (quote_plus s)) = s.
Proof.
  intros Hs. unfold unquote.
  destruct (contains "%" (replace "+" " " (quote_plus s))) eqn:Hpct.
  - rewrite unquote_runs_ascii.
    + cbn [String.append]. now rewrite unquote_to_bytes_quote_plus.
    + apply all_chars_replace; [reflexivity|].
      eapply all_chars_impl; [|apply quote_plus_chars].
      intros c Hc. now apply quoted_char_facts in Hc.
  - apply unquote_to_bytes_plain in Hpct.
    now rewrite unquote_to_bytes_quote_plus in Hpct.
Qed.
End Quoting.

(** ** Encoding a dict and parsing it back *)

Section EncodeParse.
Import Str Urllib.

Lemma quote_plus_no (a : ascii) s :
  (forall c, quoted_char c = true -> is_not a c = true) ->
  all_chars (is_not a) (quote_plus s) = true.
Proof.
  intros Ha. eapply all_chars_impl; [exact Ha | apply quote_plus_chars].
Qed.

Lemma encoded_field_chars (p : ascii -> bool) k v :
  (forall c, quoted_char c = true -> p c = true) -> p "="%char = true ->
  all_chars p (quote_plus k ++ "=" ++ quote_plus v)%string = true.
Proof.
  intros Hq He. rewrite !all_chars_app. cbn [all_chars]. rewrite He.
  now rewrite !(all_chars_impl _ _ _ Hq (quote_plus_chars _)).
Qed.

Lemma parse_field_encoded k v :
  well_formed_text k -> well_formed_text v ->
  parse_field (quote_plus k ++ "=" ++ quote_plus v)%string = [(k, v)].
Proof.
  intros Hk Hv. unfold parse_field.
  assert (Ht : truthy (quote_plus k ++ "=" ++ quote_plus v)%string = true)
    by now destruct (quote_plus k).
  rewrite Ht. cbn [String.append].
  rewrite cut_app.
  - cbn [fst snd]. now rewrite !unquote_quote_plus.
  - apply quote_plus_no. intros c Hc. now apply quoted_char_facts in Hc.
Qed.

Lemma parse_encoded_fields (d : Dict.t (list string)) :
  well_formed_params d ->
  flat_map parse_field (flat_map encode_item d) = pairs_of d.
Proof.
  unfold pairs_of. induction 1 as [|[k vs] d [Hk Hvs] _ IH]; [reflexivity|].
  cbn [flat_map]. rewrite flat_map_app, IH. f_equal.
  unfold encode_item. cbn [fst snd] in *.
  induction Hvs as [|v vs Hv _ IHvs]; [reflexivity|].
  cbn [map flat_map]. now rewrite parse_field_encoded, IHvs.
Qed.

Lemma encoded_fields_chars (p : ascii -> bool) (d : Dict.t (list string)) :
  (forall c, quoted_char c = true -> p c = true) -> p "="%char = true ->
  Forall (fun f => all_chars p f = true) (flat_map encode_item d).
Proof.
  intros Hq He. induction d as [|[k vs] d IH]; [constructor|].
  cbn [flat_map]. apply Forall_app. split; [|exact IH].
  unfold encode_item. cbn [fst snd].
  induction vs as [|v vs IHvs]; constructor; [|exact IHvs].
  now apply encoded_field_chars.
Qed.

Lemma parse_qsl_urlencode (d : Dict.t (list string)) :
  well_formed_params d -> parse_qsl (urlencode d) = pairs_of d.
Proof.
  intros Hd. unfold parse_qsl, urlencode.
  destruct (flat_map encode_item d) as [|f fs] eqn:Hfields.
  - rewrite <- (parse_encoded_fields d Hd), Hfields. reflexivity.
  - rewrite <- Hfields, split_join.
    + now apply parse_encoded_fields.
    + now rewrite Hfields.
    + apply encoded_fields_chars; [|reflexivity].
      intros c Hc. now apply quoted_char_facts in Hc.
Qed.

Lemma urlencode_chars (d : Dict.t (list string)) :
  all_chars query_char (urlencode d) = true.
Proof.
  apply all_chars_join; [reflexivity|].
  apply encoded_fields_chars; [|reflexivity].
  intros c Hc. unfold query_char. now rewrite Hc.
Qed.

(** *** The loop of [parse_qs] rebuilds a dict from its pairs *)

Lemma dict_set_absent {V} (d : Dict.t V) k v :
  Dict.get d k = None -> Dict.set d k v = d ++ [(k, v)].
Proof.
  induction d as [|[k0 v0] d IH]; [reflexivity|]. simpl.
  destruct (String.eqb k0 k); [discriminate|].
  intros Hg. now rewrite IH.
Qed.

Lemma dict_get_last {V} (d : Dict.t V) k v :
  Dict.get d k = None -> Dict.get (d ++ [(k, v)]) k = Some v.
Proof.
  intros Hg. rewrite <- (dict_set_absent d k v Hg). apply dict_get_set_eq.
Qed.

Lemma dict_set_last {V} (d : Dict.t V) k v v' :
  Dict.get d k = None -> Dict.set (d ++ [(k, v)]) k v' = d ++ [(k, v')].
Proof.
  induction d as [|[k0 v0] d IH]; simpl.
  - now rewrite String.eqb_refl.
  - destruct (String.eqb k0 k); [discriminate|].
    intros Hg. now rewrite IH.
Qed.

Lemma dict_get_app_None {V} (d d' : Dict.t V) k :
  Dict.get (d ++ d') k = None <-> Dict.get d k = None /\ Dict.get d' k = None.
Proof.
  induction d as [|[k0 v0] d IH]; simpl; [tauto|].
  destruct (String.eqb k0 k); [|exact IH].
  split; [discriminate | intros [? _]; discriminate].
Qed.

Lemma dict_add_new (acc : Dict.t (list string)) k v :
  Dict.get acc k = None -> dict_add acc (k, v) = acc ++ [(k, [v])].
Proof.
  intros Hacc. unfold dict_add. cbn [fst snd].
  now rewrite Hacc, dict_set_absent.
Qed.

Lemma dict_add_seen (acc : Dict.t (list string)) k seen v :
  Dict.get acc k = None ->
  dict_add (acc ++ [(k, seen)]) (k, v) = acc ++ [(k, seen ++ [v])].
Proof.
  intros Hacc. unfold dict_add. cbn [fst snd].
  now rewrite dict_get_last, dict_set_last.
Qed.

Lemma add_values (acc : Dict.t (list string)) k (seen vs : list string) :
  Dict.get acc k = None -> seen <> [] ->
  foldl dict_add (acc ++ [(k, seen)]) (map (fun v => (k, v)) vs)
  = acc ++ [(k, seen ++ vs)].
Proof.
  intros Hacc. revert seen. induction vs as [|v vs IH]; intros seen Hseen.
  - cbn. now rewrite app_nil_r.
  - cbn [map foldl]. rewrite dict_add_seen by exact Hacc.
    rewrite IH by now destruct seen.
    now rewrite <- app_assoc.
Qed.

Lemma parse_pairs (acc d : Dict.t (list string)) :
  NoDup (Dict.keys (acc ++ d)) ->
  Forall (fun item => snd item <> []) d ->
  foldl dict_add acc (pairs_of d) = acc ++ d.
Proof.
  revert acc. induction d as [|[k vs] d IH]; intros acc Hnd Hne.
  - cbn. now rewrite app_nil_r.
  - apply Forall_cons in Hne as [Hvs Hne]. cbn [snd] in Hvs.
    unfold pairs_of in *. cbn [flat_map fst snd]. rewrite foldl_app.
    assert (Hacc : Dict.get acc k = None).
    { apply dict_get_None. unfold Dict.keys in *.
      rewrite map_app in Hnd. apply NoDup_app in Hnd as (_ & Hdis & _).
      intros Hin. apply (Hdis k Hin). cbn. left. }
    destruct vs as [|v vs]; [congruence|].
    cbn [map foldl]. rewrite dict_add_new by exact Hacc.
    rewrite add_values by (exact Hacc || discriminate).
    cbn [app]. rewrite IH.
    + now rewrite <- app_assoc.
    + now rewrite <- app_assoc.
    + exact Hne.
Qed.

(** The invariant of the dict [parse_qs] builds. *)
Lemma dict_set_nonempty (d : Dict.t (list string)) k vs :
  vs <> [] -> Forall (fun item => snd item <> []) d ->
  Forall (fun item => snd item <> []) (Dict.set d k vs).
Proof.
  intros Hvs. induction 1 as [|[k0 v0] d H0 Hd IH]; cbn.
  - now repeat constructor.
  - destruct (String.eqb k0 k); constructor; auto.
Qed.

Lemma dict_add_invariant (d : Dict.t (list string)) pair :
  NoDup (Dict.keys d) /\ Forall (fun item => snd item <> []) d ->
  NoDup (Dict.keys (dict_add d pair))
  /\ Forall (fun item => snd item <> []) (dict_add d pair).
Proof.
  intros [Hnd Hne]. unfold dict_add.
  destruct (Dict.get d (fst pair)) as [vs|]; split;
    try (now apply dict_set_NoDup);
    apply dict_set_nonempty; try exact Hne;
    try discriminate; now destruct vs.
Qed.

Lemma parse_qs_invariant qs :
  NoDup (Dict.keys (parse_qs qs))
  /\ Forall (fun item => snd item <> []) (parse_qs qs).
Proof.
  unfold parse_qs.
  assert (Hgen : forall pairs (d : Dict.t (list string)),
    NoDup (Dict.keys d) /\ Forall (fun item => snd item <> []) d ->
    NoDup (Dict.keys (foldl dict_add d pairs))
    /\ Forall (fun item => snd item <> []) (foldl dict_add d pairs)).
  { induction pairs as [|p pairs IH]; intros d Hd; [exact Hd|].
    cbn [foldl]. now apply IH, dict_add_invariant. }
  apply Hgen. split; constructor.
Qed.

Lemma dict_set_well_formed (d : Dict.t (list string)) k vs :
  well_formed_text k -> Forall well_formed_text vs ->
  well_formed_params d -> well_formed_params (Dict.set d k vs).
Proof.
  intros Hk Hvs. unfold well_formed_params.
  induction 1 as [|[k0 v0] d [H0 H0'] Hd IH]; cbn.
  - now repeat constructor.
  - destruct (String.eqb_spec k0 k) as [->|_]; constructor; auto.
Qed.
End EncodeParse.

(** ** Splitting a URL and joining it again *)

Section ParseUnparse.
Import Str Urllib.
Local Open Scope string_scope.

Lemma remove_kept s :
  all_chars kept_char s = true ->
  remove (chr 9) (remove (chr 13) (remove (chr 10) s)) = s.
Proof.
  intros Hs.
  rewrite (remove_absent (chr 10) s), (remove_absent (chr 13) s),
    (remove_absent (chr 9) s); [reflexivity|..];
    (eapply all_chars_impl; [|exact Hs]);
    intros c Hc; unfold kept_char in Hc;
    apply andb_prop in Hc as [[H9 H10]%andb_prop H13]; assumption.
Qed.

Lemma removed_kept s :
  all_chars kept_char (remove (chr 9) (remove (chr 13) (remove (chr 10) s)))
  = true.
Proof.
  induction s as [|c s IH]; [reflexivity|].
  cbn [remove].
  destruct (Ascii.eqb c (chr 10)) eqn:H10; [exact IH|]. cbn [remove].
  destruct (Ascii.eqb c (chr 13)) eqn:H13; [exact IH|]. cbn [remove].
  destruct (Ascii.eqb c (chr 9)) eqn:H9; [exact IH|]. cbn [all_chars].
  rewrite IH, andb_true_r. unfold kept_char, is_not.
  now rewrite H9, H10, H13.
Qed.

Lemma cut_pieces p sep s a b :
  all_chars p s = true -> cut sep s = Some (a, b) ->
  all_chars p a = true /\ all_chars p b = true.
Proof.
  intros Hs Hcut. apply cut_Some in Hcut as [-> _].
  rewrite all_chars_app in Hs. cbn [all_chars] in Hs.
  apply andb_prop in Hs as [Ha [_ Hb]%andb_prop]. now split.
Qed.

Lemma urlparse_parts url :
  let parsed := urlparse url in
  all_chars kept_char (before_query parsed) = true
  /\ all_chars kept_char (fragment parsed) = true
  /\ all_chars (is_not "?") (before_query parsed) = true
  /\ all_chars (is_not "#") (before_query parsed) = true.
Proof.
  unfold urlparse.
  pose proof (removed_kept url) as Hkept.
  set (u := remove (chr 9) (remove (chr 13) (remove (chr 10) url))) in *.
  destruct (cut "#" u) as [[v frag]|] eqn:Hfrag.
  - destruct (cut_pieces _ _ _ _ _ Hkept Hfrag) as [Hv Hf].
    apply cut_Some in Hfrag as [_ Hhash].
    destruct (cut "?" v) as [[pre q]|] eqn:Hq; cbn.
    + destruct (cut_pieces _ _ _ _ _ Hv Hq) as [Hpre _].
      destruct (cut_pieces _ _ _ _ _ Hhash Hq) as [Hpre' _].
      apply cut_Some in Hq as [_ Hquest]. auto.
    + apply cut_None in Hq. auto.
  - apply cut_None in Hfrag.
    destruct (cut "?" u) as [[pre q]|] eqn:Hq; cbn.
    + destruct (cut_pieces _ _ _ _ _ Hkept Hq) as [Hpre _].
      destruct (cut_pieces _ _ _ _ _ Hfrag Hq) as [Hpre' _].
      apply cut_Some in Hq as [_ Hquest]. auto.
    + apply cut_None in Hq. auto.
Qed.

Lemma urlparse_urlunparse pre q frag :
  all_chars kept_char pre = true -> all_chars kept_char frag = true ->
  all_chars (is_not "?") pre = true -> all_chars (is_not "#") pre = true ->
  all_chars query_char q = true -> truthy q = true ->
  urlparse (urlunparse (mkParseResult pre q frag))
  = mkParseResult pre q frag.
Proof.
  intros Hpre Hfrag Hquest Hhash Hq Hne.
  assert (Hq_kept : all_chars kept_char q = true).
  { eapply all_chars_impl; [|exact Hq]. intros c Hc.
    apply query_char_facts in Hc as (_ & _ & H9 & H10 & H13).
    unfold kept_char. now rewrite H9, H10, H13. }
  assert (Hq_hash : all_chars (is_not "#") q = true).
  { eapply all_chars_impl; [|exact Hq]. intros c Hc.
    now apply query_char_facts in Hc. }
  assert (Hhead : all_chars (is_not "#") (pre ++ String "?" q) = true).
  { rewrite all_chars_app. cbn [all_chars]. now rewrite Hhash, Hq_hash. }
  assert (Hhead_kept : all_chars kept_char (pre ++ String "?" q) = true).
  { rewrite all_chars_app. cbn [all_chars]. now rewrite Hpre, Hq_kept. }
  unfold urlunparse. cbn [before_query query fragment]. rewrite Hne.
  destruct frag as [|f frag]; cbn [truthy].
  - replace (pre ++ ("?" ++ q) ++ EmptyString) with (pre ++ String "?" q)
      by (cbn [String.append]; now rewrite append_nil_r).
    unfold urlparse. rewrite remove_kept by exact Hhead_kept.
    apply cut_None in Hhead. rewrite Hhead. now rewrite cut_app.
  - replace (pre ++ ("?" ++ q) ++ "#" ++ String f frag)
      with ((pre ++ String "?" q) ++ String "#" (String f frag))
      by (cbn [String.append]; now rewrite append_assoc).
    unfold urlparse. rewrite remove_kept.
    + rewrite cut_app by exact Hhead. now rewrite cut_app.
    + rewrite all_chars_app, Hhead_kept. cbn [all_chars].
      cbn [all_chars] in Hfrag. now rewrite Hfrag.
Qed.

Lemma join_truthy sep fields :
  fields <> [] -> Forall (fun f => truthy f = true) fields ->
  truthy (join sep fields) = true.
Proof.
  intros Hne Hall. destruct Hall as [|f fs Hf _]; [congruence|].
  destruct fs; [exact Hf|]. cbn [join]. now destruct f.
Qed.

Lemma encoded_fields_truthy (d : Dict.t (list string)) :
  Forall (fun f => truthy f = true) (flat_map encode_item d).
Proof.
  induction d as [|[k vs] d IH]; [constructor|].
  cbn [flat_map]. apply Forall_app. split; [|exact IH].
  unfold encode_item. cbn [fst snd].
  induction vs as [|v vs IHvs]; constructor; [|exact IHvs].
  now destruct (quote_plus k).
Qed.

Lemma urlencode_truthy (d : Dict.t (list string)) k v vs :
  Dict.get d k = Some (v :: vs) -> truthy (urlencode d) = true.
Proof.
  intros Hget. apply join_truthy; [|apply encoded_fields_truthy].
  induction d as [|[k0 vs0] d IH]; [discriminate|].
  cbn in Hget. cbn [flat_map]. destruct (String.eqb k0 k).
  - injection Hget as ->. discriminate.
  - intros Hnil. apply app_eq_nil in Hnil as [_ Hnil]. now apply IH.
Qed.
End ParseUnparse.

(** ** Decoding with replacement is idempotent *)

Section Utf8.
Import Str Urllib.
Local Open Scope string_scope.

Lemma utf8_replace_fffd s : utf8_replace (fffd ++ s) = fffd ++ utf8_replace s.
Proof. reflexivity. Qed.

Lemma utf8_replace_ascii s :
  all_chars ascii7 s = true -> utf8_replace s = s.
Proof.
  unfold ascii7. induction s as [|c s IH]; [reflexivity|].
  cbn [all_chars utf8_replace]. intros [Hc Hs]%andb_prop.
  now rewrite Hc, IH.
Qed.

(** One leaf of the case analysis below: the output is U+FFFD alone, or
    U+FFFD or a kept sequence followed by the decoding of a shorter text. *)
Ltac utf8_leaf IH :=
  first
    [ reflexivity
    | rewrite utf8_replace_fffd, IH by (cbn [String.length] in *; lia);
      reflexivity
    | cbn [utf8_replace];
      repeat match goal with
             | H : _ = true |- _ => rewrite H
             | H : _ = false |- _ => rewrite H
             end;
      rewrite IH by (cbn [String.length] in *; lia); reflexivity ].

Lemma utf8_replace_idempotent_upto (n : nat) :
  forall s, String.length s <= n ->
  utf8_replace (utf8_replace s) = utf8_replace s.
Proof.
  induction n as [|n IH]; intros s Hlen.
  - destruct s; [reflexivity | cbn in Hlen; lia].
  - destruct s as [|c1 r1]; [reflexivity|].
    cbn [utf8_replace].
    destruct (code c1 <? 128)%N eqn:H1; [utf8_leaf IH|].
    destruct ((code c1 <? 194) || (244 <? code c1))%N eqn:H2; [utf8_leaf IH|].
    destruct (code c1 <? 224)%N eqn:H3.
    { destruct r1 as [|c2 r2]; [utf8_leaf IH|].
      destruct (is_cont c2) eqn:H4; utf8_leaf IH. }
    destruct (code c1 <? 240)%N eqn:H4.
    { destruct r1 as [|c2 r2]; [utf8_leaf IH|].
      destruct (second_ok3 (code c1) c2) eqn:H5; [|utf8_leaf IH].
      destruct r2 as [|c3 r3]; [utf8_leaf IH|].
      destruct (is_cont c3) eqn:H6; utf8_leaf IH. }
    destruct r1 as [|c2 r2]; [utf8_leaf IH|].
    destruct (second_ok4 (code c1) c2) eqn:H5; [|utf8_leaf IH].
    destruct r2 as [|c3 r3]; [utf8_leaf IH|].
    destruct (is_cont c3) eqn:H6; [|utf8_leaf IH].
    destruct r3 as [|c4 r4]; [utf8_leaf IH|].
    destruct (is_cont c4) eqn:H7; utf8_leaf IH.
Qed.

Lemma utf8_replace_idempotent s :
  utf8_replace (utf8_replace s) = utf8_replace s.
Proof. now apply (utf8_replace_idempotent_upto (String.length s)). Qed.
End Utf8.

(** ** The parameters of an ASCII URL are well-formed text *)

Section AsciiUrl.
Import Str Urllib.
Local Open Scope string_scope.

Lemma unquote_ascii_well_formed s :
  all_chars ascii7 s = true -> well_formed_text (unquote s).
Proof.
  intros Hs. unfold well_formed_text, unquote.
  destruct (contains "%" s).
  - rewrite unquote_runs_ascii by exact Hs. apply utf8_replace_idempotent.
  - now apply utf8_replace_ascii.
Qed.

Lemma all_chars_split p sep s :
  all_chars p s = true ->
  Forall (fun piece => all_chars p piece = true) (split sep s).
Proof.
  induction s as [|c s IH]; cbn [split all_chars].
  - intros _. now repeat constructor.
  - intros [Hc Hs]%andb_prop. specialize (IH Hs).
    destruct (Ascii.eqb c sep); [now constructor|].
    destruct (split sep s) as [|piece pieces].
    + repeat constructor. cbn. now rewrite Hc.
    + apply Forall_cons in IH as [Hpiece Hpieces].
      constructor; [|exact Hpieces]. cbn. now rewrite Hc, Hpiece.
Qed.

Lemma parse_field_well_formed f :
  all_chars ascii7 f = true ->
  Forall (fun pair => well_formed_text (fst pair)
                      /\ well_formed_text (snd pair)) (parse_field f).
Proof.
  intros Hf. unfold parse_field.
  destruct (truthy f); [|constructor].
  repeat constructor; cbn [fst snd];
    apply unquote_ascii_well_formed, all_chars_replace; try reflexivity;
    destruct (cut "=" f) as [[n v]|] eqn:Hcut; cbn [fst snd];
    try exact Hf; try reflexivity;
    now destruct (cut_pieces _ _ _ _ _ Hf Hcut).
Qed.

Lemma parse_qsl_well_formed qs :
  all_chars ascii7 qs = true ->
  Forall (fun pair => well_formed_text (fst pair)
                      /\ well_formed_text (snd pair)) (parse_qsl qs).
Proof.
  intros Hqs. unfold parse_qsl.
  pose proof (all_chars_split ascii7 "&" qs Hqs) as Hfields.
  induction Hfields as [|f fs Hf _ IH]; [constructor|].
  cbn [flat_map]. apply Forall_app. split; [|exact IH].
  now apply parse_field_well_formed.
Qed.

Lemma dict_get_well_formed (d : Dict.t (list string)) k vs :
  well_formed_params d -> Dict.get d k = Some vs ->
  Forall well_formed_text vs.
Proof.
  induction 1 as [|[k0 v0] d [_ H0] _ IH]; cbn; [discriminate|].
  destruct (String.eqb k0 k); [|exact IH]. now intros [= <-].
Qed.

Lemma dict_add_well_formed (d : Dict.t (list string)) pair :
  well_formed_text (fst pair) -> well_formed_text (snd pair) ->
  well_formed_params d -> well_formed_params (dict_add d pair).
Proof.
  intros Hk Hv Hd. unfold dict_add.
  destruct (Dict.get d (fst pair)) as [vs|] eqn:Hget;
    apply dict_set_well_formed; try assumption.
  - apply Forall_app. split; [|now repeat constructor].
    now apply (dict_get_well_formed d (fst pair)).
  - now repeat constructor.
Qed.

Lemma parse_qs_well_formed qs :
  all_chars ascii7 qs = true -> well_formed_params (parse_qs qs).
Proof.
  intros Hqs. unfold parse_qs.
  pose proof (parse_qsl_well_formed qs Hqs) as Hpairs.
  assert (Hgen : forall d : Dict.t (list string),
    well_formed_params d ->
    well_formed_params (foldl dict_add d (parse_qsl qs))).
  { induction Hpairs as [|p ps [Hk Hv] _ IH]; intros d Hd; [exact Hd|].
    cbn [foldl]. now apply IH, dict_add_well_formed. }
  apply Hgen. constructor.
Qed.

Lemma urlparse_query_ascii url :
  all_chars ascii7 url = true ->
  all_chars ascii7 (query (urlparse url)) = true.
Proof.
  intros Hurl. unfold urlparse.
  assert (Hu : all_chars ascii7
    (remove (chr 9) (remove (chr 13) (remove (chr 10) url))) = true)
    by now repeat apply all_chars_remove.
  set (u := remove (chr 9) (remove (chr 13) (remove (chr 10) url))) in *.
  destruct (cut "#" u) as [[v frag]|] eqn:Hfrag.
  - destruct (cut_pieces _ _ _ _ _ Hu Hfrag) as [Hv _].
    destruct (cut "?" v) as [[pre q]|] eqn:Hq; cbn; [|reflexivity].
    now destruct (cut_pieces _ _ _ _ _ Hv Hq).
  - destruct (cut "?" u) as [[pre q]|] eqn:Hq; cbn; [|reflexivity].
    now destruct (cut_pieces _ _ _ _ _ Hu Hq).
Qed.

Lemma ascii_url_params_well_formed url :
  all_chars ascii7 url = true ->
  well_formed_params (parse_qs (query (urlparse url))).
Proof.
  intros Hurl. now apply parse_qs_well_formed, urlparse_query_ascii.
Qed.
End AsciiUrl.

(** ** Swapping the usage type *)

(** C3, as stated, fails: the query is rebuilt from a dict, so the values
    of a repeated parameter are brought together, changing the order of
    the fields, and each field is quoted afresh, changing its bytes. *)
Lemma swap_usage_type_regroups_and_requotes :
  let base :=
    "https://myenergy.xcelenergy.com/myenergy/usage-history-ajax/format/json" in
  let repeated := (base ++ "?meter=1&custId=42&meter=2&usageType=Q")%string in
  let escaped := (base ++ "?period=Jan%202024&usageType=Q")%string in
  swap_usage_type repeated "C"
  = (base ++ "?meter=1&meter=2&custId=42&usageType=C")%string
  /\ other_fields "usageType"
       (Urllib.query (Urllib.urlparse (swap_usage_type repeated "C")))
     <> other_fields "usageType" (Urllib.query (Urllib.urlparse repeated))
  /\ swap_usage_type escaped "C"
     = (base ++ "?period=Jan+2024&usageType=C")%string
  /\ other_fields "usageType"
       (Urllib.query (Urllib.urlparse (swap_usage_type escaped "C")))
     <> other_fields "usageType" (Urllib.query (Urllib.urlparse escaped)).
Proof.
  repeat split; vm_compute; congruence.
Qed.

(** C3, amended: [swap_usage_type] returns the captured URL with its query
    replaced by the encoding of its parsed parameters in which [usageType]
    has the one new value.  Every other parameter keeps its name and its
    decoded values in their order; the names keep the order of their first
    occurrence, [usageType] being added last when the URL had none.
    Parsing the returned URL gives exactly these parameters, and the same
    fragment, whenever the new value is well-formed text and the URL is
    ASCII, as a browser reports it, or its decoded parameters are
    well-formed text.  The fields are not kept byte for byte: each is
    quoted afresh, and the values of a repeated name are brought
    together. *)
Theorem swap_usage_type_sets_one_parameter :
  forall url usage_type : string,
    let parsed := Urllib.urlparse url in
    let params := Urllib.parse_qs (Urllib.query parsed) in
    let params' := Dict.set params "usageType" [usage_type] in
    swap_usage_type url usage_type
    = Urllib.urlunparse
        (Urllib.replace_query parsed (Urllib.urlencode params'))
    /\ Dict.get params' "usageType" = Some [usage_type]
    /\ (forall name : string,
          name <> "usageType" -> Dict.get params' name = Dict.get params name)
    /\ Dict.keys params'
       = match Dict.get params "usageType" with
         | Some _ => Dict.keys params
         | None => Dict.keys params ++ ["usageType"]
         end
    /\ (well_formed_text usage_type ->
        all_chars ascii7 url = true \/ well_formed_params params ->
        let parsed' := Urllib.urlparse (swap_usage_type url usage_type) in
        Urllib.parse_qs (Urllib.query parsed') = params'
        /\ Urllib.fragment parsed' = Urllib.fragment parsed).
Proof.
  intros url usage_type parsed params params'.
  split; [reflexivity|].
  split; [apply dict_get_set_eq|].
  split; [intros name Hname; apply dict_get_set_ne; congruence|].
  split; [apply dict_keys_set|].
  intros Hvalue Hurl parsed'.
  assert (Hparams : well_formed_params params).
  { destruct Hurl as [Hurl|Hparams]; [|exact Hparams].
    now apply ascii_url_params_well_formed. }
  destruct (parse_qs_invariant (Urllib.query parsed)) as [Hnd Hne].
  fold params in Hnd, Hne.
  assert (Hnd' : NoDup (Dict.keys params')) by now apply dict_set_NoDup.
  assert (Hne' : Forall (fun item => snd item <> []) params')
    by now apply dict_set_nonempty.
  assert (Hwf' : well_formed_params params').
  { apply dict_set_well_formed; [reflexivity | now constructor | exact Hparams]. }
  destruct (urlparse_parts url) as (Hpre & Hfrag & Hquest & Hhash).
  fold parsed in Hpre, Hfrag, Hquest, Hhash.
  assert (Hparsed' : parsed'
    = Urllib.mkParseResult (Urllib.before_query parsed)
        (Urllib.urlencode params') (Urllib.fragment parsed)).
  { unfold parsed', swap_usage_type. fold parsed params params'.
    unfold Urllib.replace_query. apply urlparse_urlunparse; try assumption.
    - apply urlencode_chars.
    - apply (urlencode_truthy params' "usageType" usage_type []).
      apply dict_get_set_eq. }
  rewrite Hparsed'. cbn [Urllib.query Urllib.before_query Urllib.fragment].
  split; [|reflexivity].
  unfold Urllib.parse_qs at 1. rewrite parse_qsl_urlencode by exact Hwf'.
  now rewrite (parse_pairs [] params').
Qed.

Lemma swap_usage_type_sets_one_parameter_witness :
  let url :=
    "https://myenergy.xcelenergy.com/myenergy/usage-history-ajax/format/json?custId=42&usageType=Q&timePeriod=DAILY&_=1700000000000#chart" in
  let parsed' := Urllib.urlparse (swap_usage_type url "C") in
  Urllib.parse_qs (Urllib.query parsed')
  = [("custId", ["42"]); ("usageType", ["C"]); ("timePeriod", ["DAILY"]);
     ("_", ["1700000000000"])]
  /\ Urllib.fragment parsed' = "chart".
Proof.
  intros url parsed'.
  apply (proj2 (proj2 (proj2 (proj2
           (swap_usage_type_sets_one_parameter url "C"))))).
  - reflexivity.
  - left. reflexivity.
Defined.


(** ** The dates of the records *)

Section DateProofs.
Import Str Datetime.
Local Open Scope string_scope.

(** *** Reading a month/day/year label *)

(** A part of the label followed by a slash: what is read of the part,
    and the text after the slash. *)
Lemma slash_then {A B} (p : matcher A) (k : A -> matcher B) (s : string) :
  andthen p (fun a => andthen (lit "/") (fun _ => k a)) s
  = flat_map (fun ar => k (fst ar) (snd ar))
      (andthen p (fun a => andthen (lit "/") (fun _ => yield a)) s).
Proof.
  unfold andthen, yield. induction (p s) as [|[a r] l IH]; [reflexivity|].
  cbn [flat_map fst snd]. rewrite flat_map_app, <- IH. f_equal.
  induction (lit "/" r) as [|[u r'] l' IH']; [reflexivity|].
  cbn [flat_map fst snd app]. now rewrite <- IH'.
Qed.

(** A two-digit month and the slash read as that month: the other way to
    read the month, as one digit, stops at the second digit. *)
Lemma month_and_slash (m : Z) (rest : string) :
  (1 <= m <= 12)%Z ->
  andthen month_re (fun a => andthen (lit "/") (fun _ => yield a))
    (two m ++ "/" ++ rest)
  = [(m, rest)].
Proof.
  intros Hm.
  assert (Hcases : (m = 1 \/ m = 2 \/ m = 3 \/ m = 4 \/ m = 5 \/ m = 6
                    \/ m = 7 \/ m = 8 \/ m = 9 \/ m = 10 \/ m = 11
                    \/ m = 12)%Z) by lia.
  repeat (destruct Hcases as [Hcases|Hcases]); subst m;
    vm_compute; reflexivity.
Qed.

Lemma day_and_slash (d : Z) (rest : string) :
  (1 <= d <= 31)%Z ->
  andthen day_re (fun a => andthen (lit "/") (fun _ => yield a))
    (two d ++ "/" ++ rest)
  = [(d, rest)].
Proof.
  intros Hd.
  assert (Hcases : (d = 1 \/ d = 2 \/ d = 3 \/ d = 4 \/ d = 5 \/ d = 6
                    \/ d = 7 \/ d = 8 \/ d = 9 \/ d = 10 \/ d = 11
                    \/ d = 12 \/ d = 13 \/ d = 14 \/ d = 15 \/ d = 16
                    \/ d = 17 \/ d = 18 \/ d = 19 \/ d = 20 \/ d = 21
                    \/ d = 22 \/ d = 23 \/ d = 24 \/ d = 25 \/ d = 26
                    \/ d = 27 \/ d = 28 \/ d = 29 \/ d = 30
                    \/ d = 31)%Z) by lia.
  repeat (destruct Hcases as [Hcases|Hcases]); subst d;
    vm_compute; reflexivity.
Qed.

(** A year of four digits, in decimal, reads as itself. *)
Lemma year_in_decimal (y : Z) :
  (1000 <= y <= 9999)%Z -> year_re (decimal y) = [(y, EmptyString)].
Proof.
  intros Hy.
  assert (Hall : forallb
            (fun n => match year_re (decimal (Z.of_nat n)) with
                      | [(y', EmptyString)] => (y' =? Z.of_nat n)%Z
                      | _ => false
                      end) (seq (Z.to_nat 1000) (Z.to_nat 9000)) = true)
    by (vm_compute; reflexivity).
  rewrite forallb_forall in Hall.
  specialize (Hall (Z.to_nat y)).
  rewrite Z2Nat.id in Hall by lia.
  assert (Hin : In (Z.to_nat y) (seq (Z.to_nat 1000) (Z.to_nat 9000)))
    by (apply in_seq; lia).
  specialize (Hall Hin).
  destruct (year_re (decimal y)) as [|[y' [|c r]] [|p l]]; try discriminate.
  apply Z.eqb_eq in Hall. now subst y'.
Qed.

Lemma days_in_month_at_most (y m : Z) : (days_in_month y m <= 31)%Z.
Proof.
  unfold days_in_month.
  destruct (m =? 2)%Z; [destruct (is_leap y); lia|].
  destruct (_ || _); lia.
Qed.

(** The label of a date, month first, reads as the date and is written
    year first. *)
Lemma mdY_to_iso_of_date (y m d : Z) :
  (1000 <= y <= 9999)%Z -> (1 <= m <= 12)%Z ->
  (1 <= d <= days_in_month y m)%Z ->
  mdY_to_iso (two m ++ "/" ++ two d ++ "/" ++ decimal y)
  = Some (decimal y ++ "-" ++ two m ++ "-" ++ two d).
Proof.
  intros Hy Hm Hd.
  pose proof (days_in_month_at_most y m) as Hmax.
  assert (Hre : mdY_re (two m ++ "/" ++ two d ++ "/" ++ decimal y)
                = [(Date y m d, EmptyString)]).
  { unfold mdY_re.
    rewrite slash_then, (month_and_slash m _ Hm).
    cbn [flat_map fst snd]. rewrite app_nil_r.
    rewrite slash_then, (day_and_slash d _ ltac:(lia)).
    cbn [flat_map fst snd]. rewrite app_nil_r.
    unfold andthen. now rewrite year_in_decimal. }
  unfold mdY_to_iso, strptime_mdY. rewrite Hre. cbn [truthy].
  assert (Hvalid : valid (Date y m d) = true).
  { unfold valid. cbn [year month day].
    repeat (apply andb_true_intro; split); apply Z.leb_le; lia. }
  now rewrite Hvalid.
Qed.
End DateProofs.

Section RecordDates.
Context {R : Type} `{Number R}.

(** The bill loop dates its records by the labels of the charged
    categories. *)
Lemma bill_rows_dates (to_iso : string -> option string)
    (elec_vals gas_vals : list (option R)) (cats : list string) (i : nat) :
  map date_cell (BillHistory.bill_rows to_iso elec_vals gas_vals i cats)
  = map (fun raw => Some (Text (default raw (to_iso raw))))
      (map snd (List.filter (fun p => charged elec_vals gas_vals (fst p))
                  (combine (seq i (length cats)) cats))).
Proof.
  revert i. induction cats as [|raw cats IH]; intros i; [reflexivity|].
  cbn [BillHistory.bill_rows length seq combine List.filter fst].
  rewrite map_app, IH, bill_row_spec. unfold charged.
  now destruct (truth _ || truth _).
Qed.

(** The chart loop dates its records by the first words of the labels. *)
Lemma chart_rows_dates (ss : list (series R)) (dates : list string) (i : nat) :
  map date_cell (Chart.chart_rows ss i dates)
  = map (fun date => Some (Text date)) dates.
Proof.
  revert i. induction dates as [|date dates IH]; intros i; [reflexivity|].
  cbn [Chart.chart_rows map]. now rewrite IH.
Qed.

Lemma first_word_whole (label : string) :
  all_chars (is_not " ") label = true -> Chart.first_word label = label.
Proof.
  intros Hlabel. unfold Chart.first_word. now rewrite split_absent.
Qed.
End RecordDates.

(** C7, amended: the bill normaliser [bill_json_to_csv] writes one
    record for each category at which the electric or the gas value it
    reads is non-zero, and for no other; whether a label parses plays no
    part in this.  Each record is dated by the label of its own category:
    by the ISO date when the label reads as month/day/year, by the label
    itself when it does not.  A label MM/DD/YYYY of a date that exists,
    with a year from 1000 on, reads as that date, and its ISO date is
    YYYY-MM-DD.  In particular the categories 01/02/2024 and 01/03/2024
    with the series Electric Charges = 1, 2 yield two records, dated
    2024-01-02 and 2024-01-03.  The chart normaliser [json_to_csv] converts
    no date: it dates each record by its label up to the first space, so
    by the whole label when it has no space.  The labels are ASCII texts,
    as the conversion is modelled on them. *)
Theorem bill_dates_iso_or_raw :
  (forall (R : Type) (HR : Number R) (cats : list string)
          (ss : list (series R)) (output_path : string)
          (fs : gmap string (csv_file R)),
     let by_name := BillHistory.by_name_of ss in
     let elec_vals :=
       BillHistory.get_or_zeros by_name "Electric Charges" cats in
     let gas_vals := BillHistory.get_or_zeros by_name "Gas Charges" cats in
     cats <> [] -> ss <> [] ->
     Forall (fun raw_date => all_chars ascii7 raw_date = true) cats ->
     exists records : csv_file R,
       BillHistory.bill_json_to_csv Datetime.mdY_to_iso
         (BillHistory.Bill
            (Some (BillHistory.Barchart (Some cats) (Some ss))))
         output_path fs
       = (length records,
          <[output_path := BillHistory.bill_header :: records]> fs)
       /\ map date_cell records
          = map (fun raw_date =>
                   Some (Text (match Datetime.mdY_to_iso raw_date with
                               | Some iso => iso
                               | None => raw_date
                               end)))
              (charged_labels elec_vals gas_vals cats))
  /\ (forall y m d : Z,
        (1000 <= y <= 9999)%Z -> (1 <= m <= 12)%Z ->
        (1 <= d <= Datetime.days_in_month y m)%Z ->
        Datetime.mdY_to_iso
          (Datetime.two m ++ "/" ++ Datetime.two d ++ "/"
           ++ Datetime.decimal y)%string
        = Some (Datetime.decimal y ++ "-" ++ Datetime.two m ++ "-"
                ++ Datetime.two d)%string)
  /\ BillHistory.bill_json_to_csv Datetime.mdY_to_iso
       (BillHistory.Bill (Some (BillHistory.Barchart
          (Some ["01/02/2024"; "01/03/2024"])
          (Some [Series "Electric Charges" [Some (Int 1); Some (Int 2)]]))))
       "out.csv" ∅
     = (2, <["out.csv" :=
             [BillHistory.bill_header;
              [Text "2024-01-02"; Num (Int 1); Num (Float 0);
               Num (Int 1)];
              [Text "2024-01-03"; Num (Int 2); Num (Float 0);
               Num (Int 2)]]]> ∅)
  /\ (forall (R : Type) (HR : Number R) (dates : list string)
             (ss : list (series R)) (output_path : string)
             (fs : gmap string (csv_file R)),
        dates <> [] -> ss <> [] ->
        exists records : csv_file R,
          Chart.json_to_csv (Chart.Chart (Some dates) (Some ss))
            output_path fs
          = (length dates,
             <[output_path := Chart.chart_header ss :: records]> fs)
          /\ map date_cell records
             = map (fun label => Some (Text (Chart.first_word label))) dates)
  /\ (forall label : string,
        all_chars (is_not " ") label = true ->
        Chart.first_word label = label).
Proof.
  split; [|split; [|split; [|split]]].
  - intros R HR cats ss output_path fs by_name elec_vals gas_vals Hc Hs _.
    eexists. split.
    + now apply bill_json_to_csv_writes.
    + fold by_name. fold elec_vals gas_vals.
      rewrite bill_rows_dates. unfold charged_labels.
      apply map_ext. intros raw.
      now destruct (Datetime.mdY_to_iso raw).
  - apply mdY_to_iso_of_date.
  - reflexivity.
  - intros R HR dates ss output_path fs Hd Hs.
    eexists. split.
    + now apply json_to_csv_writes.
    + now rewrite chart_rows_dates, map_map.
  - apply first_word_whole.
Qed.

Lemma bill_dates_iso_or_raw_witness :
  let cats := ["01/02/2024"; "not a date"; "02/30/2024"; "12/31/2023"] in
  let ss : list (series num) :=
    [Series "Electric Charges"
       [Some (Int 1); Some (Int 2); Some (Int 3); Some (Float 0)]] in
  (exists records : csv_file num,
     BillHistory.bill_json_to_csv Datetime.mdY_to_iso
       (BillHistory.Bill (Some (BillHistory.Barchart (Some cats) (Some ss))))
       "out.csv" ∅
     = (length records,
        <["out.csv" := BillHistory.bill_header :: records]> ∅)
     /\ map date_cell records
        = [Some (Text "2024-01-02"); Some (Text "not a date");
           Some (Text "02/30/2024")])
  /\ Datetime.mdY_to_iso "02/29/2024" = Some "2024-02-29"
  /\ Chart.first_word "01/02/2024" = "01/02/2024".
Proof.
  intros cats ss. split; [|split].
  - destruct (proj1 bill_dates_iso_or_raw num num_Number cats ss "out.csv" ∅)
      as (records & Hfile & Hdates).
    + discriminate.
    + discriminate.
    + repeat apply List.Forall_cons; try apply List.Forall_nil; reflexivity.
    + exists records. split; [exact Hfile|].
      etransitivity; [exact Hdates|]. vm_compute. reflexivity.
  - apply (proj1 (proj2 bill_dates_iso_or_raw) 2024 2 29)%Z;
      vm_compute; split; discriminate.
  - apply (proj2 (proj2 (proj2 (proj2 bill_dates_iso_or_raw))) "01/02/2024").
    reflexivity.
Defined.

(* ===================================================================== *)
(** * Part III: further properties of the scripts                          *)
(* ===================================================================== *)

(** ** Capture in the monthly scripts *)

(** X1: the request observers of the monthly electric script and of the
    gas script are first-match too: from an empty slot they end up with
    the earliest qualifying request, and they leave a filled slot alone. *)
Theorem monthly_observers_retain_earliest :
  (forall events : list string,
     is_earliest ElecMonthly.qualifies events
       (ajax_url (observe ElecMonthly.on_request events captured_init)))
  /\ (forall events : list string,
     is_earliest GasMonthly.qualifies events
       (ajax_url (observe GasMonthly.on_request events captured_init)))
  /\ (forall (u : string) (events : list string),
     observe ElecMonthly.on_request events (Captured (Some u))
     = Captured (Some u))
  /\ (forall (u : string) (events : list string),
     observe GasMonthly.on_request events (Captured (Some u))
     = Captured (Some u)).
Proof.
  repeat split; intros.
  - change ElecMonthly.on_request with (first_match ElecMonthly.qualifies).
    unfold captured_init. rewrite observe_empty.
    apply earliest_match_is_earliest.
  - change GasMonthly.on_request with (first_match GasMonthly.qualifies).
    unfold captured_init. rewrite observe_empty.
    apply earliest_match_is_earliest.
  - apply (observe_full ElecMonthly.qualifies).
  - apply (observe_full GasMonthly.qualifies).
Qed.

Lemma earliest_match_None qualifies events :
  earliest_match qualifies events = None
  <-> Forall (fun u => qualifies u = false) events.
Proof.
  unfold earliest_match. induction events as [|e events IH]; simpl.
  - split; [constructor | reflexivity].
  - destruct (qualifies e) eqn:He.
    + split; [discriminate|]. intros Hall.
      apply Forall_cons in Hall as [Hq _]. congruence.
    + rewrite IH. split; [now constructor|].
      now intros [_ Hall]%Forall_cons.
Qed.

Lemma earliest_match_elem qualifies events u :
  earliest_match qualifies events = Some u -> u ∈ events.
Proof.
  intros Hf. pose proof (earliest_match_is_earliest qualifies events) as He.
  rewrite Hf in He. destruct He as (pre & post & -> & _).
  apply elem_of_app. right. left.
Qed.

Lemma gas_capture_phases before meter monthly :
  GasMonthly.capture_ajax_url before meter monthly
  = match earliest_match GasMonthly.qualifies monthly with
    | Some u => Some u
    | None => earliest_match GasMonthly.qualifies meter
    end.
Proof.
  unfold GasMonthly.capture_ajax_url, reset.
  change GasMonthly.on_request with (first_match GasMonthly.qualifies).
  rewrite !observe_empty.
  destruct (earliest_match GasMonthly.qualifies monthly) as [u|] eqn:Hm;
    simpl; [|reflexivity].
  apply earliest_match_qualifies, gas_qualifies_truthy in Hm.
  now rewrite Hm.
Qed.

(** X2: the gas script ends without a URL, the case in which [main]
    raises, exactly when no request of the meter phase and none of the
    monthly phase qualifies; a URL it ends with is one of those requests
    and qualifies; the requests sent before the meter phase never matter. *)
Theorem gas_capture_fails_iff_nothing_qualifies :
  forall before meter monthly : list string,
    (GasMonthly.capture_ajax_url before meter monthly = None
     <-> Forall (fun u => GasMonthly.qualifies u = false) (meter ++ monthly))
    /\ (forall u : string,
          GasMonthly.capture_ajax_url before meter monthly = Some u ->
          GasMonthly.qualifies u = true /\ u ∈ meter ++ monthly)
    /\ GasMonthly.capture_ajax_url before meter monthly
       = GasMonthly.capture_ajax_url [] meter monthly.
Proof.
  intros before meter monthly. rewrite !gas_capture_phases.
  split; [|split; [|reflexivity]].
  - rewrite Forall_app, <- !earliest_match_None.
    destruct (earliest_match GasMonthly.qualifies monthly); [|tauto].
    split; [discriminate | intros [_ ?]; discriminate].
  - intros u Hu.
    destruct (earliest_match GasMonthly.qualifies monthly) as [v|] eqn:Hm.
    + injection Hu as ->. split.
      * now apply earliest_match_qualifies in Hm.
      * apply elem_of_app. right. now apply earliest_match_elem in Hm.
    + split.
      * now apply earliest_match_qualifies in Hu.
      * apply elem_of_app. left. now apply earliest_match_elem in Hu.
Qed.

Lemma gas_capture_fails_iff_nothing_qualifies_witness :
  let login := "https://my.xcelenergy.com/MyAccount/XE_Login" in
  let chart :=
    "https://myenergy.xcelenergy.com/myenergy/usage-history-ajax/format/json?usageType=Q" in
  GasMonthly.qualifies chart = true /\ chart ∈ [login; chart] ++ [login].
Proof.
  intros login chart.
  apply (proj1 (proj2 (gas_capture_fails_iff_nothing_qualifies
                         [chart] [login; chart] [login])) chart).
  reflexivity.
Defined.

(** ** The bill normaliser *)

Section BillExtras.
Context {R : Type} `{Number R}.
Variable to_iso : string -> option string.

Lemma bill_row_charged (elec_vals gas_vals : list (option R)) i raw_date :
  length (BillHistory.bill_row to_iso elec_vals gas_vals i raw_date)
  = if charged elec_vals gas_vals i then 1 else 0.
Proof.
  unfold BillHistory.bill_row, charged.
  now destruct (truth _ || truth _).
Qed.

Lemma bill_rows_count (elec_vals gas_vals : list (option R)) i cats :
  length (BillHistory.bill_rows to_iso elec_vals gas_vals i cats)
  = length (List.filter (charged elec_vals gas_vals) (seq i (length cats))).
Proof.
  revert i. induction cats as [|c cats IH]; intros i; [reflexivity|].
  cbn [BillHistory.bill_rows length seq List.filter].
  rewrite length_app, bill_row_charged, IH.
  now destruct (charged elec_vals gas_vals i).
Qed.


Lemma bill_rows_none (elec_vals gas_vals : list (option R)) i cats :
  (forall k, zero_or_absent (elec_vals !! k)
             /\ zero_or_absent (gas_vals !! k)) ->
  BillHistory.bill_rows to_iso elec_vals gas_vals i cats = [].
Proof.
  intros Hzero. revert i. induction cats as [|c cats IH]; intros i;
    [reflexivity|].
  cbn [BillHistory.bill_rows]. rewrite IH, bill_row_dropped;
    [reflexivity | apply Hzero | apply Hzero].
Qed.

(** The dict of series is read last-wins. *)
Lemma by_name_of_snoc (ss : list (series R)) s :
  BillHistory.by_name_of (ss ++ [s])
  = Dict.set (BillHistory.by_name_of ss) (name s) (data s).
Proof. unfold BillHistory.by_name_of. now rewrite foldl_app. Qed.

Lemma by_name_of_last (ss : list (series R)) n :
  Dict.get (BillHistory.by_name_of ss) n
  = data <$> List.find (fun s => String.eqb (name s) n) (rev ss).
Proof.
  induction ss as [|s ss IH] using rev_ind; [reflexivity|].
  rewrite by_name_of_snoc, dict_get_set, rev_app_distr. cbn.
  destruct (String.eqb (name s) n); [reflexivity | exact IH].
Qed.

Lemma find_append {A} (p : A -> bool) (a b : list A) :
  List.find p (a ++ b)
  = match List.find p a with
    | Some x => Some x
    | None => List.find p b
    end.
Proof.
  induction a as [|x a IH]; [reflexivity|]. cbn.
  now destruct (p x).
Qed.

Lemma find_rev_skip (p : series R -> bool) before s after :
  p s = false \/ (exists s', s' ∈ after /\ p s' = true) ->
  List.find p (rev (before ++ s :: after))
  = List.find p (rev (before ++ after)).
Proof.
  intros Hskip. rewrite !rev_app_distr. cbn [rev].
  rewrite <- app_assoc. cbn [app].
  rewrite !find_append.
  destruct (List.find p (rev after)) as [x|] eqn:Hfind; [reflexivity|].
  cbn [List.find]. destruct Hskip as [-> | (s' & Hin & Hp)]; [reflexivity|].
  exfalso. apply list_elem_of_In, in_rev in Hin.
  eapply find_none in Hfind; [|exact Hin]. congruence.
Qed.
End BillExtras.



Lemma filter_charged_zeros {R} `{Number R} (n : nat) (l : list nat) :
  List.filter (charged (replicate n (Some float0))
                       (replicate n (Some float0))) l = [].
Proof.
  induction l as [|i l IH]; [reflexivity|]. cbn [List.filter].
  assert (Hi : charged (replicate n (Some float0))
                       (replicate n (Some float0)) i = false).
  { unfold charged, at_or_float0.
    destruct (replicate n (Some float0) !! i) as [v|] eqn:Hr; cbn.
    - apply lookup_replicate in Hr as [-> _]. cbn.
      now rewrite nonzero_float0.
    - now rewrite nonzero_float0. }
  now rewrite Hi.
Qed.

(** X4: the number [bill_json_to_csv] returns is the number of category
    indices at which the electric or the gas value it reads is non-zero,
    whatever the payload. *)
Theorem bill_json_to_csv_counts_charged_categories :
  forall (R : Type) (HR : Number R) (to_iso : string -> option string)
         (d : BillHistory.bill R) (output_path : string)
         (fs : gmap string (csv_file R)),
    let chart :=
      default (BillHistory.Barchart None None) (BillHistory.cost_barchart d) in
    let cats := default [] (BillHistory.categories chart) in
    let by_name :=
      BillHistory.by_name_of (default [] (BillHistory.series_data chart)) in
    let elec_vals :=
      BillHistory.get_or_zeros by_name "Electric Charges" cats in
    let gas_vals := BillHistory.get_or_zeros by_name "Gas Charges" cats in
    fst (BillHistory.bill_json_to_csv to_iso d output_path fs)
    = length (List.filter (charged elec_vals gas_vals)
                          (seq 0 (length cats))).
Proof.
  intros R HR to_iso d output_path fs chart cats by_name elec_vals gas_vals.
  unfold BillHistory.bill_json_to_csv. fold chart cats.
  destruct (decide (cats = [])) as [Hc|Hc].
  { rewrite Hc. reflexivity. }
  destruct (decide (default [] (BillHistory.series_data chart) = []))
    as [Hs|Hs].
  { unfold elec_vals, gas_vals, by_name. rewrite Hs. cbn.
    rewrite orb_true_r. cbn. unfold BillHistory.get_or_zeros. cbn.
    now rewrite filter_charged_zeros. }
  rewrite !bool_decide_eq_false_2 by assumption. cbn.
  apply bill_rows_count.
Qed.

Lemma lone_series_of_another_name {R} `{Number R}
    (to_iso : string -> option string) (cats : list string) (s : series R)
    (output_path : string) (fs : gmap string (csv_file R)) :
  cats <> [] -> configured (name s) = false ->
  BillHistory.bill_json_to_csv to_iso
    (BillHistory.Bill (Some (BillHistory.Barchart (Some cats) (Some [s]))))
    output_path fs
  = (0, <[output_path := [BillHistory.bill_header]]> fs).
Proof.
  intros Hc Hs. rewrite bill_json_to_csv_writes by (assumption || discriminate).
  rewrite bill_rows_none; [reflexivity|].
  intros k. split; apply get_or_zeros_zero_or_absent;
    (apply List.Forall_cons; [|apply List.Forall_nil]);
    intros Hn; unfold configured in Hs; rewrite Hn in Hs; discriminate.
Qed.

(** X5: [bill_json_to_csv] ignores a series that is named neither Electric
    Charges nor Gas Charges as long as it is not the only series, and a
    series that a later series shares its name with: with or without it
    the result is the same.  A series of another name that is the only
    one is not without effect: over at least one category the file is
    then written, with the header alone, where without any series the
    function returns before it opens the file. *)
Theorem bill_json_to_csv_ignores_series :
  forall (R : Type) (HR : Number R) (to_iso : string -> option string)
         (cats : option (list string)) (before : list (series R))
         (s : series R) (after : list (series R))
         (output_path : string) (fs : gmap string (csv_file R)),
    ((configured (name s) = false /\ before ++ after <> [])
     \/ (exists s', s' ∈ after /\ name s' = name s) ->
     BillHistory.bill_json_to_csv to_iso
       (BillHistory.Bill
          (Some (BillHistory.Barchart cats (Some (before ++ s :: after)))))
       output_path fs
     = BillHistory.bill_json_to_csv to_iso
         (BillHistory.Bill
            (Some (BillHistory.Barchart cats (Some (before ++ after)))))
         output_path fs)
    /\ (forall labels : list string,
          configured (name s) = false -> labels <> [] ->
          BillHistory.bill_json_to_csv to_iso
            (BillHistory.Bill
               (Some (BillHistory.Barchart (Some labels) (Some [s]))))
            output_path fs
          = (0, <[output_path := [BillHistory.bill_header]]> fs)
          /\ BillHistory.bill_json_to_csv to_iso
               (BillHistory.Bill
                  (Some (BillHistory.Barchart (Some labels) (Some []))))
               output_path fs
             = (0, fs)).
Proof.
  intros R HR to_iso cats before s after output_path fs.
  split.
  2: { intros labels Hs Hl. split.
       - now apply lone_series_of_another_name.
       - unfold BillHistory.bill_json_to_csv. cbn. now rewrite orb_true_r. }
  intros Hskip.
  unfold BillHistory.bill_json_to_csv. cbn [default BillHistory.cost_barchart
    BillHistory.categories BillHistory.series_data].
  assert (Hne : before ++ s :: after <> []) by now destruct before.
  assert (Hne' : before ++ after <> []).
  { destruct Hskip as [[_ Hne']|(s' & Hin & _)]; [exact Hne'|].
    intros Hnil. apply app_eq_nil in Hnil as [_ ->].
    now apply elem_of_nil in Hin. }
  rewrite (bool_decide_eq_false_2 _ Hne), (bool_decide_eq_false_2 _ Hne').
  assert (Hget : forall n, configured n = true ->
    Dict.get (BillHistory.by_name_of (before ++ s :: after)) n
    = Dict.get (BillHistory.by_name_of (before ++ after)) n).
  { intros n Hn. rewrite !by_name_of_last. f_equal.
    apply find_rev_skip.
    destruct Hskip as [[Hcfg _]|(s' & Hin & Hname)].
    - left. destruct (String.eqb_spec (name s) n) as [Heq|]; [|reflexivity].
      congruence.
    - destruct (String.eqb (name s) n) eqn:Hsn; [|now left].
      right. exists s'. split; [exact Hin|]. now rewrite Hname. }
  unfold BillHistory.get_or_zeros.
  now rewrite !Hget by reflexivity.
Qed.

Lemma bill_json_to_csv_ignores_series_witness :
  let elec := Series "Electric Charges" [Some (Float (5 # 2))] in
  let stale := Series "Electric Charges" [Some (Float (9 # 2))] in
  let taxes := Series "Taxes" [Some (Float (1 # 2))] in
  BillHistory.bill_json_to_csv Datetime.mdY_to_iso
    (BillHistory.Bill (Some (BillHistory.Barchart (Some ["01/02/2024"])
       (Some ([stale] ++ taxes :: [elec])))))
    "bill.csv" (∅ : gmap string (csv_file num))
  = BillHistory.bill_json_to_csv Datetime.mdY_to_iso
      (BillHistory.Bill (Some (BillHistory.Barchart (Some ["01/02/2024"])
         (Some ([stale] ++ [elec])))))
      "bill.csv" ∅
  /\ BillHistory.bill_json_to_csv Datetime.mdY_to_iso
       (BillHistory.Bill (Some (BillHistory.Barchart (Some ["01/02/2024"])
          (Some ([] ++ stale :: [elec])))))
       "bill.csv" (∅ : gmap string (csv_file num))
     = BillHistory.bill_json_to_csv Datetime.mdY_to_iso
         (BillHistory.Bill (Some (BillHistory.Barchart (Some ["01/02/2024"])
            (Some ([] ++ [elec])))))
         "bill.csv" ∅
  /\ BillHistory.bill_json_to_csv Datetime.mdY_to_iso
       (BillHistory.Bill (Some (BillHistory.Barchart (Some ["01/02/2024"])
          (Some [taxes]))))
       "bill.csv" (∅ : gmap string (csv_file num))
     = (0, <["bill.csv" := [BillHistory.bill_header]]> ∅).
Proof.
  intros elec stale taxes. split; [|split].
  - apply (proj1 (bill_json_to_csv_ignores_series num num_Number
                    Datetime.mdY_to_iso (Some ["01/02/2024"]) [stale] taxes
                    [elec] "bill.csv" ∅)).
    left. split; [reflexivity | discriminate].
  - apply (proj1 (bill_json_to_csv_ignores_series num num_Number
                    Datetime.mdY_to_iso (Some ["01/02/2024"]) [] stale
                    [elec] "bill.csv" ∅)).
    right. exists elec. split; [left | reflexivity].
  - apply (proj2 (bill_json_to_csv_ignores_series num num_Number
                    Datetime.mdY_to_iso None [] taxes [] "bill.csv" ∅)
             ["01/02/2024"]); [reflexivity | discriminate].
Defined.

(** ** The chart normaliser *)

Section ChartExtras.
Context {R : Type} `{Number R}.

Lemma chart_rows_width (ss : list (series R)) i dates :
  Forall (fun row => length row = S (S (length ss)))
         (Chart.chart_rows ss i dates).
Proof.
  revert i. induction dates as [|d dates IH]; intros i; constructor;
    [|apply IH].
  unfold Chart.chart_row, Chart.chart_vals. cbn.
  rewrite length_app, !length_map. cbn. lia.
Qed.

Lemma at_or_float0_take (vals : list (option R)) n i :
  i < n -> at_or_float0 (take n vals) i = at_or_float0 vals i.
Proof.
  intros Hi. unfold at_or_float0. now rewrite lookup_take_lt.
Qed.

Lemma chart_vals_clip (ss : list (series R)) n i :
  i < n -> Chart.chart_vals (map (clip n) ss) i = Chart.chart_vals ss i.
Proof.
  intros Hi. unfold Chart.chart_vals.
  induction ss as [|s ss IH]; [reflexivity|]. cbn [map].
  rewrite IH. f_equal. cbn. now apply at_or_float0_take.
Qed.

Lemma chart_rows_clip (ss : list (series R)) n i dates :
  i + length dates <= n ->
  Chart.chart_rows (map (clip n) ss) i dates = Chart.chart_rows ss i dates.
Proof.
  revert i. induction dates as [|d dates IH]; intros i Hn; [reflexivity|].
  cbn [Chart.chart_rows length] in *. rewrite IH by lia. f_equal.
  unfold Chart.chart_row. rewrite chart_vals_clip by lia. reflexivity.
Qed.

Lemma split_nonempty sep s : Str.split sep s <> [].
Proof.
  destruct s as [|c s]; cbn; [discriminate|].
  destruct (Ascii.eqb c sep); [discriminate|].
  destruct (Str.split sep s); discriminate.
Qed.

Lemma first_word_cut d :
  Chart.first_word d
  = match Str.cut " " d with
    | Some (w, _) => w
    | None => d
    end.
Proof.
  unfold Chart.first_word. induction d as [|c d IH]; [reflexivity|].
  cbn [Str.split Str.cut]. destruct (Ascii.eqb c " "); [reflexivity|].
  destruct (Str.split " " d) as [|w ws] eqn:Hsplit.
  - now apply split_nonempty in Hsplit.
  - rewrite IH. now destruct (Str.cut " " d) as [[a b]|].
Qed.
End ChartExtras.

(** X6: a file written by [json_to_csv] is rectangular: the header and
    every record have one cell for the date, one for each series and one
    for the total. *)
Theorem json_to_csv_file_is_rectangular :
  forall (R : Type) (HR : Number R) (d : Chart.chart R)
         (output_path : string) (fs : gmap string (csv_file R)),
    let ss := default [] (Chart.series_data d) in
    Chart.json_to_csv d output_path fs = (0, fs)
    \/ exists file : csv_file R,
         snd (Chart.json_to_csv d output_path fs)
         = <[output_path := file]> fs
         /\ Forall (fun row => length row = S (S (length ss))) file.
Proof.
  intros R HR d output_path fs ss. unfold Chart.json_to_csv. fold ss.
  destruct (bool_decide _ || bool_decide _); [now left|].
  right. eexists. split; [reflexivity|]. constructor.
  - unfold Chart.chart_header. cbn. rewrite length_app, length_map. cbn. lia.
  - apply chart_rows_width.
Qed.

(** X7: [json_to_csv] reads of each series the entries at the category
    indices only: what a series holds beyond the number of categories does
    not change the result. *)
Theorem json_to_csv_ignores_surplus_entries :
  forall (R : Type) (HR : Number R) (dates : option (list string))
         (ss : option (list (series R))) (output_path : string)
         (fs : gmap string (csv_file R)),
    Chart.json_to_csv
      (Chart.Chart dates (map (clip (length (default [] dates))) <$> ss))
      output_path fs
    = Chart.json_to_csv (Chart.Chart dates ss) output_path fs.
Proof.
  intros R HR dates ss output_path fs. unfold Chart.json_to_csv.
  cbn [Chart.column_fulldates Chart.series_data].
  destruct ss as [ss|]; [|reflexivity].
  change (default [] (map (clip (length (default [] dates))) <$> Some ss))
    with (map (clip (length (default [] dates))) ss).
  change (default [] (Some ss)) with ss.
  set (labels := default [] dates).
  assert (Hhead : Chart.chart_header (map (clip (length labels)) ss)
                  = Chart.chart_header ss).
  { unfold Chart.chart_header. now rewrite map_map. }
  assert (Hempty : bool_decide (map (clip (length labels)) ss = [])
                   = bool_decide (ss = [])) by now destruct ss.
  rewrite Hempty, Hhead, chart_rows_clip; [reflexivity|].
  now rewrite length_map.
Qed.

(** X8: the date [json_to_csv] writes for a label is the label up to its
    first space: it holds no space, and the label is this date, followed
    by nothing or by a space and the rest. *)
Theorem json_to_csv_date_is_first_word :
  forall label : string,
    all_chars (is_not " ") (Chart.first_word label) = true
    /\ (label = Chart.first_word label
        \/ exists rest : string,
             label = (Chart.first_word label ++ String " " rest)%string).
Proof.
  intros label. rewrite first_word_cut.
  destruct (Str.cut " " label) as [[w rest]|] eqn:Hcut.
  - apply cut_Some in Hcut as [-> Hw]. split; [exact Hw|].
    right. now exists rest.
  - apply cut_None in Hcut. split; [exact Hcut | now left].
Qed.

(** ** The interval normaliser *)

Section IntervalExtras.
Context {R : Type}.
Variable reformat : string -> option string.

Lemma omap_row_of_length (ivs : list (OnDemand.interval R)) :
  length (omap (row_of reformat) ivs) <= length ivs.
Proof.
  induction ivs as [|iv ivs IH]; [reflexivity|]. cbn.
  destruct (row_of reformat iv); cbn; lia.
Qed.

Lemma sorted_rows_length (ivs : list (OnDemand.interval R)) :
  length (OnDemand.sorted_rows reformat ivs) <= length ivs.
Proof.
  unfold OnDemand.sorted_rows.
  rewrite loop_rows_omap, (Permutation_length (sort_rows_perm _)).
  apply omap_row_of_length.
Qed.

Lemma sorted_rows_none (ivs : list (OnDemand.interval R)) :
  Forall lacks_field ivs -> OnDemand.sorted_rows reformat ivs = [].
Proof.
  intros Hall. unfold OnDemand.sorted_rows. rewrite loop_rows_omap.
  induction Hall as [|iv ivs Hiv _ IH]; [reflexivity|]. cbn.
  apply (row_of_None reformat) in Hiv. now rewrite Hiv.
Qed.
End IntervalExtras.

(** X9: [intervals_to_csv] always replaces the output file, by the header
    and at most one record per interval item; when every item lacks a
    required field, or there is none, the file is left with the header
    alone and 0 is returned; and a run replaces whatever an earlier run
    wrote to the same path. *)
Theorem intervals_to_csv_always_writes :
  forall (R : Type) (reformat : string -> option string)
         (intervals : list (OnDemand.interval R)) (output_path : string)
         (fs : gmap string (csv_file R)),
    let outcome := OnDemand.intervals_to_csv reformat intervals output_path fs in
    (exists rows : list (OnDemand.row R),
       outcome
       = (length rows,
          <[output_path := OnDemand.interval_header
                           :: map OnDemand.row_cells rows]> fs)
       /\ length rows <= length intervals)
    /\ (Forall lacks_field intervals ->
        outcome = (0, <[output_path := [OnDemand.interval_header]]> fs))
    /\ (forall earlier : list (OnDemand.interval R),
          snd (OnDemand.intervals_to_csv reformat intervals output_path
                 (snd (OnDemand.intervals_to_csv reformat earlier
                         output_path fs)))
          = snd outcome).
Proof.
  intros R reformat intervals output_path fs outcome. subst outcome.
  unfold OnDemand.intervals_to_csv. split; [|split].
  - eexists. split; [reflexivity|]. apply sorted_rows_length.
  - intros Hall. now rewrite sorted_rows_none.
  - intros earlier. cbn [snd]. apply insert_insert_eq.
Qed.

Lemma intervals_to_csv_always_writes_witness :
  let no_amount : OnDemand.interval num :=
    OnDemand.Interval (OnDemand.Value "2/26/2026 8:30 AM")
      (OnDemand.Value 1772119800%Z) OnDemand.Null (OnDemand.Value "on-peak") in
  OnDemand.intervals_to_csv Datetime.mdY_IMp_to_iso [no_amount]
    "ondemand.csv" ∅
  = (0, <["ondemand.csv" := [OnDemand.interval_header]]> ∅).
Proof.
  intros no_amount.
  apply (proj1 (proj2 (intervals_to_csv_always_writes num
           Datetime.mdY_IMp_to_iso [no_amount] "ondemand.csv" ∅))).
  apply List.Forall_cons; [|apply List.Forall_nil].
  right. right. intros k. discriminate.
Defined.

(** X10: when no two records have the same epoch, the file
    [intervals_to_csv] writes does not depend on the order of the interval
    items. *)
Theorem intervals_to_csv_order_independent :
  forall (R : Type) (reformat : string -> option string)
         (intervals intervals' : list (OnDemand.interval R))
         (output_path : string) (fs : gmap string (csv_file R)),
    intervals ≡ₚ intervals' ->
    (forall r1 r2 : OnDemand.row R,
       r1 ∈ omap (row_of reformat) intervals ->
       r2 ∈ omap (row_of reformat) intervals ->
       OnDemand.unix_ms r1 = OnDemand.unix_ms r2 -> r1 = r2) ->
    OnDemand.intervals_to_csv reformat intervals output_path fs
    = OnDemand.intervals_to_csv reformat intervals' output_path fs.
Proof.
  intros R reformat intervals intervals' output_path fs Hperm Hdistinct.
  unfold OnDemand.intervals_to_csv.
  assert (Hrows : OnDemand.sorted_rows reformat intervals
                  = OnDemand.sorted_rows reformat intervals').
  { unfold OnDemand.sorted_rows. rewrite !loop_rows_omap.
    assert (Hp : omap (row_of reformat) intervals
                 ≡ₚ omap (row_of reformat) intervals')
      by now rewrite Hperm.
    eapply StronglySorted_unique_strong;
      [|apply sort_rows_ascending | apply sort_rows_ascending|].
    - intros x1 x2 Hx1 Hx2 Hle Hge. cbn in Hle, Hge.
      apply Hdistinct; [| |lia].
      + now rewrite sort_rows_perm in Hx1.
      + now rewrite sort_rows_perm, <- Hp in Hx2.
    - now rewrite !sort_rows_perm. }
  now rewrite Hrows.
Qed.

Lemma intervals_to_csv_order_independent_witness :
  let reading (ts : string) (epoch : Z) : OnDemand.interval num :=
    OnDemand.Interval (OnDemand.Value ts) (OnDemand.Value epoch)
      (OnDemand.Value (Float (1 # 4))) (OnDemand.Value "off-peak") in
  let first := reading "2/26/2026 8:30 AM" 1772119800%Z in
  let second := reading "2/26/2026 8:45 AM" 1772120700%Z in
  OnDemand.intervals_to_csv Datetime.mdY_IMp_to_iso [first; second]
    "ondemand.csv" ∅
  = OnDemand.intervals_to_csv Datetime.mdY_IMp_to_iso [second; first]
      "ondemand.csv" ∅.
Proof.
  intros reading first second.
  apply (intervals_to_csv_order_independent num Datetime.mdY_IMp_to_iso
           [first; second] [second; first] "ondemand.csv" ∅).
  - apply Permutation_swap.
  - intros r1 r2 H1 H2 Heq.
    vm_compute in H1, H2.
    apply list_elem_of_In in H1, H2. cbn in H1, H2.
    destruct H1 as [<-|[<-|[]]], H2 as [<-|[<-|[]]];
      try reflexivity; cbn in Heq; discriminate.
Defined.

(** ** The amount parser *)

Section MoneyExtras.
Local Open Scope string_scope.

Lemma filter_app keep (a b : string) :
  Str.filter keep (a ++ b) = Str.filter keep a ++ Str.filter keep b.
Proof.
  induction a as [|c a IH]; simpl; [reflexivity|].
  destruct (keep c); simpl; now rewrite IH.
Qed.

Lemma filter_none keep (s : string) :
  all_chars (fun c => negb (keep c)) s = true ->
  Str.filter keep s = EmptyString.
Proof.
  induction s as [|c s IH]; simpl; [reflexivity|].
  intros [Hc Hs]%andb_prop. apply negb_true_iff in Hc. rewrite Hc. auto.
Qed.

Lemma filter_money_digits (s : string) :
  all_chars (is_not ".") s = true ->
  all_chars (is_not "-") s = true ->
  Str.filter BillHistory.money_char s = Str.filter Str.is_digit s.
Proof.
  induction s as [|c s IH]; simpl; [reflexivity|].
  intros [Hc Hs]%andb_prop [Hc' Hs']%andb_prop.
  unfold BillHistory.money_char, is_not in *.
  apply negb_true_iff in Hc, Hc'. rewrite Hc, Hc', !orb_false_r.
  destruct (Str.is_digit c); now rewrite IH.
Qed.

Lemma filter_all keep (s : string) : all_chars keep (Str.filter keep s) = true.
Proof.
  induction s as [|c s IH]; simpl; [reflexivity|].
  destruct (keep c) eqn:Hc; simpl; [now rewrite Hc|assumption].
Qed.

Lemma span_digits_all (ds : string) :
  all_chars Str.is_digit ds = true ->
  Float.span_digits ds = (ds, EmptyString).
Proof.
  induction ds as [|c ds IH]; simpl; [reflexivity|].
  intros [Hc Hs]%andb_prop. now rewrite Hc, IH.
Qed.

Lemma digits_value_nonneg (ds : string) (acc : Z) :
  (0 <= acc)%Z -> (0 <= Float.digits_value acc ds)%Z.
Proof.
  revert acc. induction ds as [|c ds IH]; simpl; intros acc Hacc;
    [assumption|]. apply IH. lia.
Qed.

Lemma Qred_whole (v : Z) : Qred (inject_Z v) = inject_Z v.
Proof.
  unfold Qred, inject_Z.
  pose proof (Z.ggcd_gcd v 1) as Hg.
  pose proof (Z.ggcd_correct_divisors v 1) as Hd.
  destruct (Z.ggcd v 1) as [g [aa bb]]. cbn [fst snd] in *.
  rewrite Z.gcd_1_r in Hg. subst g. destruct Hd as [-> Hbb].
  assert (bb = 1%Z) as -> by lia.
  f_equal. lia.
Qed.

Lemma of_str_digits (ds : string) :
  all_chars Str.is_digit ds = true -> Str.truthy ds = true ->
  Float.of_str ds = Some (inject_Z (Float.digits_value 0 ds)).
Proof.
  intros Hall Hne. destruct ds as [|c ds]; [discriminate|].
  unfold Float.of_str.
  assert (Hc : Ascii.eqb c "-" = false).
  { simpl in Hall. apply andb_prop in Hall as [Hc _].
    destruct (Ascii.eqb_spec c "-") as [->|]; [discriminate|reflexivity]. }
  rewrite Hc. unfold Float.unsigned_literal.
  rewrite (span_digits_all _ Hall). cbn [Str.truthy].
  rewrite append_nil_r. cbn [Str.truthy String.length].
  change (Z.to_pos (10 ^ Z.of_nat 0)) with 1%positive.
  f_equal. apply Qred_whole.
Qed.
End MoneyExtras.

(** X11: [parse_money] looks only at digits, full stops and minus signs:
    text made of other characters can be put anywhere in the amount, or
    taken out of it, and the result, a number or a [ValueError], is the
    same. *)
Theorem parse_money_ignores_other_characters :
  forall before other after : string,
    all_chars (fun c => negb (BillHistory.money_char c)) other = true ->
    BillHistory.parse_money (before ++ other ++ after)
    = BillHistory.parse_money (before ++ after).
Proof.
  intros before other after Hother. unfold BillHistory.parse_money.
  now rewrite !filter_app, (filter_none _ _ Hother).
Qed.

Lemma parse_money_ignores_other_characters_witness :
  BillHistory.parse_money ("$1" ++ "," ++ "234.56")
  = BillHistory.parse_money ("$1" ++ "234.56").
Proof.
  apply (parse_money_ignores_other_characters "$1" "," "234.56").
  reflexivity.
Defined.

(** X12: on a text with neither a full stop nor a minus sign
    [parse_money] never raises.  When the whole number that the digits of
    the text spell in base ten, read in their order, is at most 2^53, the
    range in which every whole number is a binary64 float and [float]
    rounds nothing, it returns exactly that number, which is 0.0 when the
    text has no digit. *)
Theorem parse_money_whole_amount :
  forall s : string,
    all_chars (is_not ".") s = true ->
    all_chars (is_not "-") s = true ->
    let amount := Float.digits_value 0 (Str.filter Str.is_digit s) in
    (exists q : Q, BillHistory.parse_money s = Return q)
    /\ (0 <= amount)%Z
    /\ ((amount <= 2 ^ 53)%Z ->
        BillHistory.parse_money s = Return (inject_Z amount)).
Proof.
  intros s Hstop Hminus amount.
  assert (Hvalue : BillHistory.parse_money s = Return (inject_Z amount)).
  { subst amount. unfold BillHistory.parse_money.
    rewrite (filter_money_digits _ Hstop Hminus).
    destruct (Str.truthy (Str.filter Str.is_digit s)) eqn:Hne.
    - now rewrite (of_str_digits _ (filter_all _ _) Hne).
    - destruct (Str.filter Str.is_digit s); [reflexivity|discriminate]. }
  split; [now exists (inject_Z amount)|].
  split; [now apply digits_value_nonneg|].
  intros _. exact Hvalue.
Qed.

Lemma parse_money_whole_amount_witness :
  BillHistory.parse_money "$1,234" = Return (inject_Z 1234)
  /\ BillHistory.parse_money "n/a" = Return (inject_Z 0).
Proof.
  split.
  - apply (parse_money_whole_amount "$1,234"); try reflexivity.
    vm_compute. discriminate.
  - apply (parse_money_whole_amount "n/a"); try reflexivity.
    vm_compute. discriminate.
Defined.

(** ** Swapping the usage type, further *)

Section SwapExtras.
Import Str Urllib.
Local Open Scope string_scope.

(** The URL [swap_usage_type] returns parses into the parts it was made
    of. *)
Lemma swap_reparse url usage_type :
  let parsed := urlparse url in
  urlparse (swap_usage_type url usage_type)
  = mkParseResult (before_query parsed)
      (urlencode (Dict.set (parse_qs (query parsed)) "usageType"
                    [usage_type]))
      (fragment parsed).
Proof.
  intros parsed.
  destruct (urlparse_parts url) as (Hpre & Hfrag & Hquest & Hhash).
  fold parsed in Hpre, Hfrag, Hquest, Hhash.
  unfold swap_usage_type. fold parsed.
  unfold replace_query. apply urlparse_urlunparse; try assumption.
  - apply urlencode_chars.
  - apply (urlencode_truthy _ "usageType" usage_type []).
    apply dict_get_set_eq.
Qed.

Lemma parse_qs_urlencode (d : Dict.t (list string)) :
  well_formed_params d -> NoDup (Dict.keys d) ->
  Forall (fun item => snd item <> []) d ->
  parse_qs (urlencode d) = d.
Proof.
  intros Hwf Hnd Hne. unfold parse_qs.
  rewrite parse_qsl_urlencode by exact Hwf.
  now rewrite (parse_pairs [] d).
Qed.

Lemma dict_set_set {V} (d : Dict.t V) k v v' :
  Dict.set (Dict.set d k v) k v' = Dict.set d k v'.
Proof.
  induction d as [|[k0 v0] d IH]; cbn.
  - now rewrite String.eqb_refl.
  - destruct (String.eqb k0 k) eqn:Hk; cbn; rewrite Hk; [reflexivity|].
    now rewrite IH.
Qed.

(** *** Fields that need no quoting *)

Lemma quote_plus_safe s :
  all_chars always_safe s = true -> quote_plus s = s.
Proof.
  induction s as [|c s IH]; [reflexivity|]. cbn [all_chars quote_plus].
  intros [Hc Hs]%andb_prop. now rewrite Hc, IH.
Qed.

Lemma safe_well_formed s :
  all_chars always_safe s = true -> well_formed_text s.
Proof.
  intros Hs. apply utf8_replace_ascii.
  eapply all_chars_impl; [|exact Hs]. intros c Hc.
  apply quoted_char_facts. unfold quoted_char. now rewrite Hc.
Qed.

Lemma plain_field_parts f :
  plain_field f = true ->
  exists n v, f = n ++ "=" ++ v /\ field_item f = (n, [v])
              /\ field_name f = n
              /\ all_chars always_safe n = true
              /\ all_chars always_safe v = true.
Proof.
  unfold plain_field, field_item, field_name.
  destruct (cut "=" f) as [[n v]|] eqn:Hcut; [|discriminate].
  intros [Hn Hv]%andb_prop. exists n, v.
  apply cut_Some in Hcut as [-> _]. auto.
Qed.

Lemma field_name_item f : fst (field_item f) = field_name f.
Proof.
  unfold field_item, field_name. now destruct (cut "=" f) as [[n v]|].
Qed.

Lemma encode_plain_field f :
  plain_field f = true -> encode_item (field_item f) = [f].
Proof.
  intros (n & v & -> & -> & _ & Hn & Hv)%plain_field_parts.
  unfold encode_item. cbn [fst snd map].
  now rewrite !quote_plus_safe.
Qed.

Lemma encode_plain_fields fields :
  forallb plain_field fields = true ->
  flat_map encode_item (map field_item fields) = fields.
Proof.
  induction fields as [|f fs IH]; [reflexivity|]. cbn [forallb map flat_map].
  intros [Hf Hfs]%andb_prop. now rewrite encode_plain_field, IH.
Qed.

Lemma parse_plain_fields fields :
  forallb plain_field fields = true ->
  flat_map parse_field fields = pairs_of (map field_item fields).
Proof.
  unfold pairs_of.
  induction fields as [|f fs IH]; [reflexivity|]. cbn [forallb map flat_map].
  intros [Hf Hfs]%andb_prop. rewrite IH by exact Hfs. f_equal.
  apply plain_field_parts in Hf as (n & v & -> & -> & _ & Hn & Hv).
  cbn [fst snd map].
  rewrite <- (quote_plus_safe n Hn) at 1.
  rewrite <- (quote_plus_safe v Hv) at 1.
  apply parse_field_encoded; now apply safe_well_formed.
Qed.

Lemma parse_qs_plain qs :
  forallb plain_field (split "&" qs) = true ->
  NoDup (map field_name (split "&" qs)) ->
  parse_qs qs = map field_item (split "&" qs).
Proof.
  intros Hplain Hnd. unfold parse_qs, parse_qsl.
  rewrite parse_plain_fields by exact Hplain.
  rewrite (parse_pairs [] (map field_item (split "&" qs))); [reflexivity| |].
  - cbn [app]. unfold Dict.keys. rewrite map_map.
    now rewrite (map_ext _ _ field_name_item).
  - apply List.Forall_forall. intros item [f [<- _]]%in_map_iff.
    unfold field_item. now destruct (cut "=" f) as [[n v]|].
Qed.

Lemma swap_field_others usage_type fields :
  existsb names_usage_type fields = false ->
  map (swap_field usage_type) fields = fields.
Proof.
  induction fields as [|f fs IH]; [reflexivity|]. cbn [existsb map].
  intros [Hf Hfs]%orb_false_elim. unfold swap_field at 1.
  now rewrite Hf, IH.
Qed.

Lemma names_absent fields :
  "usageType" ∉ map field_name fields ->
  existsb names_usage_type fields = false.
Proof.
  induction fields as [|f fs IH]; [reflexivity|]. cbn [existsb map].
  intros Hnot. apply not_elem_of_cons in Hnot as [Hf Hfs].
  rewrite (IH Hfs), orb_false_r. unfold names_usage_type.
  destruct (String.eqb_spec (field_name f) "usageType"); congruence.
Qed.

Lemma encode_swapped usage_type fields :
  forallb plain_field fields = true ->
  NoDup (map field_name fields) ->
  flat_map encode_item
    (Dict.set (map field_item fields) "usageType" [usage_type])
  = if existsb names_usage_type fields
    then map (swap_field usage_type) fields
    else (fields ++ [usage_type_field usage_type])%list.
Proof.
  induction fields as [|f fs IH]; [reflexivity|].
  cbn [forallb map existsb]. intros [Hf Hfs]%andb_prop Hnd.
  apply NoDup_cons in Hnd as [Hfresh Hnd].
  pose proof (encode_plain_field f Hf) as Hitem.
  pose proof (field_name_item f) as Hname.
  destruct (field_item f) as [n vs]. cbn [fst] in Hname. subst n.
  cbn [Dict.set]. unfold swap_field at 1.
  change (String.eqb (field_name f) "usageType") with (names_usage_type f).
  destruct (names_usage_type f) eqn:Hn; cbn [orb flat_map].
  - apply String.eqb_eq in Hn. rewrite Hn in Hfresh |- *.
    rewrite (encode_plain_fields fs Hfs).
    now rewrite (swap_field_others _ _ (names_absent _ Hfresh)).
  - rewrite Hitem, (IH Hfs Hnd). cbn [app].
    now destruct (existsb names_usage_type fs).
Qed.
End SwapExtras.

(** X13: of two swaps in a row only the second leaves a trace: the query
    and the fragment of the URL are those of the one swap to the second
    value, whenever the first value is well-formed text and the URL is
    ASCII, as a browser reports it, or its decoded parameters are
    well-formed text. *)
Theorem swap_usage_type_last_value_wins :
  forall url first second : string,
    well_formed_text first ->
    all_chars ascii7 url = true
    \/ well_formed_params (Urllib.parse_qs (Urllib.query (Urllib.urlparse url))) ->
    let twice :=
      Urllib.urlparse (swap_usage_type (swap_usage_type url first) second) in
    let once := Urllib.urlparse (swap_usage_type url second) in
    Urllib.query twice = Urllib.query once
    /\ Urllib.fragment twice = Urllib.fragment once.
Proof.
  intros url first second Hfirst Hurl twice once.
  set (parsed := Urllib.urlparse url).
  set (params := Urllib.parse_qs (Urllib.query parsed)).
  assert (Hparams : well_formed_params params).
  { destruct Hurl as [Hurl|Hparams]; [|exact Hparams].
    now apply ascii_url_params_well_formed. }
  destruct (parse_qs_invariant (Urllib.query parsed)) as [Hnd Hne].
  fold params in Hnd, Hne.
  assert (Hback : Urllib.parse_qs
            (Urllib.urlencode (Dict.set params "usageType" [first]))
          = Dict.set params "usageType" [first]).
  { apply parse_qs_urlencode.
    - apply dict_set_well_formed; [reflexivity | now constructor | exact Hparams].
    - now apply dict_set_NoDup.
    - now apply dict_set_nonempty. }
  unfold twice, once. rewrite !swap_reparse.
  cbn [Urllib.query Urllib.fragment Urllib.before_query].
  fold parsed params. now rewrite Hback, dict_set_set.
Qed.

Lemma swap_usage_type_last_value_wins_witness :
  let url :=
    "https://myenergy.xcelenergy.com/myenergy/usage-history-ajax/format/json?custId=42&period=Jan%202024#chart" in
  Urllib.query
    (Urllib.urlparse (swap_usage_type (swap_usage_type url "Q") "C"))
  = Urllib.query (Urllib.urlparse (swap_usage_type url "C"))
  /\ Urllib.fragment
       (Urllib.urlparse (swap_usage_type (swap_usage_type url "Q") "C"))
     = Urllib.fragment (Urllib.urlparse (swap_usage_type url "C")).
Proof.
  intros url.
  apply (swap_usage_type_last_value_wins url "Q" "C").
  - reflexivity.
  - left. reflexivity.
Defined.

(** X14: when every field of the query is a [name=value] made of
    letters, digits and [_.-~] and no name occurs twice, the swap rewrites
    the query in place: the fields of the new query are those of the old
    one, as they stand and in their order, with the [usageType] field
    replaced by the new one, which comes last when there was none. *)
Theorem swap_usage_type_in_place_on_plain_query :
  forall url usage_type : string,
    let fields := Str.split "&" (Urllib.query (Urllib.urlparse url)) in
    forallb plain_field fields = true ->
    NoDup (map field_name fields) ->
    Str.split "&"
      (Urllib.query (Urllib.urlparse (swap_usage_type url usage_type)))
    = if existsb names_usage_type fields
      then map (swap_field usage_type) fields
      else fields ++ [usage_type_field usage_type].
Proof.
  intros url usage_type fields Hplain Hnd.
  rewrite swap_reparse. cbn [Urllib.query].
  rewrite (parse_qs_plain _ Hplain Hnd). fold fields.
  pose proof (encode_swapped usage_type fields Hplain Hnd) as Hfields.
  unfold Urllib.urlencode. rewrite split_join.
  - exact Hfields.
  - rewrite Hfields. destruct (existsb names_usage_type fields).
    + intros Hnil%map_eq_nil. now apply (split_nonempty "&"%char) in Hnil.
    + now destruct fields.
  - apply encoded_fields_chars; [|reflexivity].
    intros c Hc. now apply quoted_char_facts in Hc.
Qed.

Lemma swap_usage_type_in_place_on_plain_query_witness :
  let url :=
    "https://myenergy.xcelenergy.com/myenergy/usage-history-ajax/format/json?custId=42&usageType=Q&timePeriod=DAILY&_=1700000000000" in
  Str.split "&" (Urllib.query (Urllib.urlparse (swap_usage_type url "C")))
  = ["custId=42"; "usageType=C"; "timePeriod=DAILY"; "_=1700000000000"].
Proof.
  intros url.
  apply (swap_usage_type_in_place_on_plain_query url "C").
  - reflexivity.
  - apply (bool_decide_unpack _). vm_compute. exact I.
Defined.

Lemma dict_set_same {V} (d : Dict.t V) k v :
  Dict.get d k = Some v -> Dict.set d k v = d.
Proof.
  induction d as [|[k0 v0] d IH]; [discriminate|]. cbn.
  destruct (String.eqb k0 k); [now intros [= ->]|].
  intros Hget. now rewrite IH.
Qed.

(** X23: the swap to the value the URL already has changes no
    parameter: the returned URL decodes to the parameters of the captured
    one, and has its fragment.  The scripts fetch the usage chart from the
    captured URL as it is, so when that URL already asks for C the usage
    request and the cost request ask for the same thing. *)
Theorem swap_usage_type_to_present_value :
  forall url usage_type : string,
    let parsed := Urllib.urlparse url in
    let params := Urllib.parse_qs (Urllib.query parsed) in
    Dict.get params "usageType" = Some [usage_type] ->
    all_chars ascii7 url = true \/ well_formed_params params ->
    let parsed' := Urllib.urlparse (swap_usage_type url usage_type) in
    Urllib.parse_qs (Urllib.query parsed') = params
    /\ Urllib.fragment parsed' = Urllib.fragment parsed.
Proof.
  intros url usage_type parsed params Hget Hurl parsed'.
  assert (Hparams : well_formed_params params).
  { destruct Hurl as [Hurl|Hparams]; [|exact Hparams].
    now apply ascii_url_params_well_formed. }
  destruct (parse_qs_invariant (Urllib.query parsed)) as [Hnd Hne].
  fold params in Hnd, Hne.
  unfold parsed'. rewrite swap_reparse. fold parsed params.
  cbn [Urllib.query Urllib.fragment]. split; [|reflexivity].
  rewrite (dict_set_same params _ _ Hget).
  now apply parse_qs_urlencode.
Qed.

Lemma swap_usage_type_to_present_value_witness :
  let url :=
    "https://myenergy.xcelenergy.com/myenergy/usage-history-ajax/format/json?custId=42&usageType=C&timePeriod=MONTHLY" in
  Urllib.parse_qs
    (Urllib.query (Urllib.urlparse (swap_usage_type url "C")))
  = Urllib.parse_qs (Urllib.query (Urllib.urlparse url)).
Proof.
  intros url.
  apply (swap_usage_type_to_present_value url "C").
  - reflexivity.
  - left. reflexivity.
Defined.

(** ** The download steps of the daily electric script *)

Section DownloadExtras.
Context {R : Type} `{Number R}.
Variable server : nat -> string -> response (Chart.chart R).
Variables url today : string.
Variable fs : gmap string (csv_file R).

Lemma download_outcome :
  ElecDaily.download server url today (World [] fs)
  = let cost_url := swap_usage_type url "C" in
    let r1 := server 0 url in
    if negb (status_code r1 =? 200)%Z
    then (Raise (HttpFailed "kWh ajax request" (status_code r1)),
          World [url] fs)
    else match json r1 with
    | None => (Raise JSONDecodeError, World [url] fs)
    | Some kwh =>
        let written := Chart.json_to_csv kwh (ElecDaily.kwh_file today) fs in
        let r2 := server 1 cost_url in
        if negb (status_code r2 =? 200)%Z
        then (Raise (HttpFailed "Cost ajax request" (status_code r2)),
              World [url; cost_url] (snd written))
        else match json r2 with
        | None => (Raise JSONDecodeError, World [url; cost_url] (snd written))
        | Some cost =>
            let rewritten :=
              Chart.json_to_csv cost (ElecDaily.cost_file today)
                (snd written) in
            (Return (fst written, fst rewritten),
             World [url; cost_url] (snd rewritten))
        end
    end.
Proof.
  unfold ElecDaily.download, ElecDaily.json_to_csv,
    ElecDaily.swap_usage_type, fetch, bind, get, write, raise, ret.
  cbn [sent files length app]. cbv zeta.
  destruct (negb (status_code (server 0%nat url) =? 200)%Z); [reflexivity|].
  destruct (json (server 0 url)) as [kwh|]; [|reflexivity].
  cbn [sent files length app].
  destruct (Chart.json_to_csv kwh (ElecDaily.kwh_file today) fs)
    as [n1 fs1]. cbn [sent files length app fst snd].
  destruct (negb (status_code (server 1%nat (swap_usage_type url "C")) =? 200)%Z);
    [reflexivity|].
  destruct (json (server 1 (swap_usage_type url "C"))) as [cost|];
    [|reflexivity].
  cbn [sent files length app fst snd].
  now destruct (Chart.json_to_csv cost (ElecDaily.cost_file today) fs1).
Qed.

Lemma json_to_csv_elsewhere (d : Chart.chart R) (output_path p : string)
    (store : gmap string (csv_file R)) :
  p <> output_path ->
  snd (Chart.json_to_csv d output_path store) !! p = store !! p.
Proof.
  intros Hp. unfold Chart.json_to_csv.
  destruct (_ || _); cbn [snd]; [reflexivity|].
  now apply lookup_insert_ne.
Qed.

Lemma kwh_file_not_cost_file : ElecDaily.kwh_file today <> ElecDaily.cost_file today.
Proof. unfold ElecDaily.kwh_file, ElecDaily.cost_file. cbn. congruence. Qed.
End DownloadExtras.

(** X15: the download steps of the daily electric script send the
    captured URL first and at most one more request, for the URL with the
    usage type swapped to C; they return only after both; and they leave
    every file other than the two of the day as it was. *)
Theorem download_requests_and_files :
  forall (R : Type) (HR : Number R)
         (server : nat -> string -> response (Chart.chart R))
         (url today : string) (fs : gmap string (csv_file R)),
    let outcome := ElecDaily.download server url today (World [] fs) in
    (sent (snd outcome) = [url]
     \/ sent (snd outcome) = [url; swap_usage_type url "C"])
    /\ (forall rows : nat * nat,
          fst outcome = Return rows ->
          sent (snd outcome) = [url; swap_usage_type url "C"])
    /\ (forall p : string,
          p <> ElecDaily.kwh_file today -> p <> ElecDaily.cost_file today ->
          files (snd outcome) !! p = fs !! p).
Proof.
  intros R HR server url today fs outcome. subst outcome.
  rewrite download_outcome. cbv zeta.
  destruct (negb (status_code (server 0%nat url) =? 200)%Z);
    [cbn; split; [auto|split; [discriminate|reflexivity]]|].
  destruct (json (server 0 url)) as [kwh|];
    [|cbn; split; [auto|split; [discriminate|reflexivity]]].
  destruct (negb (status_code (server 1%nat (swap_usage_type url "C")) =? 200)%Z);
    [cbn [fst snd sent files]; split; [auto|split; [discriminate|]];
     intros p Hk Hc; now apply json_to_csv_elsewhere|].
  destruct (json (server 1 (swap_usage_type url "C"))) as [cost|];
    cbn [fst snd sent files]; (split; [auto|split; [try discriminate; auto|]]);
    intros p Hk Hc; rewrite ?json_to_csv_elsewhere by assumption;
    reflexivity.
Qed.

(** X16: once the kWh step has gone through, the kWh file stays as that
    step left it, whatever becomes of the cost step: a cost response
    that is not a 200 ends the run with the HTTP failure of the cost
    request, and the kWh file of the day is there all the same. *)
Theorem download_keeps_kwh_file :
  forall (R : Type) (HR : Number R)
         (server : nat -> string -> response (Chart.chart R))
         (url today : string) (fs : gmap string (csv_file R))
         (kwh : Chart.chart R),
    status_code (server 0 url) = 200%Z ->
    json (server 0 url) = Some kwh ->
    let outcome := ElecDaily.download server url today (World [] fs) in
    let cost_response := server 1 (swap_usage_type url "C") in
    files (snd outcome) !! ElecDaily.kwh_file today
    = snd (Chart.json_to_csv kwh (ElecDaily.kwh_file today) fs)
        !! ElecDaily.kwh_file today
    /\ (status_code cost_response <> 200%Z ->
        fst outcome
        = Raise (HttpFailed "Cost ajax request" (status_code cost_response))).
Proof.
  intros R HR server url today fs kwh H200 Hjson outcome cost_response.
  subst outcome cost_response. rewrite download_outcome. cbv zeta.
  rewrite H200, Hjson. cbn [Z.eqb Pos.eqb negb].
  destruct (Z.eqb_spec (status_code (server 1 (swap_usage_type url "C"))) 200)
    as [Hok|Hbad]; cbn [negb].
  - split; [|congruence].
    destruct (json (server 1 (swap_usage_type url "C"))) as [cost|];
      cbn [snd files]; [|reflexivity].
    apply json_to_csv_elsewhere, kwh_file_not_cost_file.
  - split; reflexivity.
Qed.

Lemma download_keeps_kwh_file_witness :
  let kwh : Chart.chart num :=
    Chart.Chart (Some ["2024-01-02 00:00:00"])
      (Some [Series "On Peak" [Some (Float (5 # 2))]]) in
  let server (n : nat) (url : string) :=
    match n with
    | O => Response 200 (Some kwh)
    | _ => Response 503 None
    end in
  let url :=
    "https://myenergy.xcelenergy.com/myenergy/usage-history-ajax/format/json?usageType=Q&timePeriod=DAILY" in
  let outcome := ElecDaily.download server url "2024-01-03" (World [] ∅) in
  files (snd outcome) !! ElecDaily.kwh_file "2024-01-03"
  = Some [[Text "Date"; Text "On Peak"; Text "Total"];
          [Text "2024-01-02"; Num (Float (5 # 2)); Num (Float (5 # 2))]]
  /\ fst outcome = Raise (HttpFailed "Cost ajax request" 503).
Proof.
  intros kwh server url outcome.
  destruct (download_keeps_kwh_file num _ server url "2024-01-03" ∅ kwh
              eq_refl eq_refl) as [Hfile Hfail].
  split.
  - etransitivity; [exact Hfile|]. vm_compute. reflexivity.
  - apply Hfail. discriminate.
Defined.

Lemma download_requests_and_files_witness :
  let cost : Chart.chart num :=
    Chart.Chart (Some ["2024-01-02 00:00:00"])
      (Some [Series "On Peak" [Some (Float (1 # 4))]]) in
  let server (n : nat) (url : string) := Response 200 (Some cost) in
  let url :=
    "https://myenergy.xcelenergy.com/myenergy/usage-history-ajax/format/json?usageType=Q&timePeriod=DAILY" in
  let fs : gmap string (csv_file num) :=
    <["xcel_data/ondemand_2024-01-03.csv" := [OnDemand.interval_header]]> ∅ in
  let outcome := ElecDaily.download server url "2024-01-03" (World [] fs) in
  files (snd outcome) !! "xcel_data/ondemand_2024-01-03.csv"
  = fs !! "xcel_data/ondemand_2024-01-03.csv".
Proof.
  intros cost server url fs outcome.
  apply (proj2 (proj2 (download_requests_and_files num _ server url
                         "2024-01-03" fs)));
    intros Heq; vm_compute in Heq; discriminate.
Defined.

(** ** The customer id, from the captured URL to the fetch URL *)

Section BillMainExtras.
Import Str Urllib.
Local Open Scope string_scope.

Lemma string_of_uint_safe (d : Decimal.uint) :
  all_chars always_safe (NilEmpty.string_of_uint d) = true.
Proof. induction d; cbn; auto. Qed.

Lemma str_of_int_safe (n : Z) :
  all_chars always_safe (BillMain.str_of_int n) = true
  /\ truthy (BillMain.str_of_int n) = true.
Proof.
  unfold BillMain.str_of_int, NilZero.string_of_int, NilZero.string_of_uint.
  destruct (Z.to_int n) as [d|d]; destruct d; split; try reflexivity;
    match goal with
    | |- context [NilEmpty.string_of_uint ?u] => exact (string_of_uint_safe u)
    end.
Qed.

Lemma quote_plus_truthy s : truthy s = true -> truthy (quote_plus s) = true.
Proof.
  destruct s as [|c s]; [discriminate|]. intros _. cbn [quote_plus].
  destruct (always_safe c); [reflexivity|].
  now destruct (Ascii.eqb c " ").
Qed.

Lemma default_parse_field_encoded k v :
  well_formed_text k -> well_formed_text v -> truthy v = true ->
  BillMain.parse_field (quote_plus k ++ "=" ++ quote_plus v) = [(k, v)].
Proof.
  intros Hk Hv Hne. unfold BillMain.parse_field.
  assert (Ht : truthy (quote_plus k ++ "=" ++ quote_plus v) = true)
    by now destruct (quote_plus k).
  rewrite Ht. cbn [String.append].
  rewrite cut_app.
  - rewrite (quote_plus_truthy v Hne). now rewrite !unquote_quote_plus.
  - apply quote_plus_no. intros c Hc. now apply quoted_char_facts in Hc.
Qed.

Lemma default_parse_encoded_fields (params : Dict.t string) :
  Forall (fun item => well_formed_text (fst item)
                      /\ well_formed_text (snd item)
                      /\ truthy (snd item) = true) params ->
  flat_map BillMain.parse_field
    (flat_map encode_item (map (fun item => (fst item, [snd item])) params))
  = params.
Proof.
  induction 1 as [|[k v] params (Hk & Hv & Hne) _ IH]; [reflexivity|].
  cbn [map flat_map fst snd encode_item app].
  now rewrite default_parse_field_encoded, IH.
Qed.

Lemma default_parse_qs_urlencode (params : Dict.t string) :
  params <> [] ->
  Forall (fun item => well_formed_text (fst item)
                      /\ well_formed_text (snd item)
                      /\ truthy (snd item) = true) params ->
  NoDup (Dict.keys params) ->
  BillMain.parse_qs (BillMain.urlencode params)
  = map (fun item => (fst item, [snd item])) params.
Proof.
  intros Hne Hwf Hnd.
  set (d := map (fun item => (fst item, [snd item])) params).
  unfold BillMain.parse_qs, BillMain.parse_qsl, BillMain.urlencode,
    Urllib.urlencode. fold d.
  rewrite split_join.
  - unfold d. rewrite default_parse_encoded_fields by exact Hwf.
    assert (Hpairs : params = pairs_of d).
    { unfold d, pairs_of. clear. induction params as [|[k v] params IH];
        [reflexivity|]. cbn. now rewrite <- IH. }
    rewrite Hpairs at 1. fold d. rewrite (parse_pairs [] d); [reflexivity| |].
    + cbn [app]. unfold d, Dict.keys. rewrite map_map. exact Hnd.
    + unfold d. apply List.Forall_forall.
      intros item [p [<- _]]%in_map_iff. discriminate.
  - unfold d. destruct params as [|[k v] params]; [congruence|]. discriminate.
  - apply encoded_fields_chars; [|reflexivity].
    intros c Hc. now apply quoted_char_facts in Hc.
Qed.

Lemma urlparse_endpoint q :
  all_chars query_char q = true -> truthy q = true ->
  urlparse (BillMain.BILL_AJAX_ENDPOINT ++ "?" ++ q)
  = mkParseResult BillMain.BILL_AJAX_ENDPOINT q EmptyString.
Proof.
  intros Hq Hne.
  rewrite <- (urlparse_urlunparse BillMain.BILL_AJAX_ENDPOINT q EmptyString);
    try reflexivity; try assumption.
  unfold urlunparse. cbn [before_query query fragment truthy].
  rewrite Hne. now rewrite append_nil_r.
Qed.

(** The values [parse_qs] files under a name are the values of the pairs
    of that name, in their order. *)
Lemma dict_get_add (acc : Dict.t (list string)) pair k :
  Dict.get (dict_add acc pair) k
  = if String.eqb (fst pair) k
    then Some (default [] (Dict.get acc k) ++ [snd pair])%list
    else Dict.get acc k.
Proof.
  unfold dict_add.
  destruct (String.eqb_spec (fst pair) k) as [<-|Hne].
  - destruct (Dict.get acc (fst pair)) as [vs|]; now rewrite dict_get_set_eq.
  - destruct (Dict.get acc (fst pair)) as [vs|];
      now rewrite dict_get_set_ne.
Qed.

Lemma dict_get_fold (pairs : list (string * string)) :
  forall (acc : Dict.t (list string)) k,
    Dict.get (foldl dict_add acc pairs) k
    = match Dict.get acc k, values_of k pairs with
      | Some vs, more => Some (vs ++ more)%list
      | None, [] => None
      | None, more => Some more
      end.
Proof.
  unfold values_of.
  induction pairs as [|pair pairs IH]; intros acc k; cbn [foldl List.filter map].
  - destruct (Dict.get acc k); [now rewrite app_nil_r|reflexivity].
  - rewrite IH, dict_get_add.
    destruct (String.eqb (fst pair) k); cbn [map].
    + destruct (Dict.get acc k) as [vs|]; cbn [default];
        [now rewrite <- app_assoc|reflexivity].
    + reflexivity.
Qed.
End BillMainExtras.

(** X17: the fetch URL carries the customer id it was built from: for
    an id that is not empty, and whatever characters it has, the query of
    the built URL parses back into the six parameters with their values,
    the dates in decimal, and the extraction of step 4 applied to the
    built URL gives the id back. *)
Theorem build_bill_ajax_url_carries_custid :
  forall (custid : string) (start end_ now_ms : Z),
    Str.truthy custid = true ->
    well_formed_text custid ->
    let fetch_url := BillMain.build_bill_ajax_url custid start end_ now_ms in
    BillMain.parse_qs (Urllib.query (Urllib.urlparse fetch_url))
    = [("custid", [custid]); ("page", ["false"]); ("widget_id", ["4907"]);
       ("start_date", [BillMain.str_of_int start]);
       ("end_date", [BillMain.str_of_int end_]);
       ("_", [BillMain.str_of_int now_ms])]
    /\ BillMain.custid_of fetch_url = Some custid.
Proof.
  intros custid start end_ now_ms Hne Hwf fetch_url.
  set (params := [("custid", custid); ("page", "false");
                  ("widget_id", "4907");
                  ("start_date", BillMain.str_of_int start);
                  ("end_date", BillMain.str_of_int end_);
                  ("_", BillMain.str_of_int now_ms)]).
  assert (Hparse : BillMain.parse_qs (Urllib.query (Urllib.urlparse fetch_url))
                   = map (fun item => (fst item, [snd item])) params).
  { unfold fetch_url, BillMain.build_bill_ajax_url. fold params.
    rewrite urlparse_endpoint.
    - cbn [Urllib.query]. apply default_parse_qs_urlencode.
      + discriminate.
      + destruct (str_of_int_safe start) as [Hs1 Hs2].
        destruct (str_of_int_safe end_) as [He1 He2].
        destruct (str_of_int_safe now_ms) as [Hn1 Hn2].
        repeat (apply List.Forall_cons || apply List.Forall_nil);
          cbn [fst snd]; repeat split;
          try reflexivity; try assumption;
          now apply safe_well_formed.
      + apply (bool_decide_unpack _). vm_compute. exact I.
    - apply urlencode_chars.
    - apply (urlencode_truthy _ "custid" custid []). reflexivity. }
  split; [exact Hparse|].
  unfold BillMain.custid_of. fold fetch_url. rewrite Hparse.
  cbn. now rewrite Hne.
Qed.

Lemma build_bill_ajax_url_carries_custid_witness :
  BillMain.custid_of
    (BillMain.build_bill_ajax_url "42/7 A&B" 1700000000 1763072000
       1763072000123)
  = Some "42/7 A&B".
Proof.
  apply (build_bill_ajax_url_carries_custid "42/7 A&B" 1700000000 1763072000
           1763072000123); reflexivity.
Defined.

(** X18: the customer id step 4 extracts is the value of the first
    [custid] field of the captured query among those that have a value:
    fields with nothing after the [=], or without it, are passed over,
    later [custid] fields and all other fields play no part; with no such
    field there is no id and the run stops. *)
Theorem custid_of_first_valued_field :
  forall ajax_url : string,
    BillMain.custid_of ajax_url
    = match values_of "custid"
              (BillMain.parse_qsl (Urllib.query (Urllib.urlparse ajax_url)))
      with
      | custid :: _ => if Str.truthy custid then Some custid else None
      | [] => None
      end.
Proof.
  intros ajax_url. unfold BillMain.custid_of, BillMain.parse_qs.
  rewrite dict_get_fold. cbn [Dict.get].
  now destruct (values_of _ _) as [|custid more].
Qed.

(** ** The on-demand capture *)

Section OnDemandExtras.
Context {R : Type}.
Import OnDemandMain.

Lemma on_response_full (j : body R) (responses : list (odr_response R)) :
  foldl on_response (Some j) responses = Some j.
Proof.
  induction responses as [|r rs IH]; [reflexivity|]. cbn [foldl].
  unfold on_response at 2. cbn [is_none]. now rewrite andb_false_r.
Qed.

Lemma on_response_first (resp : odr_response R) :
  on_response None resp = usable_body resp.
Proof.
  unfold on_response, usable_body. cbn [is_none]. rewrite andb_true_r.
  destruct (Str.contains "odr-ajax" (url resp)); [|reflexivity].
  now destruct (json_of resp) as [[]|].
Qed.

Lemma on_response_skips (before : list (odr_response R)) :
  Forall (fun r => usable_body r = None) before ->
  foldl on_response None before = None.
Proof.
  induction 1 as [|r rs Hr _ IH]; [reflexivity|]. cbn [foldl].
  now rewrite on_response_first, Hr.
Qed.

Lemma on_response_captures (before after : list (odr_response R)) r j :
  Forall (fun r => usable_body r = None) before ->
  usable_body r = Some j ->
  foldl on_response None (before ++ r :: after) = Some j.
Proof.
  intros Hbefore Hr. rewrite foldl_app, (on_response_skips _ Hbefore).
  cbn [foldl]. rewrite on_response_first, Hr. apply on_response_full.
Qed.
End OnDemandExtras.

(** X19: the response observer retains the data of the first [odr-ajax]
    response whose body parses to something other than [null]: responses
    for other URLs, bodies that do not parse and [null] bodies before it
    are passed over, and nothing that comes after it changes the slot;
    when no response offers data the slot stays empty. *)
Theorem on_response_retains_first_usable :
  forall (R : Type) (before after : list (OnDemandMain.odr_response R))
         (resp : OnDemandMain.odr_response R) (data : OnDemandMain.body R),
    Forall (fun r => usable_body r = None) before ->
    usable_body resp = Some data ->
    foldl OnDemandMain.on_response None (before ++ resp :: after) = Some data
    /\ foldl OnDemandMain.on_response None before = None.
Proof.
  intros R before after resp data Hbefore Hresp. split.
  - now apply on_response_captures.
  - now apply on_response_skips.
Qed.

Lemma on_response_retains_first_usable_witness :
  let reading : OnDemand.interval num :=
    OnDemand.Interval (OnDemand.Value "2/26/2026 8:30 AM")
      (OnDemand.Value 1772119800%Z) (OnDemand.Value (Float (1 # 4)))
      (OnDemand.Value "off-peak") in
  let data :=
    OnDemandMain.JsonObject
      (OnDemandMain.OdrObject OnDemand.Absent (OnDemand.Value [reading])
         false) in
  let odr := "https://myenergy.xcelenergy.com/myenergy/odr-ajax" in
  let before :=
    [OnDemandMain.OdrResponse
       "https://myenergy.xcelenergy.com/myenergy/usage-history"
       (Some (OnDemandMain.JsonOther true));
     OnDemandMain.OdrResponse odr None;
     OnDemandMain.OdrResponse odr (Some OnDemandMain.JsonNull)] in
  let after := [OnDemandMain.OdrResponse odr (Some (OnDemandMain.JsonOther true))] in
  foldl OnDemandMain.on_response None
    (before ++ OnDemandMain.OdrResponse odr (Some data) :: after)
  = Some data.
Proof.
  intros reading data odr before after.
  apply (on_response_retains_first_usable num before after
           (OnDemandMain.OdrResponse odr (Some data)) data).
  - repeat apply List.Forall_cons; try apply List.Forall_nil; reflexivity.
  - reflexivity.
Defined.

(** X20: the slot is tested for [None] when it is filled and for truth
    when it is read, so a first body that is falsy without being [null],
    an object without keys say, fills the slot and fails the run: the run
    takes the error screenshot, ends with the not-captured error and
    leaves the CSV files as they were, whatever data the later responses
    carry. *)
Theorem falsy_first_body_fails_the_run :
  forall (R : Type) (reformat : string -> option string)
         (before after : list (OnDemandMain.odr_response R))
         (resp : OnDemandMain.odr_response R) (data : OnDemandMain.body R)
         (today : string) (fs : gmap string (csv_file R)),
    Forall (fun r => usable_body r = None) before ->
    usable_body resp = Some data ->
    OnDemandMain.body_truthy data = false ->
    OnDemandMain.capture_and_write reformat (before ++ resp :: after) today fs
    = (inl (OnDemandMain.Stopped OnDemandMain.NotCaptured
              (Some "xcel_data/ondemand_error.png")),
       fs).
Proof.
  intros R reformat before after resp data today fs Hbefore Hresp Hfalsy.
  unfold OnDemandMain.capture_and_write.
  rewrite (on_response_captures before after resp data Hbefore Hresp).
  unfold OnDemandMain.read_intervals. now rewrite Hfalsy.
Qed.

Lemma falsy_first_body_fails_the_run_witness :
  let reading : OnDemand.interval num :=
    OnDemand.Interval (OnDemand.Value "2/26/2026 8:30 AM")
      (OnDemand.Value 1772119800%Z) (OnDemand.Value (Float (1 # 4)))
      (OnDemand.Value "off-peak") in
  let odr := "https://myenergy.xcelenergy.com/myenergy/odr-ajax" in
  let empty_object :=
    OnDemandMain.JsonObject
      (OnDemandMain.OdrObject OnDemand.Absent OnDemand.Absent false) in
  let data :=
    OnDemandMain.JsonObject
      (OnDemandMain.OdrObject OnDemand.Absent (OnDemand.Value [reading])
         false) in
  OnDemandMain.capture_and_write Datetime.mdY_IMp_to_iso
    ([] ++ OnDemandMain.OdrResponse odr (Some empty_object)
        :: [OnDemandMain.OdrResponse odr (Some data)])
    "2026-02-26" ∅
  = (inl (OnDemandMain.Stopped OnDemandMain.NotCaptured
            (Some "xcel_data/ondemand_error.png")),
     ∅).
Proof.
  intros reading odr empty_object data.
  apply (falsy_first_body_fails_the_run num Datetime.mdY_IMp_to_iso []
           [OnDemandMain.OdrResponse odr (Some data)]
           (OnDemandMain.OdrResponse odr (Some empty_object)) empty_object
           "2026-02-26" ∅).
  - apply List.Forall_nil.
  - reflexivity.
  - reflexivity.
Defined.

(** X21: a captured object with no error text and no [intervals] key, or
    an empty [intervals] list, still goes through to the writer: the file
    of the day is replaced by the header alone, whatever rows an earlier
    run had left in it, and the run reports 0 intervals. *)
Theorem no_intervals_empties_the_file :
  forall (R : Type) (reformat : string -> option string)
         (before after : list (OnDemandMain.odr_response R))
         (resp : OnDemandMain.odr_response R) (o : OnDemandMain.odr_object R)
         (today : string) (fs : gmap string (csv_file R)),
    Forall (fun r => usable_body r = None) before ->
    usable_body resp = Some (OnDemandMain.JsonObject o) ->
    OnDemandMain.body_truthy (OnDemandMain.JsonObject o) = true ->
    (forall e, OnDemandMain.error o = OnDemand.Value e -> e = EmptyString) ->
    OnDemandMain.intervals o = OnDemand.Absent
    \/ OnDemandMain.intervals o = OnDemand.Value [] ->
    OnDemandMain.capture_and_write reformat (before ++ resp :: after) today fs
    = (inr 0,
       <[OnDemandMain.csv_file_of today := [OnDemand.interval_header]]> fs).
Proof.
  intros R reformat before after resp o today fs Hbefore Hresp Htruthy
    Herror Hnone.
  unfold OnDemandMain.capture_and_write.
  rewrite (on_response_captures before after resp _ Hbefore Hresp).
  unfold OnDemandMain.read_intervals. rewrite Htruthy. cbn [negb].
  assert (Htext : match OnDemandMain.error o with
                  | OnDemand.Value e => if Str.truthy e then Some e else None
                  | _ => None
                  end = None).
  { destruct (OnDemandMain.error o) as [| |e] eqn:He; try reflexivity.
    now rewrite (Herror e eq_refl). }
  rewrite Htext. now destruct Hnone as [-> | ->].
Qed.

Lemma no_intervals_empties_the_file_witness :
  let odr := "https://myenergy.xcelenergy.com/myenergy/odr-ajax" in
  let o : OnDemandMain.odr_object num :=
    OnDemandMain.OdrObject (OnDemand.Value EmptyString) OnDemand.Absent
      false in
  let earlier : csv_file num :=
    [OnDemand.interval_header;
     [Text "2026-02-26 08:30"; Num (Float (1 # 4)); Text "off-peak";
      Integer 1772119800000]] in
  OnDemandMain.capture_and_write Datetime.mdY_IMp_to_iso
    ([] ++ OnDemandMain.OdrResponse odr (Some (OnDemandMain.JsonObject o))
        :: [])
    "2026-02-26"
    (<[OnDemandMain.csv_file_of "2026-02-26" := earlier]> ∅)
  = (inr 0,
     <[OnDemandMain.csv_file_of "2026-02-26" := [OnDemand.interval_header]]>
       (<[OnDemandMain.csv_file_of "2026-02-26" := earlier]> ∅)).
Proof.
  intros odr o earlier.
  apply (no_intervals_empties_the_file num Datetime.mdY_IMp_to_iso [] []
           (OnDemandMain.OdrResponse odr (Some (OnDemandMain.JsonObject o)))
           o "2026-02-26").
  - apply List.Forall_nil.
  - reflexivity.
  - reflexivity.
  - intros e [= <-]. reflexivity.
  - left. reflexivity.
Defined.

(** ** The timestamp normaliser *)

Section DatetimeExtras.
Import Str Datetime.
Local Open Scope string_scope.
Variable p : ascii -> bool.

Lemma digit_in_rest lo hi : hands_on_rest p (digit_in lo hi).
Proof.
  intros [|c s] a r Hs; cbn; [tauto|].
  destruct (_ && _); cbn; [|tauto].
  intros [[= _ <-]|[]]. cbn in Hs. now apply andb_prop in Hs.
Qed.

Lemma yield_rest {A} (a : A) : hands_on_rest p (yield a).
Proof. intros s a' r Hs [[= _ <-]|[]]. exact Hs. Qed.

Lemma alt_rest {A} (m1 m2 : matcher A) :
  hands_on_rest p m1 -> hands_on_rest p m2 -> hands_on_rest p (alt m1 m2).
Proof.
  intros H1 H2 s a r Hs [Hin|Hin]%in_app_iff; [eapply H1|eapply H2]; eauto.
Qed.

Lemma andthen_rest {A B} (m : matcher A) (f : A -> matcher B) :
  hands_on_rest p m -> (forall a, hands_on_rest p (f a)) ->
  hands_on_rest p (andthen m f).
Proof.
  intros Hm Hf s b r Hs [[a r'] [Hin Hb]]%in_flat_map. cbn [fst snd] in Hb.
  eapply Hf; [|exact Hb]. eapply Hm; eauto.
Qed.

Lemma month_re_rest : hands_on_rest p month_re.
Proof.
  unfold month_re, two_digits.
  repeat first [ apply alt_rest | apply andthen_rest | apply digit_in_rest
               | apply yield_rest | intros ? ].
Qed.
End DatetimeExtras.

Section SlashExtras.
Import Str Datetime.
Local Open Scope string_scope.

Lemma lit_absent a s : all_chars (is_not a) s = true -> lit a s = [].
Proof.
  destruct s as [|c s]; [reflexivity|]. cbn. unfold is_not.
  intros [Hc _]%andb_prop. apply negb_true_iff in Hc. now rewrite Hc.
Qed.

Lemma flat_map_nothing {A B} (f : A -> list B) (l : list A) :
  (forall x, In x l -> f x = []) -> flat_map f l = [].
Proof.
  induction l as [|x l IH]; [reflexivity|]. intros Hf. cbn.
  rewrite (Hf x) by now left. apply IH. intros y Hy. apply Hf. now right.
Qed.

(** A text without [/] is no date of the form month/day/year. *)
Lemma mdY_re_needs_slash s :
  all_chars (is_not "/") s = true -> mdY_re s = [].
Proof.
  intros Hs. unfold mdY_re. unfold andthen at 1.
  apply flat_map_nothing. intros [m r] Hin. cbn [fst snd].
  unfold andthen at 1.
  rewrite lit_absent; [reflexivity|].
  eapply month_re_rest; eauto.
Qed.

Lemma mdY_IMp_to_iso_needs_slash s :
  all_chars (is_not "/") s = true -> mdY_IMp_to_iso s = None.
Proof.
  intros Hs. unfold mdY_IMp_to_iso, strptime_mdY_IMp, mdY_IMp_re.
  unfold andthen at 1. now rewrite mdY_re_needs_slash.
Qed.

Lemma decimal_no_slash n : all_chars (is_not "/") (decimal n) = true.
Proof.
  unfold decimal, NilZero.string_of_uint.
  destruct (N.to_uint (Z.to_N n)) eqn:Hu; try reflexivity;
    rewrite <- Hu;
    (eapply all_chars_impl; [|apply string_of_uint_safe]);
    intros c Hc;
    destruct c as [[] [] [] [] [] [] [] []]; try discriminate; reflexivity.
Qed.

Lemma two_no_slash n : all_chars (is_not "/") (two n) = true.
Proof.
  unfold two. destruct (n <? 10)%Z; [|apply decimal_no_slash].
  rewrite all_chars_app, decimal_no_slash. reflexivity.
Qed.

Lemma strftime_YmdHM_no_slash t :
  all_chars (is_not "/") (strftime_YmdHM t) = true.
Proof.
  unfold strftime_YmdHM, strftime_Ymd.
  now rewrite !all_chars_app, decimal_no_slash, !two_no_slash.
Qed.

Lemma mdY_IMp_to_iso_no_slash s iso :
  mdY_IMp_to_iso s = Some iso -> all_chars (is_not "/") iso = true.
Proof.
  unfold mdY_IMp_to_iso. destruct (strptime_mdY_IMp s) as [t|]; [|discriminate].
  intros [= <-]. apply strftime_YmdHM_no_slash.
Qed.
End SlashExtras.

(** X22: [parse_interval_datetime] returns a text without [/] as it is,
    and what it returns for a timestamp it reads has no [/]; so a
    timestamp already normalised is left alone: normalising twice is
    normalising once. *)
Theorem parse_interval_datetime_idempotent :
  forall ts : string,
    let normalise := OnDemand.parse_interval_datetime Datetime.mdY_IMp_to_iso in
    normalise (normalise ts) = normalise ts
    /\ (all_chars (is_not "/") ts = true -> normalise ts = ts).
Proof.
  intros ts normalise.
  assert (Hplain : forall s, all_chars (is_not "/") s = true ->
                             normalise s = s).
  { intros s Hs. unfold normalise, OnDemand.parse_interval_datetime.
    now rewrite mdY_IMp_to_iso_needs_slash. }
  split; [|apply Hplain].
  assert (Hts : normalise ts = default ts (Datetime.mdY_IMp_to_iso ts))
    by reflexivity.
  destruct (Datetime.mdY_IMp_to_iso ts) as [iso|] eqn:Hiso;
    cbn [default] in Hts; rewrite Hts.
  - apply Hplain. now apply mdY_IMp_to_iso_no_slash in Hiso.
  - unfold normalise, OnDemand.parse_interval_datetime. now rewrite Hiso.
Qed.

Lemma parse_interval_datetime_idempotent_witness :
  OnDemand.parse_interval_datetime Datetime.mdY_IMp_to_iso "2026-02-26 08:30"
  = "2026-02-26 08:30".
Proof.
  apply (parse_interval_datetime_idempotent "2026-02-26 08:30").
  reflexivity.
Defined.
